(** * The 100-prisoner problem simulator: a shallow embedding

    The development follows the three modules of the repository:
    [algorithms.py] (attempt budgets and the two selection strategies),
    [config.py] (the option verifier) and [runner.py] (trials and the
    simulation loop).  Python values that flow through the keyword
    dictionaries are a small tagged union ([None], Booleans, integers
    and strings); floats arise as quotients of integers and are kept as
    the rational a binary64 number stands for; numpy arrays of integers
    are lists of [Z]; exceptions are an explicit result type. *)

From Stdlib Require Import ZArith QArith Qround List Lia Bool.
From stdpp Require Import gmap strings list.

Local Open Scope Z_scope.

(** ** Python values, exceptions and results *)

Inductive pyval : Type :=
  | PNone
  | PBool (b : bool)
  | PInt (z : Z)
  | PStr (s : string).

Inductive exn : Type :=
  | TypeError
  | ValueError
  | KeyError
  | IndexError
  | ZeroDivisionError
  | OverflowError
  | NameError.

(** A computation returns, raises, or (for the one unbounded loop of the
    program) runs out of the fuel it was given. *)
Inductive result (A : Type) : Type :=
  | Ok (a : A)
  | Raise (e : exn)
  | Fuel.

Arguments Ok {A} a.
Arguments Raise {A} e.
Arguments Fuel {A}.

Definition bind {A B : Type} (m : result A) (k : A -> result B) : result B :=
  match m with
  | Ok a => k a
  | Raise e => Raise e
  | Fuel => Fuel
  end.

Notation "x <- m ;; k" := (bind m (fun x => k))
  (at level 100, m at next level, right associativity).

Definition is_ok {A : Type} (m : result A) : bool :=
  match m with Ok _ => true | _ => false end.

Global Instance pyval_eq_dec : EqDecision pyval.
Proof. solve_decision. Defined.

(** The integer a bool or an int stands for in arithmetic and comparison
    ([True == 1], [False == 0]). *)
Definition as_number (v : pyval) : option Z :=
  match v with
  | PBool b => Some (if b then 1 else 0)
  | PInt z => Some z
  | _ => None
  end.

(** Python's [==] on the modelled values. *)
Definition py_eq (a b : pyval) : bool :=
  match as_number a, as_number b with
  | Some x, Some y => x =? y
  | _, _ =>
      match a, b with
      | PNone, PNone => true
      | PStr s, PStr t => String.eqb s t
      | _, _ => false
      end
  end.

(** A call [f(..., **kwargs)] binds the keywords to the parameters of
    [f]: a keyword that names a parameter already given by position is a
    [TypeError] (got multiple values for argument). *)
Definition bind_call (params : list string) (kwargs : gmap string pyval)
  : result unit :=
  if forallb (fun p => bool_decide (kwargs !! p = None)) params
  then Ok tt else Raise TypeError.

(** ** numpy arrays of integers *)

Module np.

Definition len (a : list Z) : Z := Z.of_nat (length a).

(** [a[i]]: a negative index counts from the end; outside
    [-len, len) numpy raises [IndexError]. *)
Definition getitem (a : list Z) (i : Z) : result Z :=
  let j := if i <? 0 then i + len a else i in
  if (0 <=? j) && (j <? len a) then
    match a !! Z.to_nat j with
    | Some v => Ok v
    | None => Raise IndexError
    end
  else Raise IndexError.

(** A slice bound, as Python normalises it: negative bounds count from
    the end and the result is clamped to [0, len]. *)
Definition clamp (a : list Z) (i : Z) : nat :=
  let j := if i <? 0 then i + len a else i in
  Z.to_nat (Z.min (Z.max j 0) (len a)).

(** [a[:stop]] *)
Definition slice_to (a : list Z) (stop : Z) : list Z :=
  take (clamp a stop) a.

(** [a[start:]] *)
Definition slice_from (a : list Z) (start : Z) : list Z :=
  drop (clamp a start) a.

(** [np.append(a, b)]: a fresh array holding [a] then [b]. *)
Definition append (a b : list Z) : list Z := a ++ b.

(** [np.arange(0, n)] *)
Definition arange (n : Z) : list Z := seqZ 0 n.

End np.

(** ** Python floats

    A Python float is a binary64 number.  The floats of the program are
    quotients of two integers, which Python rounds correctly (to the
    nearest binary64 number, ties to the even significand); they are
    kept here as the rational they stand for. *)

Module float.

(** [a / (b * 2^e)] as a fraction of integers, for an exponent of either
    sign. *)
Definition scaled_num (a e : Z) : Z := a * 2 ^ Z.max 0 (- e).
Definition scaled_den (b e : Z) : Z := b * 2 ^ Z.max 0 e.

(** The binary exponent of [a/b], for positive [a] and [b]: the [e] with
    [2^e <= a/b < 2^(e+1)]. *)
Definition exponent (a b : Z) : Z :=
  let e := Z.log2 a - Z.log2 b in
  if scaled_num a e <? scaled_den b e then e - 1 else e.

(** The integer nearest to [num/den], ties to the even one. *)
Definition rne (num den : Z) : Z :=
  let q := num / den in
  let r := num mod den in
  match 2 * r ?= den with
  | Lt => q
  | Gt => q + 1
  | Eq => if Z.even q then q else q + 1
  end.

(** The binary64 number nearest to [a/b], as a significand and the
    exponent of its last place: 53 significant bits, and no exponent of
    the last place below -1074. *)
Definition round_pos (a b : Z) : Z * Z :=
  let s := Z.max (exponent a b) (-1022) - 52 in
  (rne (scaled_num a s) (scaled_den b s), s).

Definition to_Q (ms : Z * Z) : Q :=
  Qmake (fst ms * 2 ^ Z.max 0 (snd ms)) (Z.to_pos (2 ^ Z.max 0 (- snd ms))).

(** The rounded value is beyond the largest binary64 number. *)
Definition overflows (ms : Z * Z) : bool :=
  2 ^ 1024 * 2 ^ Z.max 0 (- snd ms) <=? fst ms * 2 ^ Z.max 0 (snd ms).

(** [a / b] on Python integers: the quotient correctly rounded to a
    binary64 number, [ZeroDivisionError] for a zero divisor and
    [OverflowError] when the rounded quotient is too large for a float.
    A negative zero is the rational 0; floor, ceiling and [int] do not
    tell them apart. *)
Definition div (a b : Z) : result Q :=
  if b =? 0 then Raise ZeroDivisionError
  else if a =? 0 then Ok 0%Q
  else
    let x := round_pos (Z.abs a) (Z.abs b) in
    if overflows x then Raise OverflowError
    else Ok (if xorb (a <? 0) (b <? 0) then (- to_Q x)%Q else to_Q x).

(** [int(x)] on a float: truncation towards zero. *)
Definition trunc (x : Q) : Z :=
  if Qle_bool 0 x then Qfloor x else Qceiling x.

End float.

(** ** algorithms.py *)

Module algorithms.

(** *** AttemptSchema *)

(** [a / b] on integers is true division: the result is a float. *)
Definition true_div (a b : Z) : result Q := float.div a b.

Definition _round (attempts : Q) (lower : pyval) : Z :=
  if py_eq lower (PBool true) then Qfloor attempts else Qceiling attempts.

Definition _default (nEnvelopes : Z) (param lower : pyval) : result Z :=
  attempts <- true_div nEnvelopes 2 ;;
  Ok (_round attempts lower).

Definition _modified (nEnvelopes : Z) (param lower : pyval) : result Z :=
  match as_number param with
  | Some d =>
      attempts <- true_div nEnvelopes d ;;
      Ok (_round attempts lower)
  | None => Raise TypeError
  end.

(** [AttemptSchema(envelopes, **kwargs).attempts]: [schema] and [param]
    are keyword parameters with defaults, [lower] is popped from the
    remaining keywords and must be there. *)
Definition AttemptSchema (envelopes : list Z) (kwargs : gmap string pyval)
  : result Z :=
  let nEnvelopes := np.len envelopes in
  let schema := default (PStr "default") (kwargs !! "schema") in
  let param := default PNone (kwargs !! "param") in
  match kwargs !! "lower" with
  | None => Raise KeyError
  | Some lower =>
      match schema with
      | PStr s =>
          if String.eqb s "default" then _default nEnvelopes param lower
          else if String.eqb s "modified" then _modified nEnvelopes param lower
          else Raise KeyError
      | _ => Raise KeyError
      end
  end.

(** The strategy classes of the module; [__name__] keys the result
    tables. *)
Inductive algorithm : Type :=
  | RandomSelect
  | LoopSelect.

Definition __name__ (a : algorithm) : string :=
  match a with
  | RandomSelect => "RandomSelect"
  | LoopSelect => "LoopSelect"
  end.

(** *** The random source

    [random.choice(range(n))] draws an index below [n] and raises
    [IndexError] on an empty range.  The generator is a stream of raw
    draws; a draw is reduced into the range and the stream advances. *)
Definition rng : Type := nat -> nat.

Definition advance (r : rng) : rng := fun k => r (S k).

Definition random_choice_range (r : rng) (n : nat) : result (nat * rng) :=
  match n with
  | O => Raise IndexError
  | _ => Ok ((r O mod n)%nat, advance r)
  end.

(** *** RandomSelect *)

(** One opening of [RandomSelect._run], recorded for the properties
    about it: the collection before, the index drawn, the content
    revealed. *)
Record opening : Type := Opening {
  before : list Z;
  guess : nat;
  check : Z
}.

(** The loop body after the draw: read [unchecked[guess]], then rebind
    [unchecked] to [np.append(unchecked[:guess], unchecked[-guess:])]. *)
Definition RandomSelect_body (unchecked : list Z) (guess : nat)
  : result (Z * list Z) :=
  check <- np.getitem unchecked (Z.of_nat guess) ;;
  Ok (check,
      np.append (np.slice_to unchecked (Z.of_nat guess))
                (np.slice_from unchecked (- Z.of_nat guess))).

(** [while (success == False) & (attempts > 0)]: one unit of fuel per
    iteration.  The log is ghost state. *)
Fixpoint RandomSelect_loop (fuel : nat) (r : rng) (prisoner : Z)
    (unchecked : list Z) (attempts : Z) (success : bool)
    (log : list opening) : result (bool * list opening * rng) :=
  if negb success && (attempts >? 0) then
    match fuel with
    | O => Fuel
    | S fuel =>
        let attempts := attempts - 1 in
        gr <- random_choice_range r (length unchecked) ;;
        let guess := fst gr in
        cu <- RandomSelect_body unchecked guess ;;
        let check := fst cu in
        let success := if prisoner =? check then true else success in
        RandomSelect_loop fuel (snd gr) prisoner (snd cu) attempts success
          (log ++ [Opening unchecked guess check])
    end
  else Ok (success, log, r).

(** [RandomSelect._run(prisoner, unchecked, attempts)]; the loop runs at
    most [attempts] times. *)
Definition RandomSelect_run (r : rng) (prisoner : Z) (unchecked : list Z)
    (attempts : Z) : result (bool * list opening * rng) :=
  RandomSelect_loop (Z.to_nat attempts) r prisoner unchecked attempts false [].

(** *** LoopSelect *)

(** [while (success == False)]: the loop has no bound of its own, so it
    runs on fuel.  It leaves through the loop condition once [success]
    is set, or through [break]. *)
Fixpoint LoopSelect_loop (fuel : nat) (prisoner : Z) (unchecked : list Z)
    (attempts : Z) (check : Z) (loop_size : Z) : result (bool * Z) :=
  match fuel with
  | O => Fuel
  | S fuel =>
      let attempts := attempts - 1 in
      let loop_size := loop_size + 1 in
      let guess := check in
      check <- np.getitem unchecked guess ;;
      if prisoner =? check then
        if attempts >? 0 then Ok (true, loop_size)
        else Ok (false, loop_size)
      else LoopSelect_loop fuel prisoner unchecked attempts check loop_size
  end.

(** [LoopSelect._run(prisoner, unchecked, attempts)]: the success flag
    and the value stored under ['loop_size']. *)
Definition LoopSelect_run (fuel : nat) (prisoner : Z) (unchecked : list Z)
    (attempts : Z) : result (bool * Z) :=
  LoopSelect_loop fuel prisoner unchecked attempts prisoner 0.

(** [algorithm(prisoner, envelopes, **kwargs)]: a keyword that names a
    positional parameter is a [TypeError] when the call is bound. *)
Definition bind_keywords (kwargs : gmap string pyval) : result unit :=
  match kwargs !! "self", kwargs !! "prisoner", kwargs !! "envelopes" with
  | None, None, None => Ok tt
  | _, _, _ => Raise TypeError
  end.

(** *** Algorithm: construction and [select]

    [Algorithm.__init__] computes the budget from the envelopes and the
    keywords and hands [_run] a copy of the envelopes; [select] returns
    [(self.result, self.extras)].  [RandomSelect._run] returns a bare
    flag, so its extras stay [None]; [LoopSelect._run] returns a pair
    whose second part is the dictionary [{'loop_size': loop_size}]. *)
Definition select (algo : algorithm) (fuel : nat) (r : rng) (prisoner : Z)
    (envelopes : list Z) (kwargs : gmap string pyval)
  : result (bool * option (list (string * Z)) * rng) :=
  _ <- bind_keywords kwargs ;;
  attempts <- AttemptSchema envelopes kwargs ;;
  let unchecked := envelopes in
  match algo with
  | RandomSelect =>
      out <- RandomSelect_run r prisoner unchecked attempts ;;
      Ok (fst (fst out), None, snd out)
  | LoopSelect =>
      out <- LoopSelect_run fuel prisoner unchecked attempts ;;
      Ok (fst out, Some [("loop_size"%string, snd out)], r)
  end.

End algorithms.

(** ** config.py *)

Module config.
Import algorithms.

Inductive warning : Type :=
  | WarnLowerMissing
  | WarnLowerNotBool
  | WarnChunks
  | WarnEnvelopesNotInt
  | WarnEnvelopesSmall
  | WarnSchema
  | WarnUnknownKey (key : string).

(** A verified configuration: the required keys, standardised to
    integers, and the optional keys after [_verify_opts]. *)
Record Config : Type := MkConfig {
  nPrisoners : Z;
  nTrials : Z;
  cfg_algorithms : list algorithm;
  _opts : gmap string pyval
}.

(** [config[key]] for an optional key. *)
Definition getitem (c : Config) (key : string) : result pyval :=
  match _opts c !! key with
  | Some v => Ok v
  | None => Raise KeyError
  end.

(** The integer test of [_verify_reqs] on [nPrisoners] and [nTrials]:
    [x == int(x)], then [int(x)], on the values of [pyval] (a float
    given as a count is not among them).  A string either fails to parse
    ([ValueError], turned into [TypeError]) or parses to an integer it
    is not equal to; [int(None)] is a [TypeError] itself. *)
Definition verify_int_req (v : pyval) : result Z :=
  match as_number v with
  | Some z => Ok z
  | None => Raise TypeError
  end.

Definition _verify_reqs (nPrisoners nTrials : pyval) : result (Z * Z) :=
  p <- verify_int_req nPrisoners ;;
  t <- verify_int_req nTrials ;;
  Ok (p, t).

Definition is_bool (v : pyval) : bool :=
  match v with PBool _ => true | _ => false end.

(** The ['lower'] block. *)
Definition verify_lower (nPrisoners : Z) (opts : gmap string pyval)
  : gmap string pyval * list warning :=
  match opts !! "lower" with
  | None =>
      if nPrisoners mod 2 =? 1
      then (<["lower" := PBool true]> opts, [WarnLowerMissing])
      else (opts, [])
  | Some v =>
      if is_bool v then (opts, [])
      else (<["lower" := PBool true]> opts, [WarnLowerNotBool])
  end.

(** The ['chunks'] block.  A string reaches the warning on both paths
    (it does not parse, or parses to an integer it is not equal to). *)
Definition verify_chunks (opts : gmap string pyval)
  : gmap string pyval * list warning :=
  match opts !! "chunks" with
  | None => (<["chunks" := PNone]> opts, [])
  | Some v =>
      if py_eq v (PInt 0) then (<["chunks" := PNone]> opts, [])
      else if py_eq v PNone then (opts, [])
      else match as_number v with
           | Some z => (<["chunks" := PInt z]> opts, [])
           | None => (<["chunks" := PNone]> opts, [WarnChunks])
           end
  end.

(** [int(v)] *)
Definition py_int (v : pyval) : result Z :=
  match v with
  | PNone => Raise TypeError
  | PBool b => Ok (if b then 1 else 0)
  | PInt z => Ok z
  | PStr _ => Raise ValueError
  end.

(** The ['nEnvelopes'] block.  When the value passes the integer test
    the source standardises the ['chunks'] entry, not ['nEnvelopes'];
    only [ValueError] is caught. *)
Definition verify_nEnvelopes (nPrisoners : Z) (opts : gmap string pyval)
  : result (gmap string pyval * list warning) :=
  match opts !! "nEnvelopes" with
  | None => Ok (<["nEnvelopes" := PInt nPrisoners]> opts, [])
  | Some v =>
      match v with
      | PNone => Raise TypeError
      | PStr _ =>
          Ok (<["nEnvelopes" := PInt nPrisoners]> opts, [WarnEnvelopesNotInt])
      | _ =>
          match opts !! "chunks" with
          | None => Raise KeyError
          | Some c =>
              match py_int c with
              | Ok z => Ok (<["chunks" := PInt z]> opts, [])
              | Raise ValueError =>
                  Ok (<["nEnvelopes" := PInt nPrisoners]> opts,
                      [WarnEnvelopesNotInt])
              | Raise e => Raise e
              | Fuel => Fuel
              end
          end
      end
  end.

(** [opts['nEnvelopes'] < nPrisoners], on a value that is a number by
    now. *)
Definition verify_enough_envelopes (nPrisoners : Z)
    (opts : gmap string pyval) : result (gmap string pyval * list warning) :=
  match opts !! "nEnvelopes" with
  | None => Raise KeyError
  | Some v =>
      match as_number v with
      | None => Raise TypeError
      | Some e =>
          if e <? nPrisoners
          then Ok (<["nEnvelopes" := PInt nPrisoners]> opts,
                   [WarnEnvelopesSmall])
          else Ok (opts, [])
      end
  end.

Definition schemas : list pyval := [PStr "default"; PStr "modified"].

(** The ['schema'] block. *)
Definition verify_schema (opts : gmap string pyval)
  : gmap string pyval * list warning :=
  let opts := match opts !! "schema" with
              | None => <["schema" := PStr "default"]> opts
              | Some _ => opts
              end in
  match opts !! "schema" with
  | Some v =>
      if existsb (py_eq v) schemas then (opts, [])
      else (<["schema" := PStr "default"]> opts, [WarnSchema])
  | None => (opts, [])
  end.

Definition known_keys : list string :=
  ["lower"; "chunks"; "nEnvelopes"; "schema"; "param"]%string.

(** One warning per key outside [known_keys]; the keys stay. *)
Definition verify_other_keys (opts : gmap string pyval) : list warning :=
  WarnUnknownKey <$>
    filter (fun k => k ∉ known_keys) (fst <$> map_to_list opts).

Definition _verify_opts (nPrisoners : Z) (opts : gmap string pyval)
  : result (gmap string pyval * list warning) :=
  let '(opts, w1) := verify_lower nPrisoners opts in
  let '(opts, w2) := verify_chunks opts in
  ow3 <- verify_nEnvelopes nPrisoners opts ;;
  ow4 <- verify_enough_envelopes nPrisoners (fst ow3) ;;
  let '(opts, w5) := verify_schema (fst ow4) in
  Ok (opts, w1 ++ w2 ++ snd ow3 ++ snd ow4 ++ w5 ++ verify_other_keys opts).

(** [Config(nPrisoners, nTrials, algorithms, **kwargs)].  The
    algorithms are a tuple of strategy classes of the repository, which
    the algorithms block of [_verify_reqs] leaves as it is: the type is
    [tuple], and every element is a subclass of [Algorithm]. *)
Definition Config_init (nPrisoners nTrials : pyval)
    (algorithms : list algorithm) (kwargs : gmap string pyval)
  : result (Config * list warning) :=
  pt <- _verify_reqs nPrisoners nTrials ;;
  ow <- _verify_opts (fst pt) kwargs ;;
  Ok (MkConfig (fst pt) (snd pt) algorithms (fst ow), snd ow).

End config.

(** ** The strategies on a store of arrays

    The envelopes array of a trial is one object that every strategy
    instance of the trial receives by reference.  Here arrays live in a
    store and the strategies take and keep addresses, so that sharing is
    visible: [copy], slicing followed by [np.append] allocate; [setitem]
    is the operation that would change an array in place. *)

Module store.
Import algorithms.

Abbreviation loc := nat (only parsing).
Abbreviation heap := (list (list Z)) (only parsing).

Definition alloc (h : heap) (a : list Z) : heap * loc :=
  (h ++ [a], length h).

(** [a[i] = v] in place. *)
Definition setitem (h : heap) (l : loc) (i : nat) (v : Z) : heap :=
  match h !! l with
  | Some a => <[l := <[i := v]> a]> h
  | None => h
  end.

(** An array variable that names no array cannot be written in the
    source; the read is total for the model's sake. *)
Definition deref (h : heap) (l : loc) : list Z := default [] (h !! l).

Record Algorithm : Type := MkAlgorithm {
  _prisoner : Z;
  _envelopes : loc;
  _attempts : Z;
  _unchecked : loc
}.

(** [Algorithm.__init__]: [self._envelopes] aliases the argument,
    [self._unchecked] is a fresh copy. *)
Definition Algorithm_init (h : heap) (prisoner : Z) (envelopes : loc)
    (kwargs : gmap string pyval) : heap * result Algorithm :=
  match (_ <- bind_keywords kwargs ;; AttemptSchema (deref h envelopes) kwargs) with
  | Ok attempts =>
      let '(h', u) := alloc h (deref h envelopes) in
      (h', Ok (MkAlgorithm prisoner envelopes attempts u))
  | Raise e => (h, Raise e)
  | Fuel => (h, Fuel)
  end.

(** [RandomSelect._run] with [unchecked] a reference that the loop
    rebinds to the array [np.append] returns. *)
Fixpoint RandomSelect_loop (fuel : nat) (r : rng) (prisoner : Z)
    (unchecked : loc) (attempts : Z) (success : bool) (h : heap)
  : heap * result (bool * rng) :=
  if negb success && (attempts >? 0) then
    match fuel with
    | O => (h, Fuel)
    | S fuel =>
        let attempts := attempts - 1 in
        match random_choice_range r (length (deref h unchecked)) with
        | Ok (guess, r') =>
            match np.getitem (deref h unchecked) (Z.of_nat guess) with
            | Ok check =>
                let '(h', unchecked') :=
                  alloc h
                    (np.append
                       (np.slice_to (deref h unchecked) (Z.of_nat guess))
                       (np.slice_from (deref h unchecked) (- Z.of_nat guess)))
                in
                let success := if prisoner =? check then true else success in
                RandomSelect_loop fuel r' prisoner unchecked' attempts
                  success h'
            | Raise e => (h, Raise e)
            | Fuel => (h, Fuel)
            end
        | Raise e => (h, Raise e)
        | Fuel => (h, Fuel)
        end
    end
  else (h, Ok (success, r)).

(** [LoopSelect._run]: [unchecked] is only read. *)
Fixpoint LoopSelect_loop (fuel : nat) (prisoner : Z) (unchecked : loc)
    (attempts : Z) (check : Z) (loop_size : Z) (h : heap)
  : heap * result (bool * Z) :=
  match fuel with
  | O => (h, Fuel)
  | S fuel =>
      let attempts := attempts - 1 in
      let loop_size := loop_size + 1 in
      let guess := check in
      match np.getitem (deref h unchecked) guess with
      | Ok check =>
          if prisoner =? check then
            if attempts >? 0 then (h, Ok (true, loop_size))
            else (h, Ok (false, loop_size))
          else LoopSelect_loop fuel prisoner unchecked attempts check
                 loop_size h
      | Raise e => (h, Raise e)
      | Fuel => (h, Fuel)
      end
  end.

(** [_run] of either class, on the fields of the instance, as [select]
    calls it. *)
Definition _run (algo : algorithm) (fuel : nat) (r : rng)
    (self : Algorithm) (h : heap)
  : heap * result (bool * option (list (string * Z)) * rng) :=
  match algo with
  | RandomSelect =>
      match RandomSelect_loop (Z.to_nat (_attempts self)) r (_prisoner self)
              (_unchecked self) (_attempts self) false h with
      | (h', Ok (s, r')) => (h', Ok (s, None, r'))
      | (h', Raise e) => (h', Raise e)
      | (h', Fuel) => (h', Fuel)
      end
  | LoopSelect =>
      match LoopSelect_loop fuel (_prisoner self) (_unchecked self)
              (_attempts self) (_prisoner self) 0 h with
      | (h', Ok (s, n)) => (h', Ok (s, Some [("loop_size"%string, n)], r))
      | (h', Raise e) => (h', Raise e)
      | (h', Fuel) => (h', Fuel)
      end
  end.

(** [algorithm(prisoner, envelopes, **kwargs).select()] *)
Definition select (algo : algorithm) (fuel : nat) (r : rng) (prisoner : Z)
    (envelopes : loc) (kwargs : gmap string pyval) (h : heap)
  : heap * result (bool * option (list (string * Z)) * rng) :=
  match Algorithm_init h prisoner envelopes kwargs with
  | (h', Ok self) => _run algo fuel r self h'
  | (h', Raise e) => (h', Raise e)
  | (h', Fuel) => (h', Fuel)
  end.

End store.

(** ** runner.py *)

Module runner.
Import algorithms config.

(** *** The tables

    A pandas frame with a range index: a number of rows and named
    columns, a missing cell being [None].  [pd.concat([df, series],
    axis=1)] joins on the union of the two indices and adds the series
    as the last column. *)
Record DataFrame (A : Type) : Type := MkFrame {
  nrows : nat;
  columns : list (Z * list (option A))
}.

Arguments MkFrame {A} nrows columns.
Arguments nrows {A} d.
Arguments columns {A} d.

Definition empty_frame {A : Type} : DataFrame A := MkFrame O [].

Definition pad {A : Type} (n : nat) (col : list (option A))
  : list (option A) :=
  col ++ replicate (n - length col) None.

Definition concat {A : Type} (df : DataFrame A) (name : Z) (series : list A)
  : DataFrame A :=
  let n := Nat.max (nrows df) (length series) in
  MkFrame n
    (((fun c => (fst c, pad n (snd c))) <$> columns df)
       ++ [(name, pad n (Some <$> series))]).

(** [df.sum()]: per column, the number of [True] cells. *)
Definition col_sum (col : list (option bool)) : Z :=
  Z.of_nat (length (filter (fun c => c = Some true) col)).

Definition sum (df : DataFrame bool) : list Z :=
  (fun c => col_sum (snd c)) <$> columns df.

(** [series.value_counts()]: each distinct value with its number of
    occurrences, here in order of first appearance. *)
Fixpoint bump (x : Z) (vc : list (Z * nat)) : list (Z * nat) :=
  match vc with
  | [] => [(x, 1%nat)]
  | (y, c) :: vc' => if y =? x then (y, S c) :: vc' else (y, c) :: bump x vc'
  end.

Definition value_counts (l : list Z) : list (Z * nat) :=
  fold_left (fun vc x => bump x vc) l [].

(** [nPrisoners in counts] and [counts[nPrisoners]] *)
Fixpoint count_of (v : Z) (vc : list (Z * nat)) : option nat :=
  match vc with
  | [] => None
  | (y, c) :: vc' => if y =? v then Some c else count_of v vc'
  end.

(** [counts.idxmax()]: the label of a largest count; [ValueError] on an
    empty series. *)
Definition idxmax (vc : list (Z * nat)) : result Z :=
  match vc with
  | [] => Raise ValueError
  | p :: vc' =>
      Ok (fst (fold_left
                 (fun best q => if (snd best <? snd q)%nat then q else best)
                 vc' p))
  end.

(** *** Trial *)

(** [np.random.shuffle] on a one-dimensional array: for [i] from the
    last index down to 1, exchange the cell [i] with a cell drawn among
    [0..i]. *)
Definition swap (a : list Z) (i j : nat) : list Z :=
  match a !! i, a !! j with
  | Some x, Some y => <[i := y]> (<[j := x]> a)
  | _, _ => a
  end.

Fixpoint shuffle_from (i : nat) (r : rng) (a : list Z) : list Z * rng :=
  match i with
  | O => (a, r)
  | S i' => shuffle_from i' (advance r) (swap a i (r O mod S i)%nat)
  end.

Definition shuffle (r : rng) (a : list Z) : list Z * rng :=
  shuffle_from (length a - 1) r a.

Record Trial : Type := MkTrial {
  _algorithms : list algorithm;
  _kwargs : gmap string pyval;
  _prisoners : list Z;
  _envelopes : list Z
}.

(** The stop of [np.arange(0, stop)]: with [None] for the stop numpy
    takes the start for it. *)
Definition arange_stop (v : pyval) : option Z :=
  match v with
  | PNone => Some 0
  | _ => as_number v
  end.

(** [Trial(nPrisoners, algorithms, **kwargs)].  [self._kwargs] is the
    very dictionary ['nEnvelopes'] is popped from. *)
Definition Trial_init (nr : rng) (nPrisoners : Z)
    (algorithms : list algorithm) (kwargs : gmap string pyval)
  : result (Trial * rng) :=
  let prisoners := np.arange nPrisoners in
  match kwargs !! "nEnvelopes" with
  | None => Raise KeyError
  | Some v =>
      match arange_stop v with
      | None => Raise TypeError
      | Some n =>
          let '(envelopes, nr') := shuffle nr (np.arange n) in
          Ok (MkTrial algorithms (delete "nEnvelopes" kwargs) prisoners
                envelopes, nr')
      end
  end.

(** The dictionary [{'data': [...], 'extra': defaultdict(list)}]. *)
Record algo_result : Type := MkAlgoResult {
  data : list bool;
  extra : gmap string (list Z)
}.

Definition add_extras (out : option (list (string * Z)))
    (ex : gmap string (list Z)) : gmap string (list Z) :=
  match out with
  | None => ex
  | Some kvs =>
      fold_left
        (fun ex kv => <[fst kv := default [] (ex !! fst kv) ++ [snd kv]]> ex)
        kvs ex
  end.

Fixpoint _run_algo_loop (algorithm : algorithm) (fuel : nat) (r : rng)
    (prisoners : list Z) (envelopes : list Z) (kwargs : gmap string pyval)
    (acc : algo_result) : result (algo_result * rng) :=
  match prisoners with
  | [] => Ok (acc, r)
  | prisoner :: prisoners =>
      out <- select algorithm fuel r prisoner envelopes kwargs ;;
      _run_algo_loop algorithm fuel (snd out) prisoners envelopes kwargs
        (MkAlgoResult (data acc ++ [fst (fst out)])
           (add_extras (snd (fst out)) (extra acc)))
  end.

(** [self._run_algo(algorithm, prisoners, envelopes, **kwargs)]: the
    keywords are bound to the parameters of [_run_algo] before its body
    runs. *)
Definition _run_algo (algorithm : algorithm) (fuel : nat) (r : rng)
    (prisoners : list Z) (envelopes : list Z) (kwargs : gmap string pyval)
  : result (algo_result * rng) :=
  _ <- bind_call ["self"; "algorithm"; "prisoners"; "envelopes"]%string
         kwargs ;;
  _run_algo_loop algorithm fuel r prisoners envelopes kwargs
    (MkAlgoResult [] ∅).

Fixpoint _run_algos_loop (algorithms : list algorithm) (fuel : nat) (r : rng)
    (prisoners : list Z) (envelopes : list Z) (kwargs : gmap string pyval)
    (result_ : gmap string algo_result)
  : result (gmap string algo_result * rng) :=
  match algorithms with
  | [] => Ok (result_, r)
  | algorithm :: algorithms =>
      out <- _run_algo algorithm fuel r prisoners envelopes kwargs ;;
      _run_algos_loop algorithms fuel (snd out) prisoners envelopes kwargs
        (<[__name__ algorithm := fst out]> result_)
  end.

(** [self._run_algos(algorithms, prisoners, envelopes, **kwargs)] *)
Definition _run_algos (algorithms : list algorithm) (fuel : nat) (r : rng)
    (prisoners : list Z) (envelopes : list Z) (kwargs : gmap string pyval)
  : result (gmap string algo_result * rng) :=
  _ <- bind_call ["self"; "algorithms"; "prisoners"; "envelopes"]%string
         kwargs ;;
  _run_algos_loop algorithms fuel r prisoners envelopes kwargs ∅.

Definition run_all (t : Trial) (fuel : nat) (r : rng)
  : result (gmap string algo_result * rng) :=
  _run_algos (_algorithms t) fuel r (_prisoners t) (_envelopes t)
    (_kwargs t).

(** *** Simulation *)

(** [{'data': DataFrame, 'extra': {key: DataFrame}}] per strategy. *)
Record tables : Type := MkTables {
  tbl_data : DataFrame bool;
  tbl_extra : gmap string (DataFrame Z)
}.

Record Simulation : Type := MkSimulation {
  _config : Config;
  _results : gmap string tables
}.

(** [Simulation(config)] on a verified configuration. *)
Definition Simulation_init (c : Config) : Simulation :=
  MkSimulation c
    (fold_left (fun res a => <[__name__ a := MkTables empty_frame ∅]> res)
       (cfg_algorithms c) ∅).

Record SummaryStats : Type := MkStats {
  success : gmap string Z;
  peak : gmap string Z
}.

Fixpoint stats_loop (algos : list algorithm) (sim : Simulation)
    (acc : SummaryStats) : result SummaryStats :=
  match algos with
  | [] => Ok acc
  | a :: algos =>
      match _results sim !! __name__ a with
      | None => Raise KeyError
      | Some t =>
          let counts := value_counts (sum (tbl_data t)) in
          let s := match count_of (nPrisoners (_config sim)) counts with
                   | Some c => Z.of_nat c
                   | None => 0
                   end in
          p <- idxmax counts ;;
          stats_loop algos sim
            (MkStats (<[__name__ a := s]> (success acc))
                     (<[__name__ a := p]> (peak acc)))
      end
  end.

(** [Simulation.stats()] *)
Definition stats (sim : Simulation) : result SummaryStats :=
  stats_loop (cfg_algorithms (_config sim)) sim (MkStats ∅ ∅).

(** What [simulate] prints. *)
Inductive event : Type :=
  | Progress (i : Z)
  | Concluded (i : Z).

(** [(chunks != None) & ((i % int(nTrials/chunks)) == 0)]: [&] evaluates
    both operands; the quotient is a float, which [int] truncates. *)
Definition progress_due (c : Config) (i : Z) : result bool :=
  chunks <- getitem c "chunks" ;;
  let configured := negb (py_eq chunks PNone) in
  match as_number chunks with
  | None => Raise TypeError
  | Some d =>
      quotient <- true_div (nTrials c) d ;;
      let step := float.trunc quotient in
      if step =? 0 then Raise ZeroDivisionError
      else Ok (configured && (i mod step =? 0))
  end.

(** The body of [for algorithm in algorithms] after a trial: one more
    column in the strategy's table, and in each of its metric tables. *)
Definition store_trial (i : Z) (trial_result : gmap string algo_result)
    (res : gmap string tables) (a : algorithm)
  : result (gmap string tables) :=
  match res !! __name__ a, trial_result !! __name__ a with
  | Some t, Some ar =>
      let created := tbl_extra t ∪ ((fun _ => empty_frame) <$> extra ar) in
      Ok (<[__name__ a :=
             MkTables (concat (tbl_data t) i (data ar))
               (map_imap
                  (fun key df =>
                     Some (concat df i (default [] (extra ar !! key))))
                  created)]> res)
  | _, _ => Raise KeyError
  end.

Fixpoint store_trials (i : Z) (trial_result : gmap string algo_result)
    (algos : list algorithm) (res : gmap string tables)
  : result (gmap string tables) :=
  match algos with
  | [] => Ok res
  | a :: algos =>
      res' <- store_trial i trial_result res a ;;
      store_trials i trial_result algos res'
  end.

(** The state a run threads: the simulation object, the two random
    generators (Python's, numpy's) and the printed lines. *)
Record run_state : Type := MkRun {
  sim : Simulation;
  py_random : rng;
  np_random : rng;
  printed : list event
}.

(** One iteration of [for i in range(nTrials)]. *)
Definition simulate_step (fuel : nat) (st : run_state) (i : Z)
  : result run_state :=
  let c := _config (sim st) in
  due <- progress_due c i ;;
  let printed := if due : bool then printed st ++ [Progress i]
                 else printed st in
  _ <- getitem c "chunks" ;;
  let trial_opts := delete "chunks" (_opts c) in
  (* Trial(nPrisoners, algorithms, **trial_opts) binds the options *)
  _ <- bind_call ["self"; "nPrisoners"; "algorithms"]%string trial_opts ;;
  tn <- Trial_init (np_random st) (nPrisoners c) (cfg_algorithms c)
          trial_opts ;;
  rr <- run_all (fst tn) fuel (py_random st) ;;
  res <- store_trials i (fst rr) (cfg_algorithms c) (_results (sim st)) ;;
  Ok (MkRun (MkSimulation c res) (snd rr) (snd tn) printed).

Fixpoint simulate_loop (fuel : nat) (trials : list Z) (st : run_state)
  : result run_state :=
  match trials with
  | [] => Ok st
  | i :: trials =>
      st' <- simulate_step fuel st i ;;
      simulate_loop fuel trials st'
  end.

(** [Simulation.simulate()].  The line after the loop names [i], which
    is unbound when the loop ran no iteration. *)
Definition simulate (fuel : nat) (st : run_state) : result run_state :=
  let c := _config (sim st) in
  st' <- simulate_loop fuel (seqZ 0 (nTrials c)) st ;;
  chunks <- getitem c "chunks" ;;
  if negb (py_eq chunks PNone) then
    if 0 <? nTrials c
    then Ok (MkRun (sim st') (py_random st') (np_random st')
               (printed st' ++ [Concluded (nTrials c - 1)]))
    else Raise NameError
  else Ok st'.

End runner.

(** ** The notions the properties are stated with *)

Module notions.

(** [k] is the floor, respectively the ceiling, of the rational [x]. *)
Definition is_floor (x : Q) (k : Z) : Prop :=
  (inject_Z k <= x)%Q /\ (x < inject_Z (k + 1))%Q.

Definition is_ceil (x : Q) (k : Z) : Prop :=
  (inject_Z (k - 1) < x)%Q /\ (x <= inject_Z k)%Q.

Definition rounded (roundDown : bool) (x : Q) (k : Z) : Prop :=
  if roundDown then is_floor x k else is_ceil x k.

(** The content of slot [i] of an assignment. *)
Definition reveal (a : list Z) (i : Z) : Z := default 0 (a !! Z.to_nat i).

(** The content revealed by the [k]-th opening of the walk that starts
    at slot [p] and goes on at the slot named by the last content. *)
Definition follow (a : list Z) (p : Z) (k : nat) : Z :=
  Nat.iter k (reveal a) p.

(** [d] openings are needed to reach [p]: the [d]-th opening of the walk
    from slot [p] is the first to reveal [p]. *)
Definition distance (a : list Z) (p : Z) (d : nat) : Prop :=
  (0 < d)%nat /\ follow a p d = p /\
  forall k, (0 < k < d)%nat -> follow a p k <> p.

(** An assignment of [n] slots: the identities [0..n-1] in some order. *)
Definition assignment (a : list Z) : Prop := a ≡ₚ np.arange (np.len a).

(** The names of the parameters that the options of a trial meet on
    their way to the strategies: those of [Trial], [_run_algos],
    [_run_algo] and of the strategy classes. *)
Definition parameter_names : list string :=
  ["self"; "nPrisoners"; "algorithms"; "prisoners"; "envelopes";
   "algorithm"; "prisoner"]%string.

(** The keywords let a strategy instance be built on [n] slots: none of
    them names a parameter of a call they are passed to, and the budget
    is defined. *)
Definition constructible (kwargs : gmap string pyval) (n : Z) : Prop :=
  bind_call parameter_names kwargs = Ok tt /\
  exists attempts, algorithms.AttemptSchema (np.arange n) kwargs = Ok attempts.

(** Every strategy of [algos] has a table in [res], with [cols] columns
    and [rows] rows. *)
Definition shaped (algos : list algorithms.algorithm)
    (res : gmap string runner.tables) (cols rows : nat) : Prop :=
  forall a, a ∈ algos ->
    exists t, res !! algorithms.__name__ a = Some t /\
              length (runner.columns (runner.tbl_data t)) = cols /\
              runner.nrows (runner.tbl_data t) = rows.

End notions.

(** ** Entry points: [config.parse_config] and [Simulation.__init__] *)

Module frontend.
Import algorithms config runner.

(** A configuration dictionary: its entries with plain values, and its
    ['algorithms'] entry. *)
Record config_dict : Type := MkDict {
  entries : gmap string pyval;
  algorithms_entry : option (list algorithm)
}.

(** [parse_config] on a keyword dictionary: the three mandatory keys are
    popped, what remains are the optional keys. *)
Definition parse_config (d : config_dict) : result (Config * list warning) :=
  match entries d !! "nPrisoners" with
  | None => Raise KeyError
  | Some nPrisoners =>
      match entries d !! "nTrials" with
      | None => Raise KeyError
      | Some nTrials =>
          match algorithms_entry d with
          | None => Raise KeyError
          | Some algorithms =>
              Config_init nPrisoners nTrials algorithms
                (delete "nTrials" (delete "nPrisoners" (entries d)))
          end
      end
  end.

(** The configuration [Simulation.__init__] takes when it is given
    none. *)
Definition default_config : config_dict :=
  MkDict
    {[ "nPrisoners" := PInt 100; "nTrials" := PInt 100;
       "schema" := PStr "default"; "lower" := PBool true;
       "chunks" := PInt 10; "nEnvelopes" := PInt 100 ]}
    (Some [RandomSelect; LoopSelect]).

Inductive config_arg : Type :=
  | NoConfig
  | Dict (d : config_dict)
  | Verified (c : Config).

(** [Simulation(config)]: the object, whether the warning about the
    default configuration was issued, and the warnings of the verifier. *)
Definition Simulation_new (a : config_arg)
  : result (Simulation * bool * list warning) :=
  match a with
  | NoConfig =>
      cw <- parse_config default_config ;;
      Ok (Simulation_init (fst cw), true, snd cw)
  | Dict d =>
      cw <- parse_config d ;;
      Ok (Simulation_init (fst cw), false, snd cw)
  | Verified c => Ok (Simulation_init c, false, [])
  end.

End frontend.

(** ** Proof steps *)

(** A string is not in a list of other strings. *)
Ltac not_in_list :=
  let H := fresh in
  intros H;
  repeat (apply elem_of_cons in H as [H | H]; [discriminate H |]);
  by apply elem_of_nil in H.

(** A string is in a list that names it. *)
Ltac in_list :=
  repeat first [apply list_elem_of_here | apply list_elem_of_further].

(** What is in a list is in a list that names all of it. *)
Ltac in_list_of H :=
  repeat (apply elem_of_cons in H as [-> | H]; [in_list |]);
  by apply elem_of_nil in H.

(** * Properties *)

Import algorithms notions.

(** ** Floats: quotients of integers below 2^53 *)

Section float_facts.
Import float.

Lemma pow2_pos (e : Z) : 0 < 2 ^ Z.max 0 e.
Proof. apply Z.pow_pos_nonneg; lia. Qed.

Lemma rne_ge (num den j : Z) : 0 < den -> j * den <= num -> j <= rne num den.
Proof.
  intros Hden Hj. unfold rne.
  pose proof (Z.div_mod num den ltac:(lia)) as Hdm.
  pose proof (Z.mod_pos_bound num den Hden) as Hr.
  assert (j <= num / den) by nia.
  destruct (2 * (num mod den) ?= den); [destruct (Z.even _) | |]; lia.
Qed.

Lemma rne_le (num den j : Z) : 0 < den -> num <= j * den -> rne num den <= j.
Proof.
  intros Hden Hj. unfold rne.
  pose proof (Z.div_mod num den ltac:(lia)) as Hdm.
  pose proof (Z.mod_pos_bound num den Hden) as Hr.
  destruct (Z.compare_spec (2 * (num mod den)) den);
    [destruct (Z.even _) | |]; nia.
Qed.

Lemma rne_near (num den : Z) :
  0 < den ->
  2 * num - den <= 2 * den * rne num den <= 2 * num + den.
Proof.
  intros Hden. unfold rne.
  pose proof (Z.div_mod num den ltac:(lia)) as Hdm.
  pose proof (Z.mod_pos_bound num den Hden) as Hr.
  destruct (Z.compare_spec (2 * (num mod den)) den);
    [destruct (Z.even _) | |]; nia.
Qed.

(** The exponent is not above the quotient: [2^e <= a/b]. *)
Lemma exponent_le (a b : Z) :
  0 < a -> 0 < b ->
  scaled_den b (exponent a b) <= scaled_num a (exponent a b).
Proof.
  intros Ha Hb. unfold exponent.
  set (e := Z.log2 a - Z.log2 b).
  destruct (Z.ltb_spec (scaled_num a e) (scaled_den b e)) as [Hlt | Hge];
    [| done].
  pose proof (Z.log2_spec a Ha) as [Hla _].
  pose proof (Z.log2_spec b Hb) as [_ Hlb].
  pose proof (Z.log2_nonneg a). pose proof (Z.log2_nonneg b).
  unfold scaled_num, scaled_den.
  replace (Z.succ (Z.log2 b)) with (Z.log2 b + 1) in Hlb by lia.
  destruct (Z.le_gt_cases 1 e) as [He | He].
  - rewrite (Z.max_l 0 (- (e - 1))), (Z.max_r 0 (e - 1)) by lia.
    rewrite Z.pow_0_r.
    assert (Z.log2 a = Z.log2 b + 1 + (e - 1)) as Hs by lia.
    rewrite Hs, Z.pow_add_r in Hla by lia.
    pose proof (Z.pow_pos_nonneg 2 (e - 1) ltac:(lia) ltac:(lia)).
    nia.
  - rewrite (Z.max_r 0 (- (e - 1))), (Z.max_l 0 (e - 1)) by lia.
    rewrite Z.pow_0_r.
    assert (Z.log2 b + 1 = Z.log2 a + (- (e - 1))) as Hs by lia.
    rewrite Hs, Z.pow_add_r in Hlb by lia.
    pose proof (Z.pow_pos_nonneg 2 (- (e - 1)) ltac:(lia) ltac:(lia)).
    nia.
Qed.

Lemma div_between (m P k : Z) :
  0 < P -> k * P <= m < (k + 1) * P -> m / P = k.
Proof.
  intros HP Hm. symmetry. apply (Z.div_unique m P k (m - k * P)); lia.
Qed.

(** Rounding [a/b] to a multiple of [1/P], where [P] is so large that
    two multiples of [1/b] that differ are more than [1/(2P)] apart,
    changes neither the floor nor the ceiling. *)
Lemma rne_fine (a b P : Z) :
  0 <= a -> 0 < b -> 0 < P -> b < 2 * P ->
  rne (a * P) b / P = a / b /\ (- rne (a * P) b) / P = (- a) / b.
Proof.
  intros Ha Hb HP HbP.
  pose proof (Z.div_mod a b ltac:(lia)) as Hdm.
  pose proof (Z.mod_pos_bound a b Hb) as Hr.
  set (k := a / b) in *. set (r := a mod b) in *.
  pose proof (rne_ge (a * P) b (k * P) Hb ltac:(nia)) as Hlo.
  pose proof (rne_le (a * P) b ((k + 1) * P) Hb ltac:(nia)) as Hhi.
  pose proof (rne_near (a * P) b Hb) as [Hn1 Hn2].
  set (m := rne (a * P) b) in *.
  split.
  - apply div_between; [done |]. split; [done |]. nia.
  - destruct (Z.eq_dec r 0) as [Hr0 | Hr0].
    + pose proof (rne_le (a * P) b (k * P) Hb ltac:(nia)).
      fold m in H.
      assert (m = k * P) as -> by lia.
      transitivity (- k).
      * apply div_between; lia.
      * apply (Z.div_unique (- a) b (- k) 0); lia.
    + transitivity (- (k + 1)).
      * apply div_between; [done |]. nia.
      * apply (Z.div_unique (- a) b (- (k + 1)) (b - r)); lia.
Qed.

Lemma exponent_bounds (a b : Z) :
  0 < a -> 0 < b ->
  Z.log2 a - Z.log2 b - 1 <= exponent a b <= Z.log2 a - Z.log2 b.
Proof. intros _ _. unfold exponent. case_match; lia. Qed.

Lemma log2_below (a : Z) : 0 < a < 2 ^ 53 -> 0 <= Z.log2 a <= 52.
Proof.
  intros [Ha Hlt]. split; [apply Z.log2_nonneg |].
  apply Z.log2_lt_pow2 in Hlt; lia.
Qed.

(** For a quotient of two positive integers below 2^53 the rounded
    quotient is finite and has the floor and the ceiling of the exact
    one. *)
Lemma round_pos_small (a b : Z) :
  0 < a < 2 ^ 53 -> 0 < b < 2 ^ 53 ->
  overflows (round_pos a b) = false /\
  Qfloor (to_Q (round_pos a b)) = a / b /\
  Qceiling (to_Q (round_pos a b)) = - ((- a) / b).
Proof.
  intros Ha Hb. unfold round_pos.
  pose proof (exponent_bounds a b ltac:(lia) ltac:(lia)) as He.
  pose proof (exponent_le a b ltac:(lia) ltac:(lia)) as Hle.
  pose proof (log2_below a Ha). pose proof (log2_below b Hb).
  set (e := exponent a b) in *.
  rewrite (Z.max_l e (-1022)) by lia.
  set (P := 2 ^ (52 - e)).
  assert (0 < P) as HP by (apply Z.pow_pos_nonneg; lia).
  assert (scaled_num a (e - 52) = a * P) as ->.
  { unfold scaled_num. rewrite Z.max_r by lia. unfold P. do 2 f_equal. lia. }
  assert (scaled_den b (e - 52) = b) as ->.
  { unfold scaled_den. rewrite Z.max_l by lia. lia. }
  assert (b < 2 * P) as HbP.
  { assert (2 * P = 2 ^ (53 - e)) as ->.
    { unfold P. rewrite <- Z.pow_succ_r by lia. f_equal. lia. }
    unfold scaled_num, scaled_den in Hle.
    destruct (Z.le_gt_cases 0 e) as [He0 | He0].
    - rewrite (Z.max_r 0 e), (Z.max_l 0 (- e)), Z.pow_0_r in Hle by lia.
      assert (2 ^ 53 = 2 ^ (53 - e) * 2 ^ e) as Hs
        by (rewrite <- Z.pow_add_r by lia; f_equal; lia).
      pose proof (Z.pow_pos_nonneg 2 e ltac:(lia) He0). nia.
    - rewrite (Z.max_l 0 e), (Z.max_r 0 (- e)), Z.pow_0_r in Hle by lia.
      assert (2 ^ (53 - e) = 2 ^ 53 * 2 ^ (- e)) as ->
        by (rewrite <- Z.pow_add_r by lia; f_equal; lia).
      pose proof (Z.pow_pos_nonneg 2 (- e) ltac:(lia) ltac:(lia)). nia. }
  destruct (rne_fine a b P ltac:(lia) ltac:(lia) HP HbP) as [Hfl Hce].
  pose proof (rne_le (a * P) b (a * P) ltac:(lia) ltac:(nia)) as Hm.
  set (m := rne (a * P) b) in *.
  unfold overflows, to_Q, Qceiling, Qfloor. cbn [fst snd Qopp Qnum Qden].
  rewrite (Z.max_l 0 (e - 52)), (Z.max_r 0 (- (e - 52))) by lia.
  replace (- (e - 52)) with (52 - e) by lia. fold P.
  rewrite Z.pow_0_r, Z.mul_1_r, Z2Pos.id by done.
  split_and!; [| done | by rewrite Hce].
  apply Z.leb_gt.
  assert (2 ^ 53 <= 2 ^ 1024) by (apply Z.pow_le_mono_r; lia).
  nia.
Qed.

(** A quotient below 1 of a numerator below 2^53 rounds to a number
    below 1, whatever the denominator. *)
Lemma round_pos_below_one (a b : Z) :
  0 < a < 2 ^ 53 -> a < b ->
  overflows (round_pos a b) = false /\
  Qfloor (to_Q (round_pos a b)) = 0.
Proof.
  intros Ha Hb. unfold round_pos.
  pose proof (exponent_le a b ltac:(lia) ltac:(lia)) as Hle.
  set (e := exponent a b) in *.
  assert (e <= -1) as He.
  { destruct (Z.le_gt_cases 0 e) as [He0 | He0]; [| lia].
    unfold scaled_num, scaled_den in Hle.
    rewrite (Z.max_r 0 e), (Z.max_l 0 (- e)), Z.pow_0_r in Hle by lia.
    pose proof (Z.pow_pos_nonneg 2 e ltac:(lia) He0). nia. }
  set (s := Z.max e (-1022) - 52).
  assert (s <= -53) as Hs by lia.
  set (P := 2 ^ (- s)).
  assert (2 ^ 53 <= P) as HP by (apply Z.pow_le_mono_r; lia).
  assert (0 < 2 ^ 53) by (apply Z.pow_pos_nonneg; lia).
  assert (scaled_num a s = a * P) as ->.
  { unfold scaled_num. by rewrite Z.max_r by lia. }
  assert (scaled_den b s = b) as ->.
  { unfold scaled_den. rewrite Z.max_l by lia. lia. }
  pose proof (rne_ge (a * P) b 0 ltac:(lia) ltac:(nia)) as Hlo.
  pose proof (rne_le (a * P) b (P - 1) ltac:(lia) ltac:(nia)) as Hhi.
  set (m := rne (a * P) b) in *.
  unfold overflows, to_Q, Qfloor. cbn [fst snd Qnum Qden].
  rewrite (Z.max_l 0 s), (Z.max_r 0 (- s)) by lia. fold P.
  rewrite Z.pow_0_r, Z.mul_1_r, Z2Pos.id by lia.
  split; [| apply Z.div_small; lia].
  apply Z.leb_gt.
  assert (0 < 2 ^ 1024) by (apply Z.pow_pos_nonneg; lia).
  nia.
Qed.

Lemma round_pos_nonneg (a b : Z) :
  0 < a -> 0 < b -> 0 <= Qnum (to_Q (round_pos a b)).
Proof.
  intros Ha Hb. unfold to_Q, round_pos. cbn [fst snd Qnum].
  set (s := Z.max (exponent a b) (-1022) - 52).
  pose proof (pow2_pos s). pose proof (pow2_pos (- s)).
  assert (0 <= rne (scaled_num a s) (scaled_den b s)); [| nia].
  apply rne_ge; unfold scaled_num, scaled_den; nia.
Qed.

Lemma trunc_nonneg (y : Q) : 0 <= Qnum y -> trunc y = Qfloor y.
Proof.
  intros Hy. unfold trunc, Qle_bool. cbn [Qnum Qden].
  destruct (Z.leb_spec (0 * Z.pos (Qden y)) (Qnum y * 1)); [done | lia].
Qed.

Lemma trunc_opp (y : Q) : 0 <= Qnum y -> trunc (- y) = - Qfloor y.
Proof.
  intros Hy. destruct y as [n d]. unfold trunc, Qle_bool, Qceiling, Qfloor.
  cbn [Qnum Qden Qopp] in *.
  destruct (Z.leb_spec (0 * Z.pos d) (- n * 1)).
  - assert (n = 0) as -> by lia. done.
  - do 2 f_equal. lia.
Qed.

(** [a / b] for a count [a] below 2^53 and a divisor of absolute value
    below 2^53: the division returns, and the result has the floor and
    the ceiling of the exact quotient. *)
Lemma div_floor_ceil (n d : Z) :
  0 <= n < 2 ^ 53 -> d <> 0 -> Z.abs d < 2 ^ 53 ->
  exists x, div n d = Ok x /\
            Qfloor x = n `div` d /\ Qceiling x = - ((- n) `div` d).
Proof.
  intros Hn Hd Hdb. unfold div.
  destruct (Z.eqb_spec d 0) as [| _]; [done |].
  destruct (Z.eqb_spec n 0) as [-> | Hn0].
  { exists 0%Q. split; [done |]. by rewrite Z.div_0_l. }
  destruct (round_pos_small (Z.abs n) (Z.abs d) ltac:(lia) ltac:(lia))
    as (-> & Hfl & Hce).
  eexists. split; [reflexivity |].
  set (y := to_Q (round_pos (Z.abs n) (Z.abs d))) in *.
  rewrite (Z.abs_eq n) in Hfl, Hce by lia.
  destruct (Z.ltb_spec n 0); [lia |].
  destruct (Z.ltb_spec d 0) as [Hneg | Hpos]; cbn [xorb].
  - rewrite (Z.abs_neq d) in Hfl, Hce by lia.
    assert (Qfloor (- y) = - Qceiling y) as ->
      by (unfold Qceiling; lia).
    assert (Qceiling (- y) = - Qfloor y) as ->.
    { unfold Qceiling, Qfloor. destruct y as [p q]. cbn [Qopp Qnum Qden].
      do 2 f_equal. lia. }
    rewrite Hfl, Hce.
    rewrite <- (Z.div_opp_opp n d), <- (Z.div_opp_opp (- n) d) by done.
    by rewrite !Z.opp_involutive.
  - by rewrite (Z.abs_eq d) in Hfl, Hce by lia.
Qed.

(** [int(a / b)] for a count [a] below 2^53: the division returns
    whatever the divisor other than 0, and truncating it gives the
    integer quotient. *)
Lemma div_trunc (n d : Z) :
  0 <= n < 2 ^ 53 -> d <> 0 ->
  exists x, div n d = Ok x /\ trunc x = Z.quot n d.
Proof.
  intros Hn Hd. unfold div.
  destruct (Z.eqb_spec d 0) as [| _]; [done |].
  destruct (Z.eqb_spec n 0) as [-> | Hn0].
  { exists 0%Q. split; [done |]. by rewrite Z.quot_0_l. }
  assert (overflows (round_pos (Z.abs n) (Z.abs d)) = false /\
          Qfloor (to_Q (round_pos (Z.abs n) (Z.abs d)))
          = Z.abs n `div` Z.abs d) as [-> Hfl].
  { destruct (Z.lt_ge_cases (Z.abs d) (2 ^ 53)) as [Hsmall | Hbig].
    - destruct (round_pos_small (Z.abs n) (Z.abs d)) as (? & ? & _);
        [lia | lia | done].
    - destruct (round_pos_below_one (Z.abs n) (Z.abs d)) as [? ->];
        [lia | lia |].
      split; [done |]. symmetry. apply Z.div_small. lia. }
  pose proof (round_pos_nonneg (Z.abs n) (Z.abs d) ltac:(lia) ltac:(lia)).
  eexists. split; [reflexivity |].
  set (y := to_Q (round_pos (Z.abs n) (Z.abs d))) in *.
  rewrite (Z.abs_eq n) in Hfl by lia.
  destruct (Z.ltb_spec n 0); [lia |].
  destruct (Z.ltb_spec d 0) as [Hneg | Hpos]; cbn [xorb].
  - rewrite trunc_opp, Hfl by done.
    rewrite Z.abs_neq by lia.
    rewrite <- (Z.opp_involutive d) at 2. rewrite Z.quot_opp_r by lia.
    by rewrite Z.quot_div_nonneg by lia.
  - rewrite trunc_nonneg, Hfl by done.
    rewrite Z.abs_eq by lia. by rewrite Z.quot_div_nonneg by lia.
Qed.

End float_facts.

(** ** Attempt budgets *)

Lemma round_floor (x : Q) : is_floor x (_round x (PBool true)).
Proof. split; [apply Qfloor_le | apply Qlt_floor]. Qed.

Lemma round_ceil (x : Q) : is_ceil x (_round x (PBool false)).
Proof. split; [apply Qceiling_lt | apply Qle_ceiling]. Qed.

Lemma round_rounded (x : Q) (b : bool) : rounded b x (_round x (PBool b)).
Proof. destruct b; [apply round_floor | apply round_ceil]. Qed.

Lemma Qfloor_opp_div (n d : Z) :
  d <> 0 ->
  Qfloor (- (inject_Z n / inject_Z d)) = (- n) `div` d.
Proof.
  intros Hd. rewrite Zdiv_Qdiv. apply Qfloor_comp.
  rewrite inject_Z_opp. field.
  intros H. apply Hd. by apply (inject_Z_injective d 0).
Qed.

(** Rounding the exact quotient, as integer divisions. *)
Lemma round_exact (n d : Z) (b : bool) :
  d <> 0 ->
  _round (inject_Z n / inject_Z d) (PBool b)
  = if b then n `div` d else - ((- n) `div` d).
Proof.
  intros Hd. destruct b; unfold _round; cbn [py_eq as_number Z.eqb Pos.eqb].
  - symmetry. apply Zdiv_Qdiv.
  - unfold Qceiling. by rewrite Qfloor_opp_div.
Qed.

(** Below 2^53 the float quotient rounds to what the exact quotient
    rounds to. *)
Lemma true_div_bounded (n d : Z) (b : bool) :
  0 <= n < 2 ^ 53 -> d <> 0 -> Z.abs d < 2 ^ 53 ->
  exists x, true_div n d = Ok x /\
            _round x (PBool b) = _round (inject_Z n / inject_Z d) (PBool b).
Proof.
  intros Hn Hd Hdb.
  destruct (div_floor_ceil n d Hn Hd Hdb) as (x & Hx & Hfl & Hce).
  exists x. split; [done |]. rewrite round_exact by done.
  destruct b; unfold _round; cbn [py_eq as_number Z.eqb Pos.eqb]; done.
Qed.

Lemma modified_bounded (n d : Z) (b : bool) :
  0 <= n < 2 ^ 53 -> d <> 0 -> Z.abs d < 2 ^ 53 ->
  _modified n (PInt d) (PBool b)
  = Ok (_round (inject_Z n / inject_Z d) (PBool b)).
Proof.
  intros Hn Hd Hdb. unfold _modified. cbn [as_number].
  destruct (true_div_bounded n d b Hn Hd Hdb) as (x & -> & <-). done.
Qed.

Lemma default_bounded (n : Z) (param : pyval) (b : bool) :
  0 <= n < 2 ^ 53 ->
  _default n param (PBool b)
  = Ok (_round (inject_Z n / inject_Z 2) (PBool b)).
Proof.
  intros Hn. unfold _default.
  destruct (true_div_bounded n 2 b Hn) as (x & -> & <-); done.
Qed.

Lemma default_floor_div (n : Z) (param : pyval) :
  0 <= n < 2 ^ 53 -> _default n param (PBool true) = Ok (n `div` 2).
Proof.
  intros Hn. rewrite default_bounded by done. by rewrite round_exact.
Qed.

(** The claim as worded fails where the quotient is not a float.  The
    policies divide in floats: 7 over 10^400 is the float 0, whose
    ceiling is 0, not 1; and half of 2^53 + 1 is the float 2^52, so that
    rounding up gives the half rounded down. *)
Lemma budgets_are_computed_in_floats :
  (_modified 7 (PInt (10 ^ 400)) (PBool false) = Ok 0 /\
   ~ rounded false (inject_Z 7 / inject_Z (10 ^ 400)) 0) /\
  (_default (2 ^ 53 + 1) PNone (PBool false) = Ok (2 ^ 52) /\
   ~ rounded false (inject_Z (2 ^ 53 + 1) / inject_Z 2) (2 ^ 52)).
Proof.
  split; (split; [by vm_compute |]); intros [_ Hle]; revert Hle;
    by vm_compute.
Qed.

(** C8 (amended).  For every slot count below 2^53 and rounding
    direction the default policy gives the floor (rounding down) or the
    ceiling (rounding up) of half the slot count; the modified policy
    with a divisor [d] other than 0 and below 2^53 in absolute value
    gives the floor or the ceiling of the slot count over [d]; and the
    modified policy with divisor 2, rounding down, gives what the default
    policy gives, which is the integer quotient by 2. *)
Theorem budget_is_rounded_quotient (n d : Z) (param : pyval) (roundDown : bool) :
  0 <= n < 2 ^ 53 -> d <> 0 -> Z.abs d < 2 ^ 53 ->
  (exists k, _default n param (PBool roundDown) = Ok k /\
             rounded roundDown (inject_Z n / inject_Z 2) k) /\
  (exists k, _modified n (PInt d) (PBool roundDown) = Ok k /\
             rounded roundDown (inject_Z n / inject_Z d) k) /\
  _modified n (PInt 2) (PBool true) = _default n param (PBool true) /\
  _default n param (PBool true) = Ok (n `div` 2).
Proof.
  intros Hn Hd Hdb. split; [| split; [| split]].
  - eexists. split; [by apply default_bounded | apply round_rounded].
  - eexists. split; [by apply modified_bounded | apply round_rounded].
  - reflexivity.
  - by apply default_floor_div.
Qed.

Lemma budget_is_rounded_quotient_witness :
  0 <= 7 < 2 ^ 53 /\ 3 <> 0 /\ Z.abs 3 < 2 ^ 53 /\
  (exists k, _default 7 PNone (PBool false) = Ok k /\
             rounded false (inject_Z 7 / inject_Z 2) k) /\
  (exists k, _modified 7 (PInt 3) (PBool false) = Ok k /\
             rounded false (inject_Z 7 / inject_Z 3) k) /\
  _modified 7 (PInt 2) (PBool true) = _default 7 PNone (PBool true) /\
  _default 7 PNone (PBool true) = Ok (7 `div` 2).
Proof.
  split; [lia |]. split; [lia |]. split; [lia |].
  apply (budget_is_rounded_quotient 7 3 PNone false); lia.
Defined.

Example default_budget_7_up : _default 7 PNone (PBool false) = Ok 4.
Proof. reflexivity. Qed.

Example modified_budget_7_3_down :
  _modified 7 (PInt 3) (PBool true) = Ok 2.
Proof. reflexivity. Qed.

(** ** LoopSelect on an assignment *)

Section least.
Variable P : nat -> Prop.
Hypothesis P_dec : forall k, {P k} + {~ P k}.

Lemma least_below (b : nat) :
  (forall k, (k < b)%nat -> ~ P k) \/
  (exists d, (d < b)%nat /\ P d /\ forall k, (k < d)%nat -> ~ P k).
Proof.
  induction b as [| b [IH | IH]].
  - left. intros k Hk. lia.
  - destruct (P_dec b) as [Hb | Hb].
    + right. exists b. repeat split; [lia | done | done].
    + left. intros k Hk. destruct (decide (k = b)) as [-> |]; [done |].
      apply IH. lia.
  - right. destruct IH as (d & Hd & HP & Hmin).
    exists d. repeat split; [lia | done | done].
Qed.

Lemma least_witness (m : nat) :
  P m -> exists d, P d /\ (d <= m)%nat /\ forall k, (k < d)%nat -> ~ P k.
Proof.
  intros Hm. destruct (least_below m) as [Hnone | (d & Hd & HP & Hmin)].
  - exists m. split_and!; [done | lia | done].
  - exists d. split_and!; [done | lia | done].
Qed.
End least.

Lemma repeated_or_NoDup (l : list Z) :
  NoDup l \/
  exists i j x, (i < j)%nat /\ l !! i = Some x /\ l !! j = Some x.
Proof.
  induction l as [| x l [IH | (i & j & y & Hij & Hi & Hj)]].
  - left. constructor.
  - destruct (decide (x ∈ l)) as [Hin | Hnin].
    + right. apply list_elem_of_lookup in Hin as [j Hj].
      exists O, (S j), x. split_and!; [lia | done | done].
    + left. by constructor.
  - right. exists (S i), (S j), y. split_and!; [lia | done | done].
Qed.

Section LoopSelect_on_assignment.
Variable a : list Z.
Hypothesis Ha : assignment a.

Let n := np.len a.

Lemma assignment_NoDup : NoDup a.
Proof. unfold assignment in Ha. rewrite Ha. apply NoDup_seqZ. Qed.

Lemma reveal_in_range (i : Z) :
  0 <= i < n ->
  a !! Z.to_nat i = Some (reveal a i) /\ 0 <= reveal a i < n.
Proof.
  intros Hi. unfold reveal.
  destruct (lookup_lt_is_Some_2 a (Z.to_nat i)) as [v Hv].
  { unfold n, np.len in Hi. lia. }
  rewrite Hv. split; [done |]. cbn.
  apply list_elem_of_lookup_2 in Hv.
  unfold assignment in Ha. rewrite Ha in Hv.
  apply elem_of_seqZ in Hv. fold n in Hv. lia.
Qed.

Lemma getitem_reveal (i : Z) :
  0 <= i < n -> np.getitem a i = Ok (reveal a i).
Proof.
  intros Hi. unfold np.getitem. fold n.
  destruct (Z.ltb_spec i 0) as [|_]; [lia |].
  destruct (Z.leb_spec 0 i); [| lia].
  destruct (Z.ltb_spec i n); [| lia]. cbn.
  by destruct (reveal_in_range i Hi) as [-> _].
Qed.

Lemma reveal_inj (i j : Z) :
  0 <= i < n -> 0 <= j < n -> reveal a i = reveal a j -> i = j.
Proof.
  intros Hi Hj Heq.
  destruct (reveal_in_range i Hi) as [Hli _].
  destruct (reveal_in_range j Hj) as [Hlj _].
  rewrite Heq in Hli.
  pose proof (NoDup_lookup _ _ _ _ assignment_NoDup Hli Hlj). lia.
Qed.

Variable p : Z.
Hypothesis Hp : 0 <= p < n.

Lemma follow_in_range (k : nat) : 0 <= follow a p k < n.
Proof.
  induction k as [| k IH]; [done |].
  unfold follow in *. cbn. by apply reveal_in_range.
Qed.

Lemma follow_cancel (i j : nat) :
  follow a p i = follow a p (i + j) -> follow a p j = p.
Proof.
  induction i as [| i IH]; [done |].
  intros Heq. apply IH.
  apply reveal_inj; [apply follow_in_range | apply follow_in_range | exact Heq].
Qed.

(** Among the first [length a + 1] contents of the walk two are equal,
    so the walk is back at [p] within [length a] openings. *)
Lemma walk_returns :
  exists m, (0 < m <= length a)%nat /\ follow a p m = p.
Proof.
  set (walk := follow a p <$> seq 0 (S (length a))).
  destruct (repeated_or_NoDup walk) as [Hnd | (i & j & x & Hij & Hi & Hj)].
  - exfalso.
    assert (Hincl : incl walk (seqZ 0 n)).
    { intros v Hv. apply list_elem_of_In in Hv. apply list_elem_of_In.
      unfold walk in Hv. apply list_elem_of_fmap in Hv as (k & -> & _).
      apply elem_of_seqZ. pose proof (follow_in_range k). lia. }
    apply NoDup_ListNoDup in Hnd.
    pose proof (NoDup_incl_length Hnd Hincl) as Hlen.
    unfold walk in Hlen.
    rewrite length_fmap, length_seq, length_seqZ in Hlen.
    unfold n, np.len in Hlen. lia.
  - unfold walk in Hi, Hj.
    rewrite list_lookup_fmap in Hi, Hj.
    destruct (seq 0 (S (length a)) !! i) as [i' |] eqn:Ei; [| done].
    destruct (seq 0 (S (length a)) !! j) as [j' |] eqn:Ej; [| done].
    apply lookup_seq in Ei as [-> Hi'], Ej as [-> Hj'].
    cbn in Hi, Hj. exists (j - i)%nat. split; [lia |].
    apply (follow_cancel i).
    replace (i + (j - i))%nat with j by lia.
    unfold follow, Nat.iter. congruence.
Qed.

Lemma distance_exists :
  exists d, distance a p d /\ (d <= length a)%nat.
Proof.
  destruct walk_returns as (m & Hm & Hback).
  destruct (least_witness (fun k => (0 < k)%nat /\ follow a p k = p))
    with (m := m) as (d & [Hd0 Hd] & Hle & Hmin).
  - intros k. destruct (decide ((0 < k)%nat /\ follow a p k = p)); auto.
  - split; [lia | done].
  - exists d. split; [| lia]. split_and!; [done | done |].
    intros k Hk Hback'. apply (Hmin k); [lia |]. split; [lia | done].
Qed.

(** From the [k]-th content of the walk, with [k] openings counted, the
    loop goes on to the [d]-th opening and decides there. *)
Lemma LoopSelect_loop_walk (d : nat) (Hd : distance a p d) (fuel : nat) :
  forall (k : nat) (attempts : Z),
    (k < d)%nat -> (d - k <= fuel)%nat ->
    LoopSelect_loop fuel p a attempts (follow a p k) (Z.of_nat k)
    = Ok (attempts - Z.of_nat (d - k) >? 0, Z.of_nat d).
Proof.
  destruct Hd as (Hd0 & Hback & Hfirst).
  induction fuel as [| fuel IH]; intros k attempts Hk Hfuel; [lia |].
  cbn [LoopSelect_loop].
  rewrite getitem_reveal by apply follow_in_range.
  cbn [bind]. change (reveal a (follow a p k)) with (follow a p (S k)).
  destruct (decide (S k = d)) as [<- | Hne].
  - rewrite Hback, Z.eqb_refl.
    replace (S k - k)%nat with 1%nat by lia.
    replace (Z.of_nat k + 1) with (Z.of_nat (S k)) by lia.
    change (Z.of_nat 1) with 1. by destruct (attempts - 1 >? 0).
  - destruct (Z.eqb_spec p (follow a p (S k))) as [Heq | _].
    { exfalso. apply (Hfirst (S k)); [lia | done]. }
    replace (Z.of_nat k + 1) with (Z.of_nat (S k)) by lia.
    rewrite IH by lia.
    by replace (attempts - 1 - Z.of_nat (d - S k))
      with (attempts - Z.of_nat (d - k)) by lia.
Qed.

(** On an assignment, for a searcher that has a slot, [LoopSelect._run]
    returns once it has fuel for the distance [d]; it reports success
    exactly when [d < attempts], and [loop_size = d]. *)
Lemma LoopSelect_run_assignment :
  exists d, distance a p d /\ (d <= length a)%nat /\
    forall fuel attempts, (d <= fuel)%nat ->
      LoopSelect_run fuel p a attempts
      = Ok (Z.of_nat d <? attempts, Z.of_nat d).
Proof.
  destruct distance_exists as (d & Hd & Hle).
  exists d. split; [done | split; [done |]].
  intros fuel attempts Hfuel. unfold LoopSelect_run.
  pose proof (LoopSelect_loop_walk d Hd fuel O attempts) as Hrun.
  change (follow a p 0) with p in Hrun. change (Z.of_nat 0) with 0 in Hrun.
  rewrite Hrun by (destruct Hd; lia).
  rewrite Nat.sub_0_r. f_equal. f_equal.
  destruct (Z.ltb_spec (Z.of_nat d) attempts), (Z.gtb_spec (attempts - Z.of_nat d) 0);
    try reflexivity; lia.
Qed.
End LoopSelect_on_assignment.

(** C1.  The code at the failing input: four slots holding [1,0,3,2], the
    default budget rounded down (2 attempts), searcher 0.  The searcher's
    own number is reached at the second opening, so the distance equals
    the budget, and [LoopSelect] reports failure with [loop_size = 2]. *)
Theorem LoopSelect_rejects_distance_equal_to_budget :
  distance [1; 0; 3; 2] 0 2 /\
  AttemptSchema [1; 0; 3; 2]
    {[ "schema" := PStr "default"; "lower" := PBool true ]} = Ok 2 /\
  forall (r : rng) (fuel : nat),
    select LoopSelect (2 + fuel) r 0 [1; 0; 3; 2]
      {[ "schema" := PStr "default"; "lower" := PBool true ]}
    = Ok (false, Some [("loop_size"%string, 2)], r).
Proof.
  split; [| split].
  - split; [lia | split; [reflexivity |]].
    intros k Hk. assert (k = 1%nat) as -> by lia. by vm_compute.
  - reflexivity.
  - intros r fuel. reflexivity.
Qed.

(** Scenario B as the specification words it does not hold: no run of
    searcher 0 on the 4-cycle with budget 2 ends with [loop_size = 2]. *)
Lemma scenario_B_loop_size_is_not_2 :
  ~ exists (fuel : nat) (r r' : rng) (ok : bool),
      select LoopSelect fuel r 0 [1; 2; 3; 0]
        {[ "schema" := PStr "default"; "lower" := PBool true ]}
      = Ok (ok, Some [("loop_size"%string, 2)], r').
Proof.
  intros (fuel & r & r' & ok & Hrun).
  do 5 (destruct fuel as [| fuel]; [by vm_compute in Hrun |]).
  by vm_compute in Hrun.
Qed.

(** C3 (amended).  With 4 slots, the default budget rounded down and the
    assignment [1,2,3,0], the budget is 2 and [LoopSelect] reports, for
    every one of the 4 searchers, failure and [loop_size = 4], the length
    of the cycle: the walk goes on after the budget is spent. *)
Theorem scenario_B_all_fail_with_cycle_length :
  AttemptSchema [1; 2; 3; 0]
    {[ "schema" := PStr "default"; "lower" := PBool true ]} = Ok 2 /\
  forall (r : rng) (fuel : nat),
    Forall
      (fun prisoner =>
         select LoopSelect (4 + fuel) r prisoner [1; 2; 3; 0]
           {[ "schema" := PStr "default"; "lower" := PBool true ]}
         = Ok (false, Some [("loop_size"%string, 4)], r))
      (np.arange 4).
Proof.
  split; [reflexivity |].
  intros r fuel. repeat constructor.
Qed.

(** Scenario A: on the identity assignment every searcher succeeds at the
    first opening. *)
Example scenario_A (r : rng) (fuel : nat) :
  Forall
    (fun prisoner =>
       select LoopSelect (1 + fuel) r prisoner [0; 1; 2; 3]
         {[ "schema" := PStr "default"; "lower" := PBool true ]}
       = Ok (true, Some [("loop_size"%string, 1)], r))
    (np.arange 4).
Proof. repeat constructor. Qed.

(** ** RandomSelect *)

(** What the rebinding of [unchecked] keeps: the first [guess] cells and
    the last [guess] cells; with [guess = 0], everything. *)
Lemma RandomSelect_body_keeps (unchecked : list Z) (g : nat) :
  (g < length unchecked)%nat ->
  exists check,
    unchecked !! g = Some check /\
    RandomSelect_body unchecked g
    = Ok (check,
          match g with
          | O => unchecked
          | _ => take g unchecked ++ drop (length unchecked - g) unchecked
          end).
Proof.
  intros Hg. destruct (lookup_lt_is_Some_2 unchecked g Hg) as [v Hv].
  exists v. split; [done |].
  unfold RandomSelect_body, np.getitem, np.len.
  destruct (Z.ltb_spec (Z.of_nat g) 0); [lia |].
  destruct (Z.leb_spec 0 (Z.of_nat g)); [| lia].
  destruct (Z.ltb_spec (Z.of_nat g) (Z.of_nat (length unchecked))); [| lia].
  cbn [andb]. rewrite Nat2Z.id, Hv. cbn [bind]. f_equal. f_equal.
  unfold np.append, np.slice_to, np.slice_from, np.clamp, np.len.
  destruct g as [| g'].
  - change (Z.of_nat 0) with 0. change (- 0) with 0.
    change (0 <? 0) with false. cbv iota.
    by replace (Z.to_nat ((0 `max` 0) `min` Z.of_nat (length unchecked)))
      with O by lia.
  - destruct (Z.ltb_spec (Z.of_nat (S g')) 0); [lia |].
    destruct (Z.ltb_spec (- Z.of_nat (S g')) 0); [| lia].
    f_equal; f_equal; lia.
Qed.

(** C2.  The code at the failing input: four slots holding [1,0,3,2],
    the default budget rounded down (2 attempts), searcher 3, and a
    generator that draws index 0 twice.  Slot 0 is opened twice, and the
    collection is the same before the second opening as before the
    first: nothing was removed. *)
Theorem RandomSelect_reopens_slot :
  AttemptSchema [1; 0; 3; 2]
    {[ "schema" := PStr "default"; "lower" := PBool true ]} = Ok 2 /\
  exists r' : rng,
    RandomSelect_run (fun _ => O) 3 [1; 0; 3; 2] 2
    = Ok (false,
          [Opening [1; 0; 3; 2] 0 1; Opening [1; 0; 3; 2] 0 1],
          r').
Proof. split; [reflexivity |]. eexists. reflexivity. Qed.

(** The same at the last index: the opened cell is kept and others are
    repeated. *)
Example RandomSelect_keeps_last_cell :
  RandomSelect_body [0; 1; 2; 3] 3 = Ok (3, [0; 1; 2; 1; 2; 3]).
Proof. reflexivity. Qed.

Lemma getitem_not_Fuel (a : list Z) (i : Z) : np.getitem a i <> Fuel.
Proof.
  unfold np.getitem.
  destruct (_ && _); [| done]. by destruct (a !! _).
Qed.

Lemma RandomSelect_body_not_Fuel (unchecked : list Z) (g : nat) :
  RandomSelect_body unchecked g <> Fuel.
Proof.
  unfold RandomSelect_body.
  pose proof (getitem_not_Fuel unchecked (Z.of_nat g)).
  by destruct (np.getitem unchecked (Z.of_nat g)).
Qed.

(** [RandomSelect._run] returns: the fuel it is given is enough. *)
Lemma RandomSelect_loop_total (fuel : nat) :
  forall r prisoner unchecked attempts success log,
    (Z.to_nat attempts <= fuel)%nat ->
    RandomSelect_loop fuel r prisoner unchecked attempts success log <> Fuel.
Proof.
  induction fuel as [| fuel IH]; intros r prisoner unchecked attempts success
    log Hfuel; cbn [RandomSelect_loop].
  - destruct success; cbn; [done |].
    destruct (Z.gtb_spec attempts 0); [lia | done].
  - destruct (negb success && (attempts >? 0)) eqn:Hgo; [| done].
    apply andb_prop in Hgo as [_ Hpos].
    destruct (random_choice_range r (length unchecked)) as [[g r'] | e |]
      eqn:Hdraw; cbn [bind fst snd]; [| done |].
    + destruct (RandomSelect_body unchecked g) as [[c u] | e |] eqn:Hbody;
        cbn [bind fst snd]; [| done |].
      * apply IH. destruct (Z.gtb_spec attempts 0); [lia | done].
      * by apply RandomSelect_body_not_Fuel in Hbody.
    + unfold random_choice_range in Hdraw.
      by destruct (length unchecked).
Qed.

(** ** The strategies leave the arrays they are given alone *)

Lemma alloc_prefix (h : store.heap) (a : list Z) :
  h `prefix_of` fst (store.alloc h a).
Proof. by exists [a]. Qed.

Lemma deref_alloc (h : store.heap) (a : list Z) :
  store.deref (fst (store.alloc h a)) (snd (store.alloc h a)) = a.
Proof.
  unfold store.deref, store.alloc. cbn [fst snd].
  by rewrite lookup_app_r, Nat.sub_diag by lia.
Qed.

Lemma store_RandomSelect_loop_prefix (fuel : nat) :
  forall r prisoner unchecked attempts success h,
    h `prefix_of`
      fst (store.RandomSelect_loop fuel r prisoner unchecked attempts success h).
Proof.
  induction fuel as [| fuel IH]; intros r prisoner unchecked attempts success h;
    cbn [store.RandomSelect_loop].
  - by destruct (negb success && (attempts >? 0)).
  - destruct (negb success && (attempts >? 0)); [| done].
    destruct (random_choice_range r _) as [[g r'] | e |]; [| done | done].
    destruct (np.getitem _ _) as [c | e |]; [| done | done].
    destruct (store.alloc h _) as [h' u'] eqn:Halloc.
    etrans; [| apply IH].
    replace h' with (fst (store.alloc h
      (np.append (np.slice_to (store.deref h unchecked) (Z.of_nat g))
         (np.slice_from (store.deref h unchecked) (- Z.of_nat g)))))
      by (by rewrite Halloc).
    apply alloc_prefix.
Qed.

Lemma store_LoopSelect_loop_heap (fuel : nat) :
  forall prisoner unchecked attempts check loop_size h,
    fst (store.LoopSelect_loop fuel prisoner unchecked attempts check
           loop_size h) = h.
Proof.
  induction fuel as [| fuel IH];
    intros prisoner unchecked attempts check loop_size h;
    cbn [store.LoopSelect_loop]; [done |].
  destruct (np.getitem _ _) as [c | e |]; [| done | done].
  destruct (prisoner =? c); [by destruct (_ >? 0) | apply IH].
Qed.

Lemma store_run_prefix algo fuel r self (h : store.heap) :
  h `prefix_of` fst (store._run algo fuel r self h).
Proof.
  unfold store._run. destruct algo.
  - pose proof (store_RandomSelect_loop_prefix
      (Z.to_nat (store._attempts self)) r (store._prisoner self)
      (store._unchecked self) (store._attempts self) false h) as Hpre.
    destruct (store.RandomSelect_loop _ _ _ _ _ _ _) as [h' [[s r'] | e |]];
      exact Hpre.
  - pose proof (store_LoopSelect_loop_heap fuel (store._prisoner self)
      (store._unchecked self) (store._attempts self) (store._prisoner self)
      0 h) as Heq.
    destruct (store.LoopSelect_loop _ _ _ _ _ _ _) as [h' [[s k] | e |]];
      cbn [fst] in *; by subst h'.
Qed.

Lemma store_init_prefix (h : store.heap) prisoner envelopes kwargs :
  h `prefix_of` fst (store.Algorithm_init h prisoner envelopes kwargs).
Proof.
  unfold store.Algorithm_init.
  destruct (bind _ _) as [attempts | e |]; [| done | done].
  apply alloc_prefix.
Qed.

(** Every array of the store is where it was, and as it was, after a
    strategy instance has been built and run. *)
Lemma store_select_prefix algo fuel r prisoner envelopes kwargs
    (h : store.heap) :
  h `prefix_of`
    fst (store.select algo fuel r prisoner envelopes kwargs h).
Proof.
  unfold store.select.
  pose proof (store_init_prefix h prisoner envelopes kwargs) as Hinit.
  destruct (store.Algorithm_init h prisoner envelopes kwargs)
    as [h' [self | e |]]; cbn [fst] in *; [| done | done].
  etrans; [exact Hinit | apply store_run_prefix].
Qed.

(** C9.  Whatever the strategy, the searcher, the keywords that fix the
    budget, the random draws and the fuel, and however the run ends, the
    envelopes array that was passed in holds after [select] what it held
    before. *)
Theorem strategies_do_not_mutate_assignment
    (algo : algorithm) (fuel : nat) (r : rng) (prisoner : Z)
    (envelopes : store.loc) (kwargs : gmap string pyval)
    (h : store.heap) (a : list Z) :
  h !! envelopes = Some a ->
  fst (store.select algo fuel r prisoner envelopes kwargs h) !! envelopes
  = Some a.
Proof.
  intros Ha. eapply prefix_lookup_Some; [exact Ha |].
  apply store_select_prefix.
Qed.

Lemma strategies_do_not_mutate_assignment_witness :
  ([[1; 0; 3; 2]] : store.heap) !! O = Some [1; 0; 3; 2] /\
  fst (store.select RandomSelect 0 (fun k => k) 3 O
         {[ "lower" := PBool true ]} [[1; 0; 3; 2]]) !! O
  = Some [1; 0; 3; 2].
Proof.
  split; [reflexivity |].
  apply (strategies_do_not_mutate_assignment RandomSelect 0 (fun k => k) 3 O
           {[ "lower" := PBool true ]} [[1; 0; 3; 2]] [1; 0; 3; 2]).
  reflexivity.
Defined.

(** The run of the witness does allocate: the copy and two rebindings. *)
Example store_select_allocates :
  fst (store.select RandomSelect 0 (fun k => k) 3 O
         {[ "lower" := PBool true ]} [[1; 0; 3; 2]])
  = [[1; 0; 3; 2]; [1; 0; 3; 2]; [1; 0; 3; 2]; [1; 2]].
Proof. reflexivity. Qed.

(** The store model and the model on array values agree: a strategy run
    on an address returns what the run on the array at that address
    returns. *)
Lemma store_RandomSelect_loop_refines (fuel : nat) :
  forall r prisoner unchecked attempts success h log,
    snd (store.RandomSelect_loop fuel r prisoner unchecked attempts success h)
    = (out <- RandomSelect_loop fuel r prisoner (store.deref h unchecked)
                attempts success log ;;
       Ok (fst (fst out), snd out)).
Proof.
  induction fuel as [| fuel IH];
    intros r prisoner unchecked attempts success h log;
    cbn [store.RandomSelect_loop RandomSelect_loop].
  - by destruct (negb success && (attempts >? 0)).
  - destruct (negb success && (attempts >? 0)); [| done].
    destruct (random_choice_range r _) as [[g r'] | e |];
      cbn [bind fst snd]; [| done | done].
    unfold RandomSelect_body.
    destruct (np.getitem _ _) as [c | e |]; cbn [bind fst snd]; [| done | done].
    pose proof (deref_alloc h
      (np.append (np.slice_to (store.deref h unchecked) (Z.of_nat g))
         (np.slice_from (store.deref h unchecked) (- Z.of_nat g)))) as Hd.
    destruct (store.alloc h _) as [h' u']. cbn [fst snd] in Hd.
    rewrite (IH _ _ _ _ _ _
      (log ++ [Opening (store.deref h unchecked) g c])).
    by rewrite Hd.
Qed.

Lemma store_LoopSelect_loop_refines (fuel : nat) :
  forall prisoner unchecked attempts check loop_size h,
    snd (store.LoopSelect_loop fuel prisoner unchecked attempts check
           loop_size h)
    = LoopSelect_loop fuel prisoner (store.deref h unchecked) attempts check
        loop_size.
Proof.
  induction fuel as [| fuel IH];
    intros prisoner unchecked attempts check loop_size h;
    cbn [store.LoopSelect_loop LoopSelect_loop]; [done |].
  destruct (np.getitem _ _) as [c | e |]; cbn [bind]; [| done | done].
  destruct (prisoner =? c); [by destruct (_ >? 0) | apply IH].
Qed.

Lemma store_select_refines algo fuel r prisoner envelopes kwargs
    (h : list (list Z)) :
  snd (store.select algo fuel r prisoner envelopes kwargs h)
  = select algo fuel r prisoner (store.deref h envelopes) kwargs.
Proof.
  unfold store.select, store.Algorithm_init, select.
  destruct (bind_keywords kwargs) as [[] | e |]; cbn [bind]; [| done | done].
  destruct (AttemptSchema _ kwargs) as [attempts | e |];
    cbn [bind]; [| done | done].
  pose proof (deref_alloc h (store.deref h envelopes)) as Hd.
  destruct (store.alloc h _) as [h' u]. cbn [fst snd] in Hd.
  unfold store._run.
  cbn [store._attempts store._prisoner store._unchecked].
  destruct algo.
  - pose proof (store_RandomSelect_loop_refines (Z.to_nat attempts) r prisoner
      u attempts false h' []) as Href.
    unfold RandomSelect_run. rewrite Hd in Href.
    destruct (store.RandomSelect_loop _ _ _ _ _ _ _) as [h'' [[s r'] | e |]],
      (RandomSelect_loop _ _ _ _ _ _ _) as [[[s2 l2] r2] | e2 |];
      cbn [snd fst bind] in *; congruence.
  - pose proof (store_LoopSelect_loop_refines fuel prisoner u attempts
      prisoner 0 h') as Href.
    unfold LoopSelect_run. rewrite Hd in Href.
    destruct (store.LoopSelect_loop _ _ _ _ _ _ _) as [h'' [[s k] | e |]],
      (LoopSelect_loop _ _ _ _ _ _) as [[s2 k2] | e2 |];
      cbn [snd fst bind] in *; congruence.
Qed.

(** ** The option verifier *)

Import config.

(** Each block of [_verify_opts] writes its own key only (the
    ['nEnvelopes'] block also writes ['chunks']). *)
Lemma verify_lower_other (nP : Z) (o : gmap string pyval) (k : string) :
  k <> "lower"%string -> fst (verify_lower nP o) !! k = o !! k.
Proof.
  intros Hk. unfold verify_lower.
  repeat case_match; cbn [fst]; by rewrite ?lookup_insert_ne.
Qed.

Lemma verify_chunks_other (o : gmap string pyval) (k : string) :
  k <> "chunks"%string -> fst (verify_chunks o) !! k = o !! k.
Proof.
  intros Hk. unfold verify_chunks.
  repeat case_match; cbn [fst]; by rewrite ?lookup_insert_ne.
Qed.

Lemma verify_schema_other (o : gmap string pyval) (k : string) :
  k <> "schema"%string -> fst (verify_schema o) !! k = o !! k.
Proof.
  intros Hk. unfold verify_schema.
  repeat case_match; cbn [fst]; by rewrite ?lookup_insert_ne.
Qed.

Lemma verify_nEnvelopes_other (nP : Z) (o o' : gmap string pyval) w k :
  verify_nEnvelopes nP o = Ok (o', w) ->
  k <> "chunks"%string -> k <> "nEnvelopes"%string -> o' !! k = o !! k.
Proof.
  intros Hv Hk1 Hk2. unfold verify_nEnvelopes in Hv.
  repeat case_match; simplify_eq; by rewrite ?lookup_insert_ne.
Qed.

Lemma verify_enough_envelopes_other (nP : Z) (o o' : gmap string pyval) w k :
  verify_enough_envelopes nP o = Ok (o', w) ->
  k <> "nEnvelopes"%string -> o' !! k = o !! k.
Proof.
  intros Hv Hk. unfold verify_enough_envelopes in Hv.
  repeat case_match; simplify_eq; by rewrite ?lookup_insert_ne.
Qed.

(** The stages of [_verify_opts], named. *)
Lemma _verify_opts_stages (nP : Z) (kwargs opts : gmap string pyval) w :
  _verify_opts nP kwargs = Ok (opts, w) ->
  exists o3 w3 o4 w4,
    verify_nEnvelopes nP
      (fst (verify_chunks (fst (verify_lower nP kwargs)))) = Ok (o3, w3) /\
    verify_enough_envelopes nP o3 = Ok (o4, w4) /\
    opts = fst (verify_schema o4).
Proof.
  unfold _verify_opts. intros Hv.
  destruct (verify_lower nP kwargs) as [o1 w1]. cbv beta iota in Hv.
  cbn [fst].
  destruct (verify_chunks o1) as [o2 w2]. cbv beta iota in Hv. cbn [fst].
  destruct (verify_nEnvelopes nP o2) as [[o3 w3] | |] eqn:H3;
    cbn [bind fst snd] in Hv; [| done | done].
  destruct (verify_enough_envelopes nP o3) as [[o4 w4] | |] eqn:H4;
    cbn [bind fst snd] in Hv; [| done | done].
  destruct (verify_schema o4) as [o5 w5] eqn:Hs. cbv beta iota in Hv.
  injection Hv as <- _.
  exists o3, w3, o4, w4. split_and!; [done | done |]. by rewrite Hs.
Qed.

(** ['param'] goes through the verifier untouched. *)
Lemma _verify_opts_param (nP : Z) (kwargs opts : gmap string pyval) w :
  _verify_opts nP kwargs = Ok (opts, w) ->
  opts !! "param" = kwargs !! "param".
Proof.
  intros Hv.
  apply _verify_opts_stages in Hv as (o3 & w3 & o4 & w4 & H3 & H4 & ->).
  rewrite verify_schema_other by done.
  rewrite (verify_enough_envelopes_other _ _ _ _ _ H4) by done.
  rewrite (verify_nEnvelopes_other _ _ _ _ _ H3) by done.
  rewrite verify_chunks_other by done.
  by rewrite verify_lower_other.
Qed.

(** A ['schema'] of ['modified'] is kept. *)
Lemma _verify_opts_modified (nP : Z) (kwargs opts : gmap string pyval) w :
  _verify_opts nP kwargs = Ok (opts, w) ->
  kwargs !! "schema" = Some (PStr "modified") ->
  opts !! "schema" = Some (PStr "modified").
Proof.
  intros Hv Hs.
  apply _verify_opts_stages in Hv as (o3 & w3 & o4 & w4 & H3 & H4 & ->).
  assert (o4 !! "schema" = Some (PStr "modified")) as Ho4.
  { rewrite (verify_enough_envelopes_other _ _ _ _ _ H4) by done.
    rewrite (verify_nEnvelopes_other _ _ _ _ _ H3) by done.
    rewrite verify_chunks_other by done.
    by rewrite verify_lower_other. }
  unfold verify_schema. rewrite Ho4. cbn. by rewrite Ho4.
Qed.

(** Whether the optional keys are accepted is decided by ['chunks'] and
    ['nEnvelopes'] alone. *)
Lemma is_ok_verify_opts (nP : Z) (o : gmap string pyval) :
  is_ok (_verify_opts nP o)
  = is_ok (x <- verify_nEnvelopes nP
                  (fst (verify_chunks (fst (verify_lower nP o)))) ;;
           verify_enough_envelopes nP (fst x)).
Proof.
  unfold _verify_opts.
  destruct (verify_lower nP o) as [o1 w1]. cbv beta iota. cbn [fst].
  destruct (verify_chunks o1) as [o2 w2]. cbv beta iota. cbn [fst].
  destruct (verify_nEnvelopes nP o2) as [[o3 w3] | |]; cbn [bind fst snd];
    [| done | done].
  destruct (verify_enough_envelopes nP o3) as [[o4 w4] | |];
    cbn [bind fst snd]; [| done | done].
  by destruct (verify_schema o4).
Qed.

Lemma is_ok_enough_envelopes (nP : Z) (x : gmap string pyval) :
  is_ok (verify_enough_envelopes nP x)
  = match x !! "nEnvelopes" ≫= as_number with Some _ => true | None => false end.
Proof.
  unfold verify_enough_envelopes.
  destruct (x !! "nEnvelopes") as [v |]; cbn; [| done].
  destruct (as_number v); [| done]. by destruct (_ <? _).
Qed.

Lemma is_ok_envelopes_blocks (nP : Z) (m : gmap string pyval) :
  is_ok (x <- verify_nEnvelopes nP m ;; verify_enough_envelopes nP (fst x))
  = match m !! "nEnvelopes" with
    | None | Some (PStr _) => true
    | Some PNone => false
    | Some _ =>
        match m !! "chunks" with
        | None => false
        | Some c =>
            match py_int c with
            | Ok _ | Raise ValueError => true
            | _ => false
            end
        end
    end.
Proof.
  unfold verify_nEnvelopes.
  destruct (m !! "nEnvelopes") as [[| b | z | s] |] eqn:Ev;
    cbn [bind fst snd]; rewrite ?is_ok_enough_envelopes, ?lookup_insert_eq;
    try done.
  all: destruct (m !! "chunks") as [c |]; [| done].
  all: destruct (py_int c) as [z' | [] |]; cbn [bind fst snd]; try done.
  all: rewrite is_ok_enough_envelopes.
  all: rewrite ?lookup_insert_eq, ?lookup_insert_ne by done; try done.
  all: by rewrite Ev.
Qed.

Lemma verify_chunks_chunks (o o' : gmap string pyval) :
  o !! "chunks" = o' !! "chunks" ->
  fst (verify_chunks o) !! "chunks" = fst (verify_chunks o') !! "chunks".
Proof.
  intros Hc. unfold verify_chunks. rewrite <- Hc.
  destruct (o !! "chunks") as [v |] eqn:Eo; cbn [fst];
    [| by rewrite !lookup_insert_eq].
  repeat case_match; cbn [fst]; rewrite ?lookup_insert_eq; congruence.
Qed.

Lemma is_ok_verify_opts_agree (nP : Z) (o o' : gmap string pyval) :
  o !! "chunks" = o' !! "chunks" ->
  o !! "nEnvelopes" = o' !! "nEnvelopes" ->
  is_ok (_verify_opts nP o) = is_ok (_verify_opts nP o').
Proof.
  intros Hc He. rewrite !is_ok_verify_opts, !is_ok_envelopes_blocks.
  rewrite !(verify_chunks_other _ "nEnvelopes"), !(verify_lower_other _ _ "nEnvelopes") by done.
  rewrite He.
  rewrite (verify_chunks_chunks (fst (verify_lower nP o)) (fst (verify_lower nP o'))); [done |].
  by rewrite !verify_lower_other.
Qed.

(** Acceptance does not depend on ['param']. *)
Lemma Config_init_ignores_param nP nT algos (kwargs : gmap string pyval) v :
  is_ok (Config_init nP nT algos kwargs)
  = is_ok (Config_init nP nT algos (<["param" := v]> kwargs)).
Proof.
  unfold Config_init.
  destruct (_verify_reqs nP nT) as [[p t] | |]; cbn [bind fst snd];
    [| done | done].
  pose proof (is_ok_verify_opts_agree p kwargs (<["param" := v]> kwargs)) as H.
  rewrite !lookup_insert_ne in H by done. specialize (H eq_refl eq_refl).
  by destruct (_verify_opts p kwargs),
    (_verify_opts p (<["param" := v]> kwargs)).
Qed.

(** The claim as worded fails: the modified policy with divisor 0, and
    with no divisor at all, is accepted when the configuration is
    built. *)
Lemma Config_accepts_zero_and_missing_divisor :
  is_ok (Config_init (PInt 4) (PInt 2) [LoopSelect]
           {[ "schema" := PStr "modified"; "param" := PInt 0;
              "lower" := PBool true; "chunks" := PInt 1 ]}) = true /\
  is_ok (Config_init (PInt 4) (PInt 2) [LoopSelect]
           {[ "schema" := PStr "modified";
              "lower" := PBool true; "chunks" := PInt 1 ]}) = true.
Proof. split; reflexivity. Qed.

(** C6 (amended).  A configuration that selects the modified policy with
    a divisor that is zero or missing is accepted exactly when the same
    configuration with divisor 2 is: the verifier does not look at the
    divisor.  Where the configuration is built, the schema and the
    divisor reach the strategies as given, and the budget computation of
    every strategy instance raises: [KeyError] when no rounding direction
    is there, else [ZeroDivisionError] for a zero divisor and [TypeError]
    for a missing one; so [select] returns for no searcher. *)
Theorem bad_divisor_is_met_by_the_strategies
    (nP nT : pyval) (algos : list algorithm) (kwargs : gmap string pyval) :
  kwargs !! "schema" = Some (PStr "modified") ->
  default PNone (kwargs !! "param") = PNone \/
    kwargs !! "param" = Some (PInt 0) ->
  is_ok (Config_init nP nT algos kwargs)
  = is_ok (Config_init nP nT algos (<["param" := PInt 2]> kwargs)) /\
  forall c w, Config_init nP nT algos kwargs = Ok (c, w) ->
    _opts c !! "schema" = Some (PStr "modified") /\
    _opts c !! "param" = kwargs !! "param" /\
    forall envelopes,
      AttemptSchema envelopes
        (delete "nEnvelopes" (delete "chunks" (_opts c)))
      = Raise (match _opts c !! "lower" with
               | None => KeyError
               | Some _ =>
                   match kwargs !! "param" with
                   | Some (PInt _) => ZeroDivisionError
                   | _ => TypeError
                   end
               end) /\
      forall algo fuel r prisoner,
        exists e,
          select algo fuel r prisoner envelopes
            (delete "nEnvelopes" (delete "chunks" (_opts c))) = Raise e.
Proof.
  intros Hschema Hparam. split; [apply Config_init_ignores_param |].
  intros c w Hc. unfold Config_init in Hc.
  destruct (_verify_reqs nP nT) as [[p t] | |]; cbn [bind fst snd] in Hc;
    [| done | done].
  destruct (_verify_opts p kwargs) as [[o wo] | |] eqn:Ho;
    cbn [bind fst snd] in Hc; [| done | done].
  injection Hc as <- <-. cbn [_opts].
  pose proof (_verify_opts_modified _ _ _ _ Ho Hschema) as Hs.
  pose proof (_verify_opts_param _ _ _ _ Ho) as Hp.
  split; [done | split; [done |]].
  intros envelopes.
  assert (AttemptSchema envelopes (delete "nEnvelopes" (delete "chunks" o))
          = Raise (match o !! "lower" with
                   | None => KeyError
                   | Some _ =>
                       match kwargs !! "param" with
                       | Some (PInt _) => ZeroDivisionError
                       | _ => TypeError
                       end
                   end)) as Hbudget.
  { unfold AttemptSchema. rewrite !lookup_delete_ne by done. rewrite Hs, Hp.
    destruct (o !! "lower") as [l |]; [| done]. cbn.
    unfold _modified.
    destruct Hparam as [Hnone | Hzero].
    - destruct (kwargs !! "param") as [v |]; cbn in Hnone |- *; by subst.
    - by rewrite Hzero. }
  split; [exact Hbudget |].
  intros algo fuel r prisoner. unfold select.
  destruct (bind_keywords _) as [[] | e |] eqn:Hb; cbn [bind]; [| by eexists |].
  - rewrite Hbudget. cbn [bind]. by eexists.
  - unfold bind_keywords in Hb. by repeat case_match.
Qed.

Lemma bad_divisor_is_met_by_the_strategies_witness :
  ({[ "schema" := PStr "modified"; "param" := PInt 0;
      "lower" := PBool true; "chunks" := PInt 1 ]} : gmap string pyval)
    !! "schema" = Some (PStr "modified") /\
  exists c w,
    Config_init (PInt 4) (PInt 2) [LoopSelect]
      {[ "schema" := PStr "modified"; "param" := PInt 0;
         "lower" := PBool true; "chunks" := PInt 1 ]} = Ok (c, w) /\
    AttemptSchema [1; 0; 3; 2]
      (delete "nEnvelopes" (delete "chunks" (_opts c)))
    = Raise ZeroDivisionError.
Proof.
  split; [reflexivity |].
  destruct (Config_init (PInt 4) (PInt 2) [LoopSelect]
      {[ "schema" := PStr "modified"; "param" := PInt 0;
         "lower" := PBool true; "chunks" := PInt 1 ]}) as [[c w] | e |] eqn:Hc;
    [| by vm_compute in Hc | by vm_compute in Hc].
  exists c, w. split; [reflexivity |].
  destruct (bad_divisor_is_met_by_the_strategies (PInt 4) (PInt 2) [LoopSelect]
      {[ "schema" := PStr "modified"; "param" := PInt 0;
         "lower" := PBool true; "chunks" := PInt 1 ]})
    as [_ Hrun]; [reflexivity | by right |].
  destruct (Hrun c w Hc) as (_ & _ & Hbudget).
  destruct (Hbudget [1; 0; 3; 2]) as [-> _].
  assert (_opts c !! "lower" = Some (PBool true)) as ->; [| reflexivity].
  vm_compute in Hc. by injection Hc as <- _.
Defined.




(** ** The simulation *)

Import runner.

(** A fresh [Simulation] holds the empty table for each configured
    strategy. *)
Lemma init_results_keep (algos : list algorithm) :
  forall (res : gmap string tables) (k : string),
    res !! k = Some (MkTables empty_frame ∅) ->
    fold_left (fun res a => <[__name__ a := MkTables empty_frame ∅]> res)
      algos res !! k = Some (MkTables empty_frame ∅).
Proof.
  induction algos as [| a algos IH]; intros res k Hk; cbn [fold_left]; [done |].
  apply IH. rewrite lookup_insert. by case_decide.
Qed.

Lemma init_results_lookup (algos : list algorithm) (a : algorithm) :
  forall res : gmap string tables,
    a ∈ algos ->
    fold_left (fun res a => <[__name__ a := MkTables empty_frame ∅]> res)
      algos res !! __name__ a = Some (MkTables empty_frame ∅).
Proof.
  induction algos as [| b algos IH]; intros res Hin; [by inversion Hin |].
  cbn [fold_left]. apply elem_of_cons in Hin as [-> | Hin].
  - apply init_results_keep. apply lookup_insert_eq.
  - by apply IH.
Qed.

(** The claim as worded fails on a simulation with no strategy: [stats]
    returns, with nothing in it. *)
Lemma stats_of_no_strategy_returns :
  exists c w,
    Config_init (PInt 4) (PInt 2) []
      {[ "lower" := PBool true; "chunks" := PInt 1 ]} = Ok (c, w) /\
    stats (Simulation_init c) = Ok (MkStats ∅ ∅).
Proof. do 2 eexists. split; reflexivity. Qed.

(** C10 (amended).  On a simulation with at least one strategy and no
    trial accumulated yet, [stats] raises [ValueError]: the counts of the
    first strategy's empty table are empty, and the peak is taken over
    them. *)
Theorem stats_before_simulate_raises (c : Config) :
  cfg_algorithms c <> [] ->
  stats (Simulation_init c) = Raise ValueError.
Proof.
  intros Hne. unfold stats, Simulation_init. cbn [_config _results].
  destruct (cfg_algorithms c) as [| a algos] eqn:Ha; [done |].
  cbn [stats_loop _results].
  rewrite <- Ha at 1.
  rewrite init_results_lookup by (rewrite Ha; apply list_elem_of_here).
  reflexivity.
Qed.

Lemma stats_before_simulate_raises_witness :
  cfg_algorithms (MkConfig 4 2 [RandomSelect; LoopSelect]
                    {[ "lower" := PBool true; "chunks" := PNone;
                       "nEnvelopes" := PInt 4;
                       "schema" := PStr "default" ]}) <> [] /\
  stats (Simulation_init
           (MkConfig 4 2 [RandomSelect; LoopSelect]
              {[ "lower" := PBool true; "chunks" := PNone;
                 "nEnvelopes" := PInt 4; "schema" := PStr "default" ]}))
  = Raise ValueError.
Proof.
  split; [discriminate |].
  apply (stats_before_simulate_raises
           (MkConfig 4 2 [RandomSelect; LoopSelect]
              {[ "lower" := PBool true; "chunks" := PNone;
                 "nEnvelopes" := PInt 4; "schema" := PStr "default" ]})).
  discriminate.
Defined.

(** After trials have been accumulated [stats] returns. *)
Example stats_after_simulate :
  (c <- Config_init (PInt 4) (PInt 2) [LoopSelect; RandomSelect]
          {[ "lower" := PBool true; "chunks" := PInt 1 ]} ;;
   st <- simulate 4 (MkRun (Simulation_init (fst c)) (fun _ => O)
                       (fun k => k) []) ;;
   s <- stats (sim st) ;;
   Ok (success s !! "LoopSelect", peak s !! "LoopSelect"))
  = Ok (Some 0, Some 0).
Proof. vm_compute. reflexivity. Qed.

(** Without a progress cadence the progress test raises: [nTrials / None]
    is evaluated although [chunks != None] is already false. *)
Lemma progress_due_without_chunks (c : Config) (i : Z) :
  _opts c !! "chunks" = Some PNone -> progress_due c i = Raise TypeError.
Proof. intros Hc. unfold progress_due, getitem. by rewrite Hc. Qed.

Lemma simulate_without_chunks (fuel : nat) (st : run_state) :
  _opts (_config (sim st)) !! "chunks" = Some PNone ->
  0 < nTrials (_config (sim st)) ->
  simulate fuel st = Raise TypeError.
Proof.
  intros Hc Ht. unfold simulate.
  rewrite seqZ_cons by done. cbn [simulate_loop].
  unfold simulate_step. by rewrite progress_due_without_chunks.
Qed.

(** The verifier stores [None] for a cadence that is absent, [None] or
    0. *)
Lemma verify_chunks_absent (o : gmap string pyval) :
  o !! "chunks" = None \/ o !! "chunks" = Some PNone \/
    o !! "chunks" = Some (PInt 0) ->
  fst (verify_chunks o) !! "chunks" = Some PNone.
Proof.
  unfold verify_chunks.
  intros [H | [H | H]]; rewrite H; cbn; by rewrite ?lookup_insert_eq, ?H.
Qed.

(** A configuration is built without cadence only with ['chunks'] set to
    [None], and then [simulate] raises at its first trial, whatever the
    rest of the configuration. *)
Lemma Config_init_without_cadence nP nT algos (kwargs : gmap string pyval)
    c w :
  Config_init nP nT algos kwargs = Ok (c, w) ->
  kwargs !! "chunks" = None \/ kwargs !! "chunks" = Some PNone \/
    kwargs !! "chunks" = Some (PInt 0) ->
  _opts c !! "chunks" = Some PNone.
Proof.
  intros Hc Hchunks. unfold Config_init in Hc.
  destruct (_verify_reqs nP nT) as [[p t] | |]; cbn [bind fst snd] in Hc;
    [| done | done].
  destruct (_verify_opts p kwargs) as [[o wo] | |] eqn:Ho;
    cbn [bind fst snd] in Hc; [| done | done].
  injection Hc as <- _. cbn [_opts].
  apply _verify_opts_stages in Ho as (o3 & w3 & o4 & w4 & H3 & H4 & ->).
  rewrite verify_schema_other by done.
  rewrite (verify_enough_envelopes_other _ _ _ _ _ H4) by done.
  assert (fst (verify_chunks (fst (verify_lower p kwargs))) !! "chunks"
          = Some PNone) as H2.
  { apply verify_chunks_absent. by rewrite verify_lower_other. }
  unfold verify_nEnvelopes in H3. rewrite H2 in H3.
  destruct (_ !! "nEnvelopes") as [[| b | z | s] |]; cbn in H3;
    simplify_eq; by rewrite ?lookup_insert_ne.
Qed.

Lemma simulate_without_cadence_general nP nT algos
    (kwargs : gmap string pyval) c w fuel r nr log :
  Config_init nP nT algos kwargs = Ok (c, w) ->
  kwargs !! "chunks" = None \/ kwargs !! "chunks" = Some PNone \/
    kwargs !! "chunks" = Some (PInt 0) ->
  0 < nTrials c ->
  simulate fuel (MkRun (Simulation_init c) r nr log) = Raise TypeError.
Proof.
  intros Hc Hchunks Ht. apply simulate_without_chunks; [| done].
  by eapply Config_init_without_cadence.
Qed.

(** C5.  The code at the failing input: 2 searchers, 1 trial,
    [LoopSelect], rounding down, no cadence.  The configuration is built
    with ['chunks'] set to [None], and [simulate] raises [TypeError] in
    its first iteration instead of completing. *)
Theorem simulate_without_cadence_raises (fuel : nat) (r nr : rng) :
  exists c w,
    Config_init (PInt 2) (PInt 1) [LoopSelect] {[ "lower" := PBool true ]}
    = Ok (c, w) /\
    _opts c !! "chunks" = Some PNone /\
    simulate fuel (MkRun (Simulation_init c) r nr []) = Raise TypeError.
Proof.
  do 2 eexists. split; [reflexivity |]. split; [reflexivity |].
  apply simulate_without_chunks; reflexivity.
Qed.

(** The same with 4 searchers, 3 trials and both strategies: [simulate]
    raises [TypeError] before the first trial is built, so no table gets
    a column. *)
Theorem simulate_builds_no_table_without_cadence (fuel : nat) (r nr : rng) :
  exists c w,
    Config_init (PInt 4) (PInt 3) [RandomSelect; LoopSelect]
      {[ "lower" := PBool true ]} = Ok (c, w) /\
    nPrisoners c = 4 /\ nTrials c = 3 /\
    simulate fuel (MkRun (Simulation_init c) r nr []) = Raise TypeError.
Proof.
  do 2 eexists. split; [reflexivity |]. split_and!; [done | done |].
  apply simulate_without_chunks; reflexivity.
Qed.

(** With a cadence the same simulation completes and each table has 3
    columns and 4 rows. *)
Example simulate_with_cadence :
  (c <- Config_init (PInt 4) (PInt 3) [RandomSelect; LoopSelect]
          {[ "lower" := PBool true; "chunks" := PInt 1 ]} ;;
   st <- simulate 4 (MkRun (Simulation_init (fst c)) (fun _ => O)
                       (fun k => k) []) ;;
   Ok ((fun t => (nrows (tbl_data t), length (columns (tbl_data t))))
         <$> _results (sim st) !! "LoopSelect",
       (fun t => (nrows (tbl_data t), length (columns (tbl_data t))))
         <$> _results (sim st) !! "RandomSelect"))
  = Ok (Some (4%nat, 3%nat), Some (4%nat, 3%nat)).
Proof. vm_compute. reflexivity. Qed.

(** ** A trial on a shuffled assignment *)

Lemma swap_Permutation (a : list Z) (i j : nat) : swap a i j ≡ₚ a.
Proof.
  unfold swap.
  destruct (a !! i) as [x |] eqn:Hi; [| done].
  destruct (a !! j) as [y |] eqn:Hj; [| done].
  pose proof (lookup_lt_Some _ _ _ Hi) as Hli.
  pose proof (lookup_lt_Some _ _ _ Hj) as Hlj.
  apply Permutation_inj. split; [by rewrite !length_insert |].
  exists (fun k => if decide (k = i) then j else if decide (k = j) then i else k).
  split.
  - intros k1 k2 Hk. repeat case_decide; congruence.
  - intros k. destruct (decide (k = i)) as [-> | Hki].
    + rewrite list_lookup_insert_eq by (by rewrite length_insert). done.
    + rewrite list_lookup_insert_ne by done.
      destruct (decide (k = j)) as [-> | Hkj].
      * by rewrite list_lookup_insert_eq.
      * by rewrite list_lookup_insert_ne.
Qed.

Lemma shuffle_from_Permutation (i : nat) :
  forall (r : rng) (a : list Z), fst (shuffle_from i r a) ≡ₚ a.
Proof.
  induction i as [| i IH]; intros r a; cbn [shuffle_from]; [done |].
  rewrite IH. apply swap_Permutation.
Qed.

Lemma shuffle_Permutation (r : rng) (a : list Z) : fst (shuffle r a) ≡ₚ a.
Proof. apply shuffle_from_Permutation. Qed.

(** The envelopes of a trial are an assignment of as many slots as were
    asked for. *)
Lemma shuffle_arange_assignment (r : rng) (n : Z) :
  0 <= n ->
  assignment (fst (shuffle r (np.arange n))) /\
  np.len (fst (shuffle r (np.arange n))) = n.
Proof.
  intros Hn. pose proof (shuffle_Permutation r (np.arange n)) as Hperm.
  assert (np.len (fst (shuffle r (np.arange n))) = n) as Hlen.
  { unfold np.len. rewrite Hperm. unfold np.arange. rewrite length_seqZ. lia. }
  split; [| done]. unfold assignment. by rewrite Hlen.
Qed.

Lemma AttemptSchema_len (e1 e2 : list Z) (kwargs : gmap string pyval) :
  np.len e1 = np.len e2 -> AttemptSchema e1 kwargs = AttemptSchema e2 kwargs.
Proof. intros Hlen. unfold AttemptSchema. by rewrite Hlen. Qed.

(** On a collection that is not empty [RandomSelect._run] returns. *)
Lemma RandomSelect_loop_returns (fuel : nat) :
  forall r prisoner unchecked attempts success log,
    (0 < length unchecked)%nat ->
    (Z.to_nat attempts <= fuel)%nat ->
    exists out,
      RandomSelect_loop fuel r prisoner unchecked attempts success log = Ok out.
Proof.
  induction fuel as [| fuel IH]; intros r prisoner unchecked attempts success
    log Hlen Hfuel; cbn [RandomSelect_loop].
  - destruct (negb success && (attempts >? 0)) eqn:Hgo; [| by eexists].
    apply andb_prop in Hgo as [_ Hpos]. lia.
  - destruct (negb success && (attempts >? 0)) eqn:Hgo; [| by eexists].
    apply andb_prop in Hgo as [_ Hpos].
    unfold random_choice_range.
    destruct (length unchecked) as [| m] eqn:Hm; [lia |].
    cbn [bind fst snd].
    assert (r O `mod` S m < length unchecked)%nat as Hg.
    { rewrite Hm. apply Nat.mod_upper_bound. lia. }
    destruct (RandomSelect_body_keeps unchecked _ Hg) as (check & _ & ->).
    cbn [bind fst snd]. apply IH; [| lia].
    destruct (r O `mod` S m)%nat as [| g] eqn:Eg; [lia |].
    rewrite length_app, length_take. lia.
Qed.

(** Keywords that bind to a list of parameters hold none of them, and
    bind to any part of the list. *)
Lemma bind_call_Ok (params : list string) (kwargs : gmap string pyval) :
  bind_call params kwargs = Ok tt <->
  forall p, p ∈ params -> kwargs !! p = None.
Proof.
  unfold bind_call.
  destruct (forallb _ params) eqn:Hall.
  - split; [intros _ | done].
    rewrite forallb_forall in Hall. intros p Hp.
    apply list_elem_of_In, Hall in Hp. by apply bool_decide_eq_true in Hp.
  - split; [done |]. intros Hnone.
    assert (forallb (fun p => bool_decide (kwargs !! p = None)) params = true)
      as Htrue; [| congruence].
    apply forallb_forall. intros p Hp.
    apply bool_decide_eq_true, Hnone. by apply list_elem_of_In.
Qed.

Lemma bind_call_part (params part : list string)
    (kwargs : gmap string pyval) :
  bind_call params kwargs = Ok tt -> part ⊆ params ->
  bind_call part kwargs = Ok tt.
Proof.
  rewrite !bind_call_Ok. intros Hall Hsub p Hp. by apply Hall, Hsub.
Qed.

Lemma bind_keywords_parameter_names (kwargs : gmap string pyval) :
  bind_call parameter_names kwargs = Ok tt -> bind_keywords kwargs = Ok tt.
Proof.
  rewrite bind_call_Ok. intros Hall. unfold bind_keywords.
  by rewrite !Hall by (unfold parameter_names; in_list).
Qed.

Lemma bind_run_algo_parameter_names (kwargs : gmap string pyval) :
  bind_call parameter_names kwargs = Ok tt ->
  bind_call ["self"; "algorithm"; "prisoners"; "envelopes"]%string kwargs
  = Ok tt.
Proof.
  intros H. apply (bind_call_part _ _ _ H).
  intros p Hp. unfold parameter_names. in_list_of Hp.
Qed.

Lemma bind_run_algos_parameter_names (kwargs : gmap string pyval) :
  bind_call parameter_names kwargs = Ok tt ->
  bind_call ["self"; "algorithms"; "prisoners"; "envelopes"]%string kwargs
  = Ok tt.
Proof.
  intros H. apply (bind_call_part _ _ _ H).
  intros p Hp. unfold parameter_names. in_list_of Hp.
Qed.

Lemma bind_Trial_parameter_names (kwargs : gmap string pyval) :
  bind_call parameter_names kwargs = Ok tt ->
  bind_call ["self"; "nPrisoners"; "algorithms"]%string kwargs = Ok tt.
Proof.
  intros H. apply (bind_call_part _ _ _ H).
  intros p Hp. unfold parameter_names. in_list_of Hp.
Qed.

(** On an assignment, with fuel for its length, [select] returns for
    every searcher that has a slot. *)
Lemma select_returns (algo : algorithm) (fuel : nat) (r : rng) (p n : Z)
    (envelopes : list Z) (kwargs : gmap string pyval) :
  assignment envelopes -> np.len envelopes = n ->
  constructible kwargs n ->
  0 <= p < n -> (Z.to_nat n <= fuel)%nat ->
  exists out, select algo fuel r p envelopes kwargs = Ok out.
Proof.
  intros Ha Hlen [Hbind [attempts Hatt]] Hp Hfuel. unfold select.
  rewrite (bind_keywords_parameter_names _ Hbind). cbn [bind].
  rewrite (AttemptSchema_len envelopes (np.arange n)), Hatt.
  2:{ rewrite Hlen. unfold np.len, np.arange. rewrite length_seqZ. lia. }
  cbn [bind]. destruct algo.
  - destruct (RandomSelect_loop_returns (Z.to_nat attempts) r p envelopes
                attempts false []) as [out Hout]; [| lia |].
    { unfold np.len in Hlen. lia. }
    unfold RandomSelect_run. rewrite Hout. cbn [bind]. by eexists.
  - destruct (LoopSelect_run_assignment envelopes Ha p) as (d & _ & Hd & Hrun).
    { by rewrite Hlen. }
    rewrite Hrun by (unfold np.len in Hlen; lia). cbn [bind]. by eexists.
Qed.

Section trial_on_assignment.
Variable fuel : nat.
Variable n : Z.
Variable envelopes : list Z.
Variable kwargs : gmap string pyval.
Hypothesis Ha : assignment envelopes.
Hypothesis Hlen : np.len envelopes = n.
Hypothesis Hk : constructible kwargs n.
Hypothesis Hfuel : (Z.to_nat n <= fuel)%nat.

Lemma _run_algo_loop_returns (algo : algorithm) (prisoners : list Z) :
  Forall (fun p => 0 <= p < n) prisoners ->
  forall (r : rng) (acc : algo_result),
    exists out r',
      _run_algo_loop algo fuel r prisoners envelopes kwargs acc
      = Ok (out, r') /\
      length (data out) = (length (data acc) + length prisoners)%nat.
Proof.
  induction 1 as [| p prisoners Hp _ IH]; intros r acc; cbn [_run_algo_loop].
  - exists acc, r. split; [done | cbn; lia].
  - destruct (select_returns algo fuel r p n envelopes kwargs)
      as [[[b ex] r1] ->]; try done.
    cbn [bind fst snd].
    destruct (IH r1 (MkAlgoResult (data acc ++ [b]) (add_extras ex (extra acc))))
      as (out & r' & -> & Hout).
    exists out, r'. split; [done |].
    rewrite Hout. cbn [data length]. rewrite length_app. cbn. lia.
Qed.

Lemma _run_algos_returns (prisoners : list Z) (algos : list algorithm) :
  Forall (fun p => 0 <= p < n) prisoners ->
  forall (r : rng) (res : gmap string algo_result),
    exists res' r',
      _run_algos_loop algos fuel r prisoners envelopes kwargs res
      = Ok (res', r') /\
      (forall k, (exists ar, res !! k = Some ar /\
                             length (data ar) = length prisoners) ->
                 exists ar, res' !! k = Some ar /\
                            length (data ar) = length prisoners) /\
      forall a, a ∈ algos ->
        exists ar, res' !! __name__ a = Some ar /\
                   length (data ar) = length prisoners.
Proof.
  intros Hp. induction algos as [| a algos IH]; intros r res;
    cbn [_run_algos_loop].
  - exists res, r. split_and!; [done | done |]. intros a Ha'. by inversion Ha'.
  - unfold _run_algo.
    rewrite (bind_run_algo_parameter_names _ (proj1 Hk)). cbn [bind].
    destruct (_run_algo_loop_returns a prisoners Hp r (MkAlgoResult [] ∅))
      as (out & r1 & -> & Hout). cbn [bind fst snd].
    destruct (IH r1 (<[__name__ a := out]> res))
      as (res' & r' & -> & Hkeep & Hall).
    exists res', r'. split_and!; [done | |].
    + intros k (ar & Hk' & Har). apply Hkeep.
      rewrite lookup_insert. case_decide; eauto.
    + intros b [-> | Hb]%elem_of_cons; [| by apply Hall].
      apply Hkeep. exists out. split; [apply lookup_insert_eq | done].
Qed.
End trial_on_assignment.

(** ** The tables of a simulation *)

Lemma concat_shape {A : Type} (df : DataFrame A) (name : Z) (series : list A) :
  length (columns (concat df name series)) = S (length (columns df)) /\
  nrows (concat df name series) = Nat.max (nrows df) (length series).
Proof.
  unfold concat. cbn [columns nrows]. split; [| done].
  rewrite length_app, length_fmap. cbn. lia.
Qed.

Global Instance __name___inj : Inj (=) (=) __name__.
Proof. intros [] [] H; done. Qed.

Section store_trials_shape.
Variable i : Z.
Variable trial_result : gmap string algo_result.
Variable rows : nat.

Lemma store_trials_shape (algos : list algorithm) :
  NoDup algos ->
  (forall a, a ∈ algos ->
     exists ar, trial_result !! __name__ a = Some ar /\
                length (data ar) = rows) ->
  forall (res : gmap string tables) (cols rows0 : nat),
    shaped algos res cols rows0 -> (rows0 <= rows)%nat ->
    exists res',
      store_trials i trial_result algos res = Ok res' /\
      shaped algos res' (S cols) rows /\
      forall b, b ∉ algos -> res' !! __name__ b = res !! __name__ b.
Proof.
  induction 1 as [| a algos Hnotin Hnd IH]; intros Htr res cols rows0 Hres Hle;
    cbn [store_trials].
  - exists res. split_and!; [done | | done]. intros a Ha. by inversion Ha.
  - destruct (Hres a) as (t & Ht & Hcols & Hrows); [apply list_elem_of_here |].
    destruct (Htr a) as (ar & Har & Hlen); [apply list_elem_of_here |].
    unfold store_trial. rewrite Ht, Har. cbn [bind].
    set (t' := MkTables _ _).
    destruct (IH (fun b Hb => Htr b (list_elem_of_further _ _ _ Hb))
                (<[__name__ a := t']> res) cols rows0)
      as (res' & -> & Hshape & Hother); [| done |].
    { intros b Hb. destruct (Hres b) as (tb & Htb & Hb1 & Hb2);
        [by apply list_elem_of_further |].
      exists tb. split_and!; [| done | done].
      rewrite lookup_insert_ne; [done |].
      intros Heq. apply (inj __name__) in Heq. by subst. }
    exists res'. split_and!; [done | |].
    + intros b [-> | Hb]%elem_of_cons; [| by apply Hshape].
      exists t'. rewrite (Hother a Hnotin), lookup_insert_eq.
      split; [done |]. unfold t'. cbn [tbl_data].
      destruct (concat_shape (tbl_data t) i (data ar)) as [-> ->]. lia.
    + intros b Hb. apply not_elem_of_cons in Hb as [Hba Hb].
      rewrite (Hother b Hb). apply lookup_insert_ne.
      intros Heq. apply (inj __name__) in Heq. by subst.
Qed.
End store_trials_shape.

(** With a number of trials below 2^53, [int(nTrials/chunks)] is the
    integer quotient. *)
Lemma progress_due_bounded (c : Config) (ch i : Z) :
  _opts c !! "chunks" = Some (PInt ch) ->
  0 <= nTrials c < 2 ^ 53 -> ch <> 0 ->
  progress_due c i
  = if Z.quot (nTrials c) ch =? 0 then Raise ZeroDivisionError
    else Ok (i `mod` Z.quot (nTrials c) ch =? 0).
Proof.
  intros Hch HT Hne. unfold progress_due, getitem. rewrite Hch.
  cbn [bind as_number py_eq negb].
  destruct (div_trunc (nTrials c) ch HT Hne) as (x & Hx & Htr).
  unfold true_div. rewrite Hx. cbn [bind]. by rewrite Htr.
Qed.

Lemma bind_call_delete (params : list string) (k : string)
    (kwargs : gmap string pyval) :
  k ∉ params ->
  bind_call params (delete k kwargs) = Ok tt ->
  bind_call params kwargs = Ok tt.
Proof.
  rewrite !bind_call_Ok. intros Hk Hall p Hp.
  rewrite <- (Hall p Hp). symmetry. apply lookup_delete_ne.
  intros ->. by apply Hk.
Qed.

Section simulation_shape.
Variable c : Config.
Variables ch n : Z.
Variable fuel : nat.
Hypothesis Htrials : 0 <= nTrials c < 2 ^ 53.
Hypothesis Hprisoners : 0 <= nPrisoners c.
Hypothesis Hnodup : NoDup (cfg_algorithms c).
Hypothesis Hchunks : _opts c !! "chunks" = Some (PInt ch).
Hypothesis Hstep : Z.quot (nTrials c) ch <> 0.
Hypothesis Henvelopes : _opts c !! "nEnvelopes" = Some (PInt n).
Hypothesis Henough : nPrisoners c <= n.
Hypothesis Hkwargs :
  constructible (delete "nEnvelopes" (delete "chunks" (_opts c))) n.
Hypothesis Hfuel : (Z.to_nat n <= fuel)%nat.

Lemma progress_due_with_chunks (i : Z) :
  exists due, progress_due c i = Ok due.
Proof.
  rewrite (progress_due_bounded c ch i Hchunks Htrials).
  - destruct (Z.eqb_spec (Z.quot (nTrials c) ch) 0); [done |]. by eexists.
  - intros ->. apply Hstep. by apply Z.quot_0_r_ext.
Qed.

Lemma bind_Trial_options :
  bind_call ["self"; "nPrisoners"; "algorithms"]%string
    (delete "chunks" (_opts c)) = Ok tt.
Proof.
  apply (bind_call_delete _ "nEnvelopes"); [not_in_list |].
  apply bind_Trial_parameter_names, Hkwargs.
Qed.

Lemma simulate_step_shape (st : run_state) (i : Z) (cols rows0 : nat) :
  _config (sim st) = c ->
  shaped (cfg_algorithms c) (_results (sim st)) cols rows0 ->
  (rows0 <= Z.to_nat (nPrisoners c))%nat ->
  exists st',
    simulate_step fuel st i = Ok st' /\
    _config (sim st') = c /\
    shaped (cfg_algorithms c) (_results (sim st')) (S cols)
      (Z.to_nat (nPrisoners c)).
Proof.
  intros Hc Hshape Hrows. unfold simulate_step. rewrite Hc.
  destruct (progress_due_with_chunks i) as [due ->]. cbn [bind].
  unfold getitem. rewrite Hchunks. cbn [bind].
  rewrite bind_Trial_options. cbn [bind].
  unfold Trial_init. rewrite lookup_delete_ne, Henvelopes by done.
  cbn [arange_stop as_number].
  destruct (shuffle_arange_assignment (np_random st) n) as [Ha Hlen]; [lia |].
  destruct (shuffle (np_random st) (np.arange n)) as [envelopes nr'].
  cbn [fst] in Ha, Hlen. cbn [bind fst snd].
  unfold run_all, _run_algos.
  cbn [_algorithms _prisoners _envelopes _kwargs].
  rewrite (bind_run_algos_parameter_names _ (proj1 Hkwargs)). cbn [bind].
  destruct (_run_algos_returns fuel n envelopes
              (delete "nEnvelopes" (delete "chunks" (_opts c)))
              Ha Hlen Hkwargs Hfuel (np.arange (nPrisoners c))
              (cfg_algorithms c)) with (r := py_random st) (res := ∅ : gmap string algo_result)
    as (tr & r' & -> & _ & Htr).
  { apply Forall_forall. intros p Hp. unfold np.arange in Hp.
    apply elem_of_seqZ in Hp. lia. }
  cbn [bind fst snd].
  destruct (store_trials_shape i tr (Z.to_nat (nPrisoners c))
              (cfg_algorithms c) Hnodup) with
    (res := _results (sim st)) (cols := cols) (rows0 := rows0)
    as (res' & -> & Hres' & _); try done.
  { intros a Ha'. destruct (Htr a Ha') as (ar & Har & Hl).
    exists ar. split; [done |]. rewrite Hl. unfold np.arange.
    by rewrite length_seqZ. }
  cbn [bind]. eexists. split; [reflexivity |]. by cbn [sim _config _results].
Qed.

Lemma simulate_loop_shape (trials : list Z) :
  forall (st : run_state) (cols rows0 : nat),
    _config (sim st) = c ->
    shaped (cfg_algorithms c) (_results (sim st)) cols rows0 ->
    (rows0 <= Z.to_nat (nPrisoners c))%nat ->
    exists st',
      simulate_loop fuel trials st = Ok st' /\
      _config (sim st') = c /\
      shaped (cfg_algorithms c) (_results (sim st'))
        (cols + length trials)
        (match trials with [] => rows0 | _ => Z.to_nat (nPrisoners c) end).
Proof.
  induction trials as [| i trials IH]; intros st cols rows0 Hc Hshape Hrows;
    cbn [simulate_loop].
  - exists st. rewrite Nat.add_0_r. by split_and!.
  - destruct (simulate_step_shape st i cols rows0 Hc Hshape Hrows)
      as (st1 & -> & Hc1 & Hshape1). cbn [bind].
    destruct (IH st1 (S cols) (Z.to_nat (nPrisoners c)) Hc1 Hshape1)
      as (st' & -> & Hc' & Hshape'); [lia |].
    exists st'. split_and!; [done | done |].
    cbn [length]. rewrite Nat.add_succ_r.
    by destruct trials.
Qed.
End simulation_shape.

Lemma init_results_shaped (c : Config) :
  shaped (cfg_algorithms c) (_results (Simulation_init c)) 0 0.
Proof.
  intros a Ha. exists (MkTables empty_frame ∅).
  split; [| done]. by apply init_results_lookup.
Qed.

(** The claim as worded fails where a strategy is configured twice: the
    table of a strategy is keyed by the name of its class, and after 1
    trial the table of [LoopSelect] has 2 columns. *)
Lemma repeated_strategy_gets_two_columns_a_trial :
  exists c w st',
    Config_init (PInt 2) (PInt 1) [LoopSelect; LoopSelect]
      {[ "lower" := PBool true; "chunks" := PInt 1 ]} = Ok (c, w) /\
    nTrials c = 1 /\ nPrisoners c = 2 /\
    simulate 2 (MkRun (Simulation_init c) (fun _ => O) (fun k => k) [])
    = Ok st' /\
    (fun t => (length (columns (tbl_data t)), nrows (tbl_data t)))
      <$> _results (sim st') !! "LoopSelect" = Some (2%nat, 2%nat).
Proof.
  do 3 eexists.
  split_and!; [reflexivity | done | done | by vm_compute | reflexivity].
Qed.

(** C4 (amended).  On a verified configuration with [T >= 1] trials,
    [T] below 2^53, [S] searchers, strategies that are pairwise distinct,
    a cadence given as an integer [ch] with [int(T / ch)] other than 0,
    at least [S] slots, and keywords from which a strategy instance can
    be built (none of them names a parameter of a call the options are
    passed to, and the budget is defined), [simulate] completes, given
    fuel for the slot count, and the table of every configured strategy
    has exactly [T] columns and exactly [S] rows. *)
Theorem simulate_tables_have_T_columns_S_rows
    (c : Config) (ch n : Z) (fuel : nat) (r nr : rng) (log : list event) :
  1 <= nTrials c < 2 ^ 53 ->
  0 <= nPrisoners c ->
  NoDup (cfg_algorithms c) ->
  _opts c !! "chunks" = Some (PInt ch) ->
  Z.quot (nTrials c) ch <> 0 ->
  _opts c !! "nEnvelopes" = Some (PInt n) ->
  nPrisoners c <= n ->
  constructible (delete "nEnvelopes" (delete "chunks" (_opts c))) n ->
  (Z.to_nat n <= fuel)%nat ->
  exists st',
    simulate fuel (MkRun (Simulation_init c) r nr log) = Ok st' /\
    shaped (cfg_algorithms c) (_results (sim st'))
      (Z.to_nat (nTrials c)) (Z.to_nat (nPrisoners c)).
Proof.
  intros HT HS Hnd Hch Hstep Hn HSn Hk Hfuel. unfold simulate.
  change (_config (sim (MkRun (Simulation_init c) r nr log))) with c.
  destruct (simulate_loop_shape c ch n fuel ltac:(lia) HS Hnd Hch Hstep Hn
              HSn Hk Hfuel (seqZ 0 (nTrials c))
              (MkRun (Simulation_init c) r nr log) 0%nat 0%nat)
    as (st' & Hloop & Hc & Hshape); [done | apply init_results_shaped | lia |].
  rewrite Hloop. cbn [bind].
  unfold getitem. rewrite Hch. cbn [bind py_eq as_number negb].
  destruct (Z.ltb_spec 0 (nTrials c)); [| lia].
  eexists. split; [reflexivity |]. cbn [sim].
  rewrite length_seqZ in Hshape. cbn [Nat.add] in Hshape.
  rewrite seqZ_cons in Hshape by lia. exact Hshape.
Qed.

Lemma simulate_tables_have_T_columns_S_rows_witness :
  exists st',
    simulate 4
      (MkRun (Simulation_init
                (MkConfig 3 2 [RandomSelect; LoopSelect]
                   {[ "lower" := PBool true; "chunks" := PInt 1;
                      "nEnvelopes" := PInt 4;
                      "schema" := PStr "default" ]}))
         (fun k => k) (fun k => k) []) = Ok st' /\
    shaped [RandomSelect; LoopSelect] (_results (sim st')) 2 3.
Proof.
  apply (simulate_tables_have_T_columns_S_rows
           (MkConfig 3 2 [RandomSelect; LoopSelect]
              {[ "lower" := PBool true; "chunks" := PInt 1;
                 "nEnvelopes" := PInt 4; "schema" := PStr "default" ]})
           1 4 4 (fun k => k) (fun k => k) []).
  - cbn. lia.
  - cbn. lia.
  - cbn. apply NoDup_cons_2; [| apply NoDup_singleton].
    by intros ?%list_elem_of_singleton.
  - reflexivity.
  - by vm_compute.
  - reflexivity.
  - cbn. lia.
  - split; [reflexivity |]. exists 2. reflexivity.
  - lia.
Defined.

(** The options of a trial are passed on as keywords.  One that is
    named like a parameter of [_run_algo] stops the first trial. *)
Example option_named_algorithm_raises :
  simulate 4
    (MkRun (Simulation_init
              (MkConfig 3 2 [LoopSelect]
                 {[ "lower" := PBool true; "chunks" := PInt 1;
                    "nEnvelopes" := PInt 4; "schema" := PStr "default";
                    "algorithm" := PInt 0 ]}))
       (fun k => k) (fun k => k) [])
  = Raise TypeError.
Proof. by vm_compute. Qed.

(** The step of the progress lines is computed in floats: 2^60 over
    2^60 + 1 is the float 1, and 10^400 is too large for a float. *)
Example progress_step_is_rounded :
  progress_due (MkConfig 1 (2 ^ 60) [] {[ "chunks" := PInt (2 ^ 60 + 1) ]}) 5
  = Ok true.
Proof. by vm_compute. Qed.

Example progress_quotient_overflows :
  progress_due (MkConfig 1 (10 ^ 400) [] {[ "chunks" := PInt 1 ]}) 0
  = Raise OverflowError.
Proof. by vm_compute. Qed.

(** * Further properties of the code *)

(** ** LoopSelect *)

Lemma follow_add (a : list Z) (p : Z) (k m : nat) :
  follow a p (k + m) = follow a (follow a p m) k.
Proof.
  unfold follow. induction k as [| k IH]; [done |].
  change (S k + m)%nat with (S (k + m)). cbn [Nat.iter nat_rect].
  unfold Nat.iter in IH. by rewrite IH.
Qed.

(** On an assignment the distance of a searcher is unique, and any distance
    decides the run. *)
Lemma LoopSelect_run_distance (a : list Z) (p : Z) (d : nat) :
  assignment a -> 0 <= p < np.len a -> distance a p d ->
  forall fuel attempts, (d <= fuel)%nat ->
    LoopSelect_run fuel p a attempts
    = Ok (Z.of_nat d <? attempts, Z.of_nat d).
Proof.
  intros Ha Hp Hd fuel attempts Hfuel. unfold LoopSelect_run.
  pose proof (LoopSelect_loop_walk a Ha p Hp d Hd fuel O attempts) as Hrun.
  change (follow a p 0) with p in Hrun. change (Z.of_nat 0) with 0 in Hrun.
  rewrite Hrun by (destruct Hd; lia).
  rewrite Nat.sub_0_r. f_equal. f_equal.
  destruct (Z.ltb_spec (Z.of_nat d) attempts),
    (Z.gtb_spec (attempts - Z.of_nat d) 0); try reflexivity; lia.
Qed.

Lemma distance_along_walk (a : list Z) (p : Z) (d k : nat) :
  assignment a -> 0 <= p < np.len a -> distance a p d ->
  distance a (follow a p k) d.
Proof.
  intros Ha Hp (Hd0 & Hback & Hfirst). split; [done | split].
  - rewrite <- follow_add, Nat.add_comm, follow_add. by rewrite Hback.
  - intros m Hm Hret. apply (Hfirst m Hm).
    apply (follow_cancel a Ha p Hp k). rewrite Nat.add_comm, follow_add.
    by rewrite Hret.
Qed.

Lemma assignment_example : assignment [1; 2; 0; 4; 3].
Proof.
  unfold assignment. vm_compute.
  apply NoDup_Permutation.
  - by apply (bool_decide_unpack _).
  - by apply (bool_decide_unpack _).
  - intros x. rewrite !elem_of_cons, !elem_of_nil. lia.
Qed.

(** X1.  On every assignment and for every searcher that has a slot,
    [LoopSelect._run] returns as soon as it has fuel for the distance [d]
    of the searcher, which is at most the number of slots; it reports
    success exactly when [d < attempts] and [loop_size = d], whatever the
    budget. *)
Theorem LoopSelect_returns_distance (a : list Z) (p : Z) :
  assignment a -> 0 <= p < np.len a ->
  exists d, distance a p d /\ (d <= length a)%nat /\
    forall fuel attempts, (d <= fuel)%nat ->
      LoopSelect_run fuel p a attempts
      = Ok (Z.of_nat d <? attempts, Z.of_nat d).
Proof. intros Ha Hp. by apply LoopSelect_run_assignment. Qed.

Lemma LoopSelect_returns_distance_witness :
  exists d, distance [1; 2; 0; 4; 3] 0 d /\ (d <= 5)%nat /\
    forall fuel attempts, (d <= fuel)%nat ->
      LoopSelect_run fuel 0 [1; 2; 0; 4; 3] attempts
      = Ok (Z.of_nat d <? attempts, Z.of_nat d).
Proof.
  apply (LoopSelect_returns_distance [1; 2; 0; 4; 3] 0);
    [apply assignment_example | by vm_compute].
Defined.

(** X2.  On an assignment, every searcher met on the walk of a searcher
    [p] gets the result of [p]: the same flag and the same [loop_size]. *)
Theorem LoopSelect_same_on_a_cycle (a : list Z) (p : Z) (k fuel : nat)
    (attempts : Z) :
  assignment a -> 0 <= p < np.len a -> (length a <= fuel)%nat ->
  LoopSelect_run fuel (follow a p k) a attempts
  = LoopSelect_run fuel p a attempts.
Proof.
  intros Ha Hp Hfuel.
  destruct (distance_exists a Ha p Hp) as (d & Hd & Hle).
  rewrite (LoopSelect_run_distance a p d Ha Hp Hd) by lia.
  apply LoopSelect_run_distance; [done | | | lia].
  - by apply follow_in_range.
  - by apply distance_along_walk.
Qed.

Lemma LoopSelect_same_on_a_cycle_witness :
  LoopSelect_run 5 (follow [1; 2; 0; 4; 3] 0 2) [1; 2; 0; 4; 3] 4
  = LoopSelect_run 5 0 [1; 2; 0; 4; 3] 4.
Proof.
  apply (LoopSelect_same_on_a_cycle [1; 2; 0; 4; 3] 0 2 5 4);
    [apply assignment_example | by vm_compute | cbn; lia].
Defined.

Lemma LoopSelect_loop_small_budget (fuel : nat) :
  forall p a attempts check loop_size b k,
    attempts <= 1 ->
    LoopSelect_loop fuel p a attempts check loop_size = Ok (b, k) ->
    b = false.
Proof.
  induction fuel as [| fuel IH]; intros p a attempts check loop_size b k Hatt;
    cbn [LoopSelect_loop]; [done |].
  destruct (np.getitem a check) as [c | e |]; cbn [bind]; [| done | done].
  destruct (p =? c).
  - destruct (Z.gtb_spec (attempts - 1) 0); [lia |]. congruence.
  - apply IH. lia.
Qed.

(** X3.  With a budget of 1 or less [LoopSelect._run] never reports
    success, on any array: a searcher whose own slot holds its number is
    reported as failed. *)
Theorem LoopSelect_budget_one_fails (fuel : nat) (p : Z) (a : list Z)
    (attempts : Z) (b : bool) (k : Z) :
  attempts <= 1 ->
  LoopSelect_run fuel p a attempts = Ok (b, k) ->
  b = false.
Proof. intros Hatt. apply LoopSelect_loop_small_budget. exact Hatt. Qed.

Lemma LoopSelect_budget_one_fails_witness :
  1 <= 1 /\ LoopSelect_run 1 0 [0; 1] 1 = Ok (false, 1) /\ false = false.
Proof.
  split; [lia |]. split; [reflexivity |].
  apply (LoopSelect_budget_one_fails 1 0 [0; 1] 1 false 1); [lia | reflexivity].
Defined.

Lemma LoopSelect_loop_budget_free (fuel : nat) :
  forall p a att1 att2 check loop_size b1 k,
    LoopSelect_loop fuel p a att1 check loop_size = Ok (b1, k) ->
    exists b2,
      LoopSelect_loop fuel p a att2 check loop_size = Ok (b2, k) /\
      loop_size < k /\
      (att1 <= att2 -> b1 = true -> b2 = true).
Proof.
  induction fuel as [| fuel IH]; intros p a att1 att2 check loop_size b1 k;
    cbn [LoopSelect_loop]; [done |].
  destruct (np.getitem a check) as [c | e |]; cbn [bind]; [| done | done].
  destruct (p =? c).
  - intros Hrun.
    destruct (Z.gtb_spec (att1 - 1) 0), (Z.gtb_spec (att2 - 1) 0);
      injection Hrun as <- <-; eexists; (split; [reflexivity |]);
      (split; [lia |]); intros; done || lia.
  - intros Hrun. destruct (IH _ _ _ (att2 - 1) _ _ _ _ Hrun)
      as (b2 & Hrun2 & Hk & Hmono).
    exists b2. split; [done |]. split; [lia |]. intros. apply Hmono; [lia | done].
Qed.

(** X4.  The [loop_size] that [LoopSelect._run] reports does not depend
    on the budget and is at least 1, on any array; and a run that succeeds
    with some budget succeeds with every larger one. *)
Theorem LoopSelect_loop_size_ignores_budget (fuel : nat) (p : Z) (a : list Z)
    (att1 att2 : Z) (b1 : bool) (k : Z) :
  LoopSelect_run fuel p a att1 = Ok (b1, k) ->
  exists b2,
    LoopSelect_run fuel p a att2 = Ok (b2, k) /\
    1 <= k /\
    (att1 <= att2 -> b1 = true -> b2 = true).
Proof.
  intros Hrun.
  destruct (LoopSelect_loop_budget_free fuel p a att1 att2 p 0 b1 k Hrun)
    as (b2 & Hrun2 & Hk & Hmono).
  exists b2. split; [done |]. split; [lia | done].
Qed.

Lemma LoopSelect_loop_size_ignores_budget_witness :
  LoopSelect_run 5 0 [1; 2; 0; 4; 3] 4 = Ok (true, 3) /\
  exists b2,
    LoopSelect_run 5 0 [1; 2; 0; 4; 3] 2 = Ok (b2, 3) /\
    1 <= 3 /\ (4 <= 2 -> true = true -> b2 = true).
Proof.
  split; [reflexivity |].
  apply (LoopSelect_loop_size_ignores_budget 5 0 [1; 2; 0; 4; 3] 4 2 true 3).
  reflexivity.
Defined.

(** ** RandomSelect *)

Lemma RandomSelect_loop_done (fuel : nat) r p u attempts log :
  RandomSelect_loop fuel r p u attempts true log = Ok (true, log, r).
Proof. by destruct fuel. Qed.

Lemma RandomSelect_loop_log (fuel : nat) :
  forall r p u attempts log0 s log r',
    RandomSelect_loop fuel r p u attempts false log0 = Ok (s, log, r') ->
    exists new,
      log = log0 ++ new /\
      Z.of_nat (length new) <= Z.max 0 attempts /\
      if s : bool
      then exists pre o, new = pre ++ [o] /\ check o = p /\
                         Forall (fun o' => check o' <> p) pre
      else Forall (fun o' => check o' <> p) new /\
           Z.of_nat (length new) = Z.max 0 attempts.
Proof.
  induction fuel as [| fuel IH]; intros r p u attempts log0 s log r';
    cbn [RandomSelect_loop negb andb].
  - destruct (Z.gtb_spec attempts 0); [done |]. intros [= <- <- <-].
    exists []. rewrite app_nil_r. cbn. split_and!; [done | lia | done | lia].
  - destruct (Z.gtb_spec attempts 0) as [Hpos | Hneg].
    2:{ intros [= <- <- <-]. exists []. rewrite app_nil_r. cbn.
        split_and!; [done | lia | done | lia]. }
    destruct (random_choice_range r (length u)) as [[g r1] | e |];
      cbn [bind fst snd]; [| done | done].
    destruct (RandomSelect_body u g) as [[c u'] | e |];
      cbn [bind fst snd]; [| done | done].
    destruct (Z.eqb_spec p c) as [<- | Hne].
    + rewrite RandomSelect_loop_done. intros [= <- <- <-].
      exists [Opening u g p]. split_and!; [done | cbn; lia |].
      exists [], (Opening u g p). by split_and!.
    + intros Hrun. apply IH in Hrun as (new & -> & Hlen & Hs).
      exists (Opening u g c :: new). rewrite <- app_assoc. cbn [app length].
      split_and!; [done | lia |].
      destruct s.
      * destruct Hs as (pre & o & -> & Ho & Hpre).
        exists (Opening u g c :: pre), o. split_and!; [done | done |].
        constructor; [cbn; congruence | done].
      * destruct Hs as [Hall Hlen']. split; [| lia].
        constructor; [cbn; congruence | done].
Qed.

(** X5.  [RandomSelect._run] opens at most [attempts] slots (none when the
    budget is 0 or less), stops at the first opening that reveals the
    searcher's number, and reports success exactly then; a run that fails
    has used the whole budget without revealing the number. *)
Theorem RandomSelect_uses_its_budget (r : rng) (p : Z) (u : list Z)
    (attempts : Z) (s : bool) (log : list opening) (r' : rng) :
  RandomSelect_run r p u attempts = Ok (s, log, r') ->
  Z.of_nat (length log) <= Z.max 0 attempts /\
  if s
  then exists pre o, log = pre ++ [o] /\ check o = p /\
                     Forall (fun o' => check o' <> p) pre
  else Forall (fun o' => check o' <> p) log /\
       Z.of_nat (length log) = Z.max 0 attempts.
Proof.
  intros Hrun. apply RandomSelect_loop_log in Hrun as (new & -> & Hlen & Hs).
  done.
Qed.

Lemma RandomSelect_uses_its_budget_witness :
  exists log r',
    RandomSelect_run (fun _ => 2%nat) 3 [1; 0; 3; 2] 2 = Ok (true, log, r') /\
    Z.of_nat (length log) <= Z.max 0 2 /\
    exists pre o, log = pre ++ [o] /\ check o = 3 /\
                  Forall (fun o' => check o' <> 3) pre.
Proof.
  do 2 eexists. split; [reflexivity |].
  eapply (RandomSelect_uses_its_budget (fun _ => 2%nat) 3 [1; 0; 3; 2] 2 true).
  reflexivity.
Defined.

Lemma RandomSelect_body_within (u : list Z) (g : nat) (c : Z) (u' : list Z) :
  RandomSelect_body u g = Ok (c, u') -> c ∈ u /\ u' ⊆ u.
Proof.
  unfold RandomSelect_body, np.getitem.
  destruct (_ && _); [| done].
  destruct (u !! _) as [v |] eqn:Hv; cbn [bind]; [| done].
  intros [= <- <-]. split; [by eapply list_elem_of_lookup_2 |].
  unfold np.append, np.slice_to, np.slice_from.
  intros x [Hx | Hx]%elem_of_app.
  - by eapply subseteq_take.
  - by eapply subseteq_drop.
Qed.

Lemma RandomSelect_loop_within (u0 : list Z) (fuel : nat) :
  forall r p u attempts s0 log0 s log r',
    u ⊆ u0 ->
    Forall (fun o => check o ∈ u0) log0 ->
    RandomSelect_loop fuel r p u attempts s0 log0 = Ok (s, log, r') ->
    Forall (fun o => check o ∈ u0) log.
Proof.
  induction fuel as [| fuel IH]; intros r p u attempts s0 log0 s log r' Hu Hlog;
    cbn [RandomSelect_loop].
  - destruct (negb s0 && (attempts >? 0)); [done |]. by intros [= <- <- <-].
  - destruct (negb s0 && (attempts >? 0)); [| by intros [= <- <- <-]].
    destruct (random_choice_range r (length u)) as [[g r1] | e |];
      cbn [bind fst snd]; [| done | done].
    destruct (RandomSelect_body u g) as [[c u'] | e |] eqn:Hbody;
      cbn [bind fst snd]; [| done | done].
    apply RandomSelect_body_within in Hbody as [Hc Hu'].
    apply IH; [by etrans |].
    apply Forall_app. split; [done |]. constructor; [cbn; by apply Hu | done].
Qed.

(** X6.  Every content [RandomSelect._run] reveals is a content of the
    array it was given, so it reports success only for a searcher whose
    number is in the array. *)
Theorem RandomSelect_finds_only_what_is_there (r : rng) (p : Z) (u : list Z)
    (attempts : Z) (s : bool) (log : list opening) (r' : rng) :
  RandomSelect_run r p u attempts = Ok (s, log, r') ->
  Forall (fun o => check o ∈ u) log /\ (s = true -> p ∈ u).
Proof.
  intros Hrun.
  assert (Forall (fun o => check o ∈ u) log) as Hall.
  { eapply RandomSelect_loop_within; [| | exact Hrun]; done. }
  split; [done |]. intros ->.
  apply RandomSelect_loop_log in Hrun as (new & -> & _ & pre & o & -> & <- & _).
  rewrite Forall_forall in Hall. apply Hall. set_solver.
Qed.

Lemma RandomSelect_finds_only_what_is_there_witness :
  exists log r',
    RandomSelect_run (fun _ => 2%nat) 3 [1; 0; 3; 2] 2 = Ok (true, log, r') /\
    Forall (fun o => check o ∈ [1; 0; 3; 2]) log /\
    (true = true -> 3 ∈ [1; 0; 3; 2]).
Proof.
  do 2 eexists. split; [reflexivity |].
  eapply (RandomSelect_finds_only_what_is_there (fun _ => 2%nat) 3 [1; 0; 3; 2] 2).
  reflexivity.
Defined.

(** X7.  On an array that is not empty [RandomSelect._run] returns a flag,
    whatever the budget and the draws.  On the empty array it raises
    [IndexError] at the first draw when the budget is positive, and
    returns failure without drawing otherwise. *)
Theorem RandomSelect_returns_unless_empty (r : rng) (p : Z) (u : list Z)
    (attempts : Z) :
  match u with
  | [] =>
      RandomSelect_run r p u attempts
      = if 0 <? attempts then Raise IndexError else Ok (false, [], r)
  | _ => exists out, RandomSelect_run r p u attempts = Ok out
  end.
Proof.
  destruct u as [| x u].
  - unfold RandomSelect_run.
    destruct (Z.ltb_spec 0 attempts) as [Hpos | Hneg].
    + destruct (Z.to_nat attempts) as [| fuel] eqn:Hf; [lia |].
      cbn [RandomSelect_loop negb andb].
      by destruct (Z.gtb_spec attempts 0); [| lia].
    + replace (Z.to_nat attempts) with O by lia.
      cbn [RandomSelect_loop negb andb].
      by destruct (Z.gtb_spec attempts 0); [lia |].
  - apply RandomSelect_loop_returns; [cbn; lia | lia].
Qed.

(** ** AttemptSchema *)

Lemma modified_floor_div (n d : Z) :
  0 <= n < 2 ^ 53 -> d <> 0 -> Z.abs d < 2 ^ 53 ->
  _modified n (PInt d) (PBool true) = Ok (n `div` d).
Proof.
  intros Hn Hd Hdb. rewrite modified_bounded by done. by rewrite round_exact.
Qed.

Lemma modified_ceil_div (n d : Z) :
  0 <= n < 2 ^ 53 -> d <> 0 -> Z.abs d < 2 ^ 53 ->
  _modified n (PInt d) (PBool false) = Ok (- ((- n) `div` d)).
Proof.
  intros Hn Hd Hdb. rewrite modified_bounded by done. by rewrite round_exact.
Qed.

(** X8.  For a slot count below 2^53 and a divisor other than 0 and
    below 2^53 in absolute value, the budget rounded up is the budget
    rounded down or one more, and the two are equal exactly when the
    divisor divides the slot count; hence for an even slot count the
    default budget is half the slot count whatever ['lower'] holds. *)
Theorem rounding_direction_matters_only_off_multiples (n d : Z)
    (param lower : pyval) :
  0 <= n < 2 ^ 53 -> d <> 0 -> Z.abs d < 2 ^ 53 ->
  _modified n (PInt d) (PBool true) = Ok (n `div` d) /\
  (exists hi, _modified n (PInt d) (PBool false) = Ok hi /\
              n `div` d <= hi <= n `div` d + 1 /\
              (hi = n `div` d <-> n `mod` d = 0)) /\
  (n `mod` 2 = 0 -> _default n param lower = Ok (n `div` 2)).
Proof.
  intros Hn Hd Hdb. split; [by apply modified_floor_div |]. split.
  - exists (- ((- n) `div` d)). split; [by apply modified_ceil_div |].
    destruct (decide (n `mod` d = 0)) as [Hz | Hnz].
    + rewrite Z.div_opp_l_z by done. split; [lia |].
      split; intros; (lia || congruence).
    + rewrite Z.div_opp_l_nz by done. split; [lia |].
      split; intros; (lia || congruence).
  - intros Heven. unfold _default, true_div.
    destruct (div_floor_ceil n 2 Hn) as (x & -> & Hfl & Hce); [done | done |].
    cbn [bind]. f_equal. unfold _round.
    rewrite Z.div_opp_l_z in Hce by done.
    destruct (py_eq lower (PBool true)); lia.
Qed.

Lemma rounding_direction_matters_only_off_multiples_witness :
  0 <= 7 < 2 ^ 53 /\ 3 <> 0 /\ Z.abs 3 < 2 ^ 53 /\
  _modified 7 (PInt 3) (PBool true) = Ok (7 `div` 3) /\
  (exists hi, _modified 7 (PInt 3) (PBool false) = Ok hi /\
              7 `div` 3 <= hi <= 7 `div` 3 + 1 /\
              (hi = 7 `div` 3 <-> 7 `mod` 3 = 0)) /\
  (7 `mod` 2 = 0 -> _default 7 PNone (PStr "up") = Ok (7 `div` 2)).
Proof.
  split; [lia |]. split; [lia |]. split; [lia |].
  apply (rounding_direction_matters_only_off_multiples 7 3 PNone (PStr "up"));
    lia.
Defined.

(** ** Config: what the verifier leaves in the options *)

Lemma verify_lower_lower (nP : Z) (o : gmap string pyval) :
  fst (verify_lower nP o) !! "lower"
  = match o !! "lower" with
    | Some (PBool b) => Some (PBool b)
    | Some _ => Some (PBool true)
    | None => if nP `mod` 2 =? 1 then Some (PBool true) else None
    end.
Proof.
  unfold verify_lower.
  destruct (o !! "lower") as [[| b | z | s] |] eqn:Hl; cbn [is_bool fst];
    rewrite ?lookup_insert_eq; try done.
  destruct (nP `mod` 2 =? 1); cbn [fst]; by rewrite ?lookup_insert_eq.
Qed.

Lemma verify_chunks_value (o : gmap string pyval) :
  fst (verify_chunks o) !! "chunks"
  = Some (match o !! "chunks" ≫= as_number with
          | Some z => if z =? 0 then PNone else PInt z
          | None => PNone
          end).
Proof.
  unfold verify_chunks.
  destruct (o !! "chunks") as [[| b | z | s] |] eqn:Hc; cbn;
    rewrite ?lookup_insert_eq; try done.
  - by destruct b; cbn; rewrite lookup_insert_eq.
  - unfold py_eq. cbn [as_number].
    by destruct (Z.eqb_spec z 0); cbn; rewrite lookup_insert_eq.
Qed.

Lemma verify_schema_schema (o : gmap string pyval) :
  fst (verify_schema o) !! "schema"
  = Some (match o !! "schema" with
          | Some (PStr s) =>
              if String.eqb s "modified" then PStr "modified"
              else PStr "default"
          | _ => PStr "default"
          end).
Proof.
  unfold verify_schema.
  destruct (o !! "schema") as [v |] eqn:Hs.
  - rewrite Hs. destruct v as [| b | z | s];
      [by cbn; rewrite lookup_insert_eq ..|].
    unfold schemas, existsb, py_eq. cbn [as_number].
    destruct (String.eqb_spec s "default") as [-> | Hd]; cbn; [done |].
    destruct (String.eqb_spec s "modified") as [-> | Hm]; cbn; [done |].
    by rewrite lookup_insert_eq.
  - rewrite lookup_insert_eq. cbn. by rewrite lookup_insert_eq.
Qed.

(** The ['nEnvelopes'] block leaves a ['chunks'] entry that is [None] or
    an integer as it is. *)
Lemma verify_nEnvelopes_chunks (nP : Z) (m o3 : gmap string pyval) w3 c :
  m !! "chunks" = Some c -> (c = PNone \/ exists z, c = PInt z) ->
  verify_nEnvelopes nP m = Ok (o3, w3) ->
  o3 !! "chunks" = Some c.
Proof.
  intros Hc Hform. unfold verify_nEnvelopes. rewrite Hc.
  destruct (m !! "nEnvelopes") as [[| b | z | s] |];
    destruct Hform as [-> | [z' ->]]; cbn; intros H; simplify_eq;
    by rewrite ?lookup_insert_eq, ?lookup_insert_ne.
Qed.

Lemma verify_nEnvelopes_value (nP : Z) (m o3 : gmap string pyval) w3 c :
  m !! "chunks" = Some c -> (c = PNone \/ exists z, c = PInt z) ->
  verify_nEnvelopes nP m = Ok (o3, w3) ->
  o3 !! "nEnvelopes"
  = Some (match m !! "nEnvelopes" with
          | Some (PBool b) => PBool b
          | Some (PInt z) => PInt z
          | _ => PInt nP
          end).
Proof.
  intros Hc Hform. unfold verify_nEnvelopes. rewrite Hc.
  destruct (m !! "nEnvelopes") as [[| b | z | s] |] eqn:He;
    destruct Hform as [-> | [z' ->]]; cbn; intros H; simplify_eq;
    by rewrite ?lookup_insert_eq, ?lookup_insert_ne, ?He.
Qed.

Lemma verify_enough_envelopes_value (nP : Z) (m o4 : gmap string pyval) w4 :
  verify_enough_envelopes nP m = Ok (o4, w4) ->
  exists v e, m !! "nEnvelopes" = Some v /\ as_number v = Some e /\
    o4 !! "nEnvelopes" = Some (if e <? nP then PInt nP else v).
Proof.
  unfold verify_enough_envelopes.
  destruct (m !! "nEnvelopes") as [v |] eqn:Hv; [| done].
  destruct (as_number v) as [e |] eqn:He; [| done].
  intros H. exists v, e. split_and!; [done | done |].
  destruct (e <? nP); simplify_eq; by rewrite ?lookup_insert_eq.
Qed.

Section verified_options.
Variable p : Z.
Variables kwargs opts : gmap string pyval.
Variable w : list warning.
Hypothesis Hv : _verify_opts p kwargs = Ok (opts, w).

Lemma verified_other (k : string) :
  k <> "lower"%string -> k <> "chunks"%string ->
  k <> "nEnvelopes"%string -> k <> "schema"%string ->
  opts !! k = kwargs !! k.
Proof.
  intros H1 H2 H3 H4.
  destruct (_verify_opts_stages _ _ _ _ Hv)
    as (o3 & w3 & o4 & w4 & Hs3 & Hs4 & ->).
  rewrite verify_schema_other by done.
  rewrite (verify_enough_envelopes_other _ _ _ _ _ Hs4) by done.
  rewrite (verify_nEnvelopes_other _ _ _ _ _ Hs3) by done.
  rewrite verify_chunks_other by done.
  by rewrite verify_lower_other.
Qed.

Lemma verified_lower :
  opts !! "lower"
  = match kwargs !! "lower" with
    | Some (PBool b) => Some (PBool b)
    | Some _ => Some (PBool true)
    | None => if p `mod` 2 =? 1 then Some (PBool true) else None
    end.
Proof.
  destruct (_verify_opts_stages _ _ _ _ Hv)
    as (o3 & w3 & o4 & w4 & Hs3 & Hs4 & ->).
  rewrite verify_schema_other by done.
  rewrite (verify_enough_envelopes_other _ _ _ _ _ Hs4) by done.
  rewrite (verify_nEnvelopes_other _ _ _ _ _ Hs3) by done.
  rewrite verify_chunks_other by done.
  apply verify_lower_lower.
Qed.

Lemma verified_chunks :
  opts !! "chunks"
  = Some (match kwargs !! "chunks" ≫= as_number with
          | Some z => if z =? 0 then PNone else PInt z
          | None => PNone
          end).
Proof.
  destruct (_verify_opts_stages _ _ _ _ Hv)
    as (o3 & w3 & o4 & w4 & Hs3 & Hs4 & ->).
  rewrite verify_schema_other by done.
  rewrite (verify_enough_envelopes_other _ _ _ _ _ Hs4) by done.
  pose proof (verify_chunks_value (fst (verify_lower p kwargs))) as Hc.
  rewrite verify_lower_other in Hc by done.
  eapply verify_nEnvelopes_chunks; [exact Hc | | exact Hs3].
  destruct (kwargs !! "chunks" ≫= as_number) as [z |]; [| by left].
  destruct (z =? 0); [by left | right; by eexists].
Qed.

Lemma verified_schema :
  opts !! "schema"
  = Some (match kwargs !! "schema" with
          | Some (PStr s) =>
              if String.eqb s "modified" then PStr "modified"
              else PStr "default"
          | _ => PStr "default"
          end).
Proof.
  destruct (_verify_opts_stages _ _ _ _ Hv)
    as (o3 & w3 & o4 & w4 & Hs3 & Hs4 & ->).
  rewrite verify_schema_schema.
  rewrite (verify_enough_envelopes_other _ _ _ _ _ Hs4) by done.
  rewrite (verify_nEnvelopes_other _ _ _ _ _ Hs3) by done.
  rewrite verify_chunks_other by done.
  by rewrite verify_lower_other.
Qed.

Lemma verified_nEnvelopes :
  exists v e, opts !! "nEnvelopes" = Some v /\ as_number v = Some e /\
    p <= e /\ (v = PInt p \/ kwargs !! "nEnvelopes" = Some v).
Proof.
  destruct (_verify_opts_stages _ _ _ _ Hv)
    as (o3 & w3 & o4 & w4 & Hs3 & Hs4 & ->).
  rewrite verify_schema_other by done.
  destruct (verify_enough_envelopes_value _ _ _ _ Hs4)
    as (v & e & Hv3 & He & ->).
  pose proof (verify_chunks_value (fst (verify_lower p kwargs))) as Hc.
  rewrite verify_lower_other in Hc by done.
  assert (Hform : let c := match kwargs !! "chunks" ≫= as_number with
                           | Some z => if z =? 0 then PNone else PInt z
                           | None => PNone
                           end in c = PNone \/ exists z, c = PInt z).
  { cbv zeta. destruct (kwargs !! "chunks" ≫= as_number) as [z |].
    - destruct (z =? 0); [by left | right; by eexists].
    - by left. }
  cbv zeta in Hform.
  rewrite (verify_nEnvelopes_value _ _ _ _ _ Hc Hform Hs3) in Hv3.
  rewrite verify_chunks_other, verify_lower_other in Hv3 by done.
  destruct (Z.ltb_spec e p).
  - exists (PInt p), p. split_and!; [done | done | lia | by left].
  - exists v, e. split_and!; [done | done | lia |].
    destruct (kwargs !! "nEnvelopes") as [[| b | z | s] |];
      simplify_eq; (by left) || (by right).
Qed.
End verified_options.

Lemma Config_init_Ok nP nT algos (kwargs : gmap string pyval) c w :
  Config_init nP nT algos kwargs = Ok (c, w) ->
  exists p t opts,
    as_number nP = Some p /\ as_number nT = Some t /\
    c = MkConfig p t algos opts /\
    _verify_opts p kwargs = Ok (opts, w).
Proof.
  unfold Config_init, _verify_reqs, verify_int_req.
  destruct (as_number nP) as [p |]; cbn [bind]; [| done].
  destruct (as_number nT) as [t |]; cbn [bind fst snd]; [| done].
  destruct (_verify_opts p kwargs) as [[opts wo] | |] eqn:Ho;
    cbn [bind fst snd]; [| done | done].
  intros [= <- <-]. by exists p, t, opts.
Qed.

(** X9.  A configuration that is built holds normalised options: the
    cadence is [None] or an integer other than 0, the slot count is a
    number that is at least the searcher count, the schema is one of
    ['default'] and ['modified'], and a rounding direction, if there is
    one, is a Boolean; the searcher and trial counts are the integers
    given. *)
Theorem verified_options_are_normalised nP nT algos
    (kwargs : gmap string pyval) c w :
  Config_init nP nT algos kwargs = Ok (c, w) ->
  (_opts c !! "chunks" = Some PNone \/
   exists z, z <> 0 /\ _opts c !! "chunks" = Some (PInt z)) /\
  (exists v e, _opts c !! "nEnvelopes" = Some v /\ as_number v = Some e /\
               nPrisoners c <= e) /\
  (_opts c !! "schema" = Some (PStr "default") \/
   _opts c !! "schema" = Some (PStr "modified")) /\
  (forall v, _opts c !! "lower" = Some v -> exists b, v = PBool b) /\
  as_number nP = Some (nPrisoners c) /\
  as_number nT = Some (nTrials c) /\
  cfg_algorithms c = algos.
Proof.
  intros (p & t & opts & HnP & HnT & -> & Hv)%Config_init_Ok.
  cbn [_opts nPrisoners nTrials cfg_algorithms]. split_and!; try done.
  - rewrite (verified_chunks _ _ _ _ Hv).
    destruct (kwargs !! "chunks" ≫= as_number) as [z |]; [| by left].
    destruct (Z.eqb_spec z 0); [by left | right; by exists z].
  - destruct (verified_nEnvelopes _ _ _ _ Hv) as (v & e & H1 & H2 & H3 & _).
    by exists v, e.
  - rewrite (verified_schema _ _ _ _ Hv).
    destruct (kwargs !! "schema") as [[| b | z | s] |]; try by left.
    destruct (String.eqb s "modified"); [by right | by left].
  - intros v. rewrite (verified_lower _ _ _ _ Hv).
    destruct (kwargs !! "lower") as [[| b | z | s] |];
      [| | | | destruct (_ =? 1)]; intros; simplify_eq; by eexists.
Qed.

Lemma verified_options_are_normalised_witness :
  exists c w,
    Config_init (PBool true) (PInt 2) [LoopSelect]
      {[ "chunks" := PStr "often"; "schema" := PStr "fast";
         "lower" := PInt 0 ]} = Ok (c, w) /\
    (_opts c !! "chunks" = Some PNone \/
     exists z, z <> 0 /\ _opts c !! "chunks" = Some (PInt z)) /\
    (exists v e, _opts c !! "nEnvelopes" = Some v /\ as_number v = Some e /\
                 nPrisoners c <= e) /\
    (_opts c !! "schema" = Some (PStr "default") \/
     _opts c !! "schema" = Some (PStr "modified")) /\
    (forall v, _opts c !! "lower" = Some v -> exists b, v = PBool b) /\
    as_number (PBool true) = Some (nPrisoners c) /\
    as_number (PInt 2) = Some (nTrials c) /\
    cfg_algorithms c = [LoopSelect].
Proof.
  destruct (Config_init (PBool true) (PInt 2) [LoopSelect]
      {[ "chunks" := PStr "often"; "schema" := PStr "fast";
         "lower" := PInt 0 ]}) as [[c w] | e |] eqn:Hc;
    [| by vm_compute in Hc | by vm_compute in Hc].
  exists c, w. split; [done |].
  exact (verified_options_are_normalised _ _ _ _ _ _ Hc).
Defined.

Lemma stage_warnings_are_not_about_keys (p : Z)
    (kwargs opts : gmap string pyval) w :
  _verify_opts p kwargs = Ok (opts, w) ->
  exists ws, w = ws ++ verify_other_keys opts /\
             forall k, WarnUnknownKey k ∉ ws.
Proof.
  unfold _verify_opts.
  destruct (verify_lower p kwargs) as [o1 w1] eqn:H1. cbv beta iota.
  destruct (verify_chunks o1) as [o2 w2] eqn:H2. cbv beta iota.
  destruct (verify_nEnvelopes p o2) as [[o3 w3] | |] eqn:H3;
    cbn [bind fst snd]; [| done | done].
  destruct (verify_enough_envelopes p o3) as [[o4 w4] | |] eqn:H4;
    cbn [bind fst snd]; [| done | done].
  destruct (verify_schema o4) as [o5 w5] eqn:H5. intros [= <- <-].
  exists (w1 ++ w2 ++ w3 ++ w4 ++ w5). split; [by rewrite <- !app_assoc |].
  intros k. rewrite !not_elem_of_app. split_and!.
  - unfold verify_lower in H1. repeat case_match; simplify_eq; not_in_list.
  - unfold verify_chunks in H2. repeat case_match; simplify_eq; not_in_list.
  - unfold verify_nEnvelopes in H3. repeat case_match; simplify_eq; not_in_list.
  - unfold verify_enough_envelopes in H4.
    repeat case_match; simplify_eq; not_in_list.
  - unfold verify_schema in H5. repeat case_match; simplify_eq; not_in_list.
Qed.

Lemma elem_of_verify_other_keys (opts : gmap string pyval) (k : string) :
  WarnUnknownKey k ∈ verify_other_keys opts
  <-> is_Some (opts !! k) /\ k ∉ known_keys.
Proof.
  unfold verify_other_keys. rewrite list_elem_of_fmap. split.
  - intros (k' & [= <-] & Hk). apply list_elem_of_filter in Hk as [Hnk Hk].
    split; [| done]. apply list_elem_of_fmap in Hk as ([k2 v] & -> & Hkv).
    apply elem_of_map_to_list in Hkv. by eexists.
  - intros [[v Hv] Hnk]. exists k. split; [done |].
    apply list_elem_of_filter. split; [done |].
    apply list_elem_of_fmap. exists (k, v). split; [done |].
    by apply elem_of_map_to_list.
Qed.

(** X10.  The verifier removes no key and leaves every key other than the
    five it knows, and ['param'], as given; it issues a warning about a
    key exactly when the key was given and is not one of the five. *)
Theorem verifier_keeps_and_reports_keys nP nT algos
    (kwargs : gmap string pyval) c w :
  Config_init nP nT algos kwargs = Ok (c, w) ->
  (forall k, is_Some (kwargs !! k) -> is_Some (_opts c !! k)) /\
  (forall k, k ∉ known_keys -> _opts c !! k = kwargs !! k) /\
  _opts c !! "param" = kwargs !! "param" /\
  (forall k, WarnUnknownKey k ∈ w <->
             is_Some (kwargs !! k) /\ k ∉ known_keys).
Proof.
  intros (p & t & opts & HnP & HnT & -> & Hv)%Config_init_Ok. cbn [_opts].
  assert (forall k, k ∉ known_keys -> opts !! k = kwargs !! k) as Hother.
  { intros k Hk. unfold known_keys in Hk.
    apply (verified_other _ _ _ _ Hv); intros ->; apply Hk;
      repeat ((by apply list_elem_of_here) || apply list_elem_of_further). }
  split_and!; [| done | by apply (verified_other _ _ _ _ Hv) |].
  - intros k Hk.
    destruct (decide (k = "lower"%string)) as [-> | H1].
    { rewrite (verified_lower _ _ _ _ Hv). destruct Hk as [v ->].
      by destruct v. }
    destruct (decide (k = "chunks"%string)) as [-> | H2].
    { by rewrite (verified_chunks _ _ _ _ Hv). }
    destruct (decide (k = "nEnvelopes"%string)) as [-> | H3].
    { destruct (verified_nEnvelopes _ _ _ _ Hv) as (v & e & -> & _). done. }
    destruct (decide (k = "schema"%string)) as [-> | H4].
    { by rewrite (verified_schema _ _ _ _ Hv). }
    by rewrite (verified_other _ _ _ _ Hv).
  - intros k.
    destruct (stage_warnings_are_not_about_keys _ _ _ _ Hv)
      as (ws & -> & Hws).
    rewrite elem_of_app, elem_of_verify_other_keys. split.
    + intros [Hin | [Hs Hk]]; [by apply Hws in Hin |].
      by rewrite <- (Hother k Hk).
    + intros [Hs Hk]. right. by rewrite (Hother k Hk).
Qed.

Lemma verifier_keeps_and_reports_keys_witness :
  exists c w,
    Config_init (PInt 3) (PInt 2) [LoopSelect]
      {[ "colour" := PStr "red"; "param" := PInt 0 ]} = Ok (c, w) /\
    _opts c !! "colour" = Some (PStr "red") /\
    _opts c !! "param" = Some (PInt 0) /\
    WarnUnknownKey "colour" ∈ w.
Proof.
  destruct (Config_init (PInt 3) (PInt 2) [LoopSelect]
      {[ "colour" := PStr "red"; "param" := PInt 0 ]})
    as [[c w] | e |] eqn:Hc; [| by vm_compute in Hc | by vm_compute in Hc].
  exists c, w. split; [done |].
  destruct (verifier_keeps_and_reports_keys _ _ _ _ _ _ Hc)
    as (_ & Hother & Hparam & Hwarn).
  split_and!.
  - rewrite Hother; [done |]. unfold known_keys. not_in_list.
  - by rewrite Hparam.
  - apply Hwarn. split; [by eexists |]. unfold known_keys. not_in_list.
Defined.

(** X11.  The rounding direction of a configuration that is built: a
    Boolean that was given is kept, anything else that was given becomes
    [True], and when none was given it is [True] for an odd searcher
    count and stays absent for an even one.  In that last case every
    budget computation on the options of a trial raises [KeyError]. *)
Theorem lower_after_verification nP nT algos (kwargs : gmap string pyval)
    c w :
  Config_init nP nT algos kwargs = Ok (c, w) ->
  _opts c !! "lower"
  = match kwargs !! "lower" with
    | Some (PBool b) => Some (PBool b)
    | Some _ => Some (PBool true)
    | None => if nPrisoners c `mod` 2 =? 1 then Some (PBool true) else None
    end /\
  (kwargs !! "lower" = None -> nPrisoners c `mod` 2 = 0 ->
   forall envelopes,
     AttemptSchema envelopes
       (delete "nEnvelopes" (delete "chunks" (_opts c))) = Raise KeyError).
Proof.
  intros (p & t & opts & HnP & HnT & -> & Hv)%Config_init_Ok.
  cbn [_opts nPrisoners].
  pose proof (verified_lower _ _ _ _ Hv) as Hl. split; [done |].
  intros Hnone Heven envelopes. rewrite Hnone, Heven in Hl. cbn in Hl.
  unfold AttemptSchema. by rewrite !lookup_delete_ne, Hl by done.
Qed.

Lemma lower_after_verification_witness :
  exists c w,
    Config_init (PInt 4) (PInt 2) [LoopSelect] {[ "chunks" := PInt 1 ]}
    = Ok (c, w) /\
    _opts c !! "lower" = None /\
    AttemptSchema [1; 0; 3; 2]
      (delete "nEnvelopes" (delete "chunks" (_opts c))) = Raise KeyError.
Proof.
  destruct (Config_init (PInt 4) (PInt 2) [LoopSelect]
              {[ "chunks" := PInt 1 ]}) as [[c w] | e |] eqn:Hc;
    [| by vm_compute in Hc | by vm_compute in Hc].
  exists c, w. split; [done |].
  destruct (lower_after_verification _ _ _ _ _ _ Hc) as [Hl Hraise].
  assert (nPrisoners c = 4) as Hp.
  { vm_compute in Hc. by injection Hc as <- _. }
  rewrite Hp in Hl, Hraise. split; [exact Hl |].
  by apply Hraise.
Defined.

Lemma filter_none {A : Type} (P : A -> Prop) `{!forall x, Decision (P x)}
    (l : list A) :
  Forall (fun x => ~ P x) l -> filter P l = [].
Proof.
  induction 1 as [| x l Hx _ IH]; [done |].
  rewrite filter_cons. by destruct (decide (P x)).
Qed.

(** X12.  A configuration whose options are all given and well formed (a
    Boolean rounding direction, an integer cadence other than 0, an
    integer slot count that is at least the searcher count, a known
    schema, no key beyond the five known ones) is stored as given, and
    the verifier issues no warning. *)
Theorem well_formed_options_are_kept (p t ch e : Z) (b : bool) (s : string)
    (algos : list algorithm) (kwargs : gmap string pyval) :
  kwargs !! "lower" = Some (PBool b) ->
  kwargs !! "chunks" = Some (PInt ch) -> ch <> 0 ->
  kwargs !! "nEnvelopes" = Some (PInt e) -> p <= e ->
  kwargs !! "schema" = Some (PStr s) ->
  s = "default"%string \/ s = "modified"%string ->
  (forall k, is_Some (kwargs !! k) -> k ∈ known_keys) ->
  Config_init (PInt p) (PInt t) algos kwargs
  = Ok (MkConfig p t algos kwargs, []).
Proof.
  intros Hl Hc Hch He Hpe Hs Hsv Hkeys.
  unfold Config_init, _verify_reqs, verify_int_req.
  cbn [as_number bind fst snd]. unfold _verify_opts.
  assert (verify_lower p kwargs = (kwargs, [])) as ->.
  { unfold verify_lower. by rewrite Hl. }
  assert (verify_chunks kwargs = (kwargs, [])) as ->.
  { unfold verify_chunks. rewrite Hc. unfold py_eq. cbn [as_number].
    destruct (Z.eqb_spec ch 0); [done |]. by rewrite insert_id. }
  assert (verify_nEnvelopes p kwargs = Ok (kwargs, [])) as ->.
  { unfold verify_nEnvelopes. rewrite He, Hc. cbn. by rewrite insert_id. }
  cbn [bind fst snd].
  assert (verify_enough_envelopes p kwargs = Ok (kwargs, [])) as ->.
  { unfold verify_enough_envelopes. rewrite He. cbn [as_number].
    by destruct (Z.ltb_spec e p); [lia |]. }
  cbn [bind fst snd].
  assert (verify_schema kwargs = (kwargs, [])) as ->.
  { unfold verify_schema. rewrite Hs, Hs.
    by destruct Hsv as [-> | ->]. }
  assert (verify_other_keys kwargs = []) as ->; [| done].
  unfold verify_other_keys. rewrite filter_none; [done |].
  apply Forall_forall. intros k Hk Hnk. apply Hnk, Hkeys.
  apply list_elem_of_fmap in Hk as ([k' v] & -> & Hkv).
  apply elem_of_map_to_list in Hkv. by eexists.
Qed.

Lemma known_keys_example (k : string) :
  is_Some (({[ "lower" := PBool false; "chunks" := PInt 10;
               "nEnvelopes" := PInt 100; "schema" := PStr "default" ]}
            : gmap string pyval) !! k) ->
  k ∈ known_keys.
Proof.
  intros [v Hv]. unfold known_keys.
  repeat (apply lookup_insert_Some in Hv as [[<- _] | [_ Hv]];
          [repeat ((by apply list_elem_of_here) || apply list_elem_of_further) |]).
  apply lookup_singleton_Some in Hv as [<- _].
  repeat ((by apply list_elem_of_here) || apply list_elem_of_further).
Qed.

Lemma well_formed_options_are_kept_witness :
  Config_init (PInt 100) (PInt 100) [RandomSelect; LoopSelect]
    {[ "lower" := PBool false; "chunks" := PInt 10;
       "nEnvelopes" := PInt 100; "schema" := PStr "default" ]}
  = Ok (MkConfig 100 100 [RandomSelect; LoopSelect]
          {[ "lower" := PBool false; "chunks" := PInt 10;
             "nEnvelopes" := PInt 100; "schema" := PStr "default" ]}, []).
Proof.
  apply (well_formed_options_are_kept 100 100 10 100 false "default");
    [reflexivity | reflexivity | lia | reflexivity | lia | reflexivity
    | by left | apply known_keys_example].
Defined.




(** ** Trials *)

(** X14.  [Trial.__init__] shuffles the identities [0..n-1] into an
    assignment of the [n] slots asked for, takes the searchers to be
    [0..S-1], and keeps every keyword but ['nEnvelopes'] for the
    strategies. *)
Theorem Trial_init_builds_an_assignment (nr : rng) (S n : Z)
    (algos : list algorithm) (kwargs : gmap string pyval) (v : pyval) :
  kwargs !! "nEnvelopes" = Some v -> as_number v = Some n -> 0 <= n ->
  exists t nr',
    Trial_init nr S algos kwargs = Ok (t, nr') /\
    assignment (_envelopes t) /\ np.len (_envelopes t) = n /\
    _prisoners t = np.arange S /\
    _kwargs t = delete "nEnvelopes" kwargs /\
    _algorithms t = algos.
Proof.
  intros Hv Hn Hn0. unfold Trial_init. rewrite Hv.
  assert (arange_stop v = Some n) as -> by (by destruct v).
  destruct (shuffle_arange_assignment nr n Hn0) as [Ha Hlen].
  destruct (shuffle nr (np.arange n)) as [envelopes nr'].
  do 2 eexists. split; [reflexivity |]. by split_and!.
Qed.

Lemma Trial_init_builds_an_assignment_witness :
  exists t nr',
    Trial_init (fun k => (2 * k)%nat) 3 [LoopSelect]
      {[ "nEnvelopes" := PInt 4; "lower" := PBool true ]} = Ok (t, nr') /\
    assignment (_envelopes t) /\ np.len (_envelopes t) = 4 /\
    _prisoners t = np.arange 3 /\
    _kwargs t = delete "nEnvelopes"
                  {[ "nEnvelopes" := PInt 4; "lower" := PBool true ]} /\
    _algorithms t = [LoopSelect].
Proof.
  apply (Trial_init_builds_an_assignment (fun k => (2 * k)%nat) 3 4
           [LoopSelect] {[ "nEnvelopes" := PInt 4; "lower" := PBool true ]}
           (PInt 4)); [reflexivity | reflexivity | lia].
Defined.

Lemma select_extras (algo : algorithm) fuel r p envelopes
    (kwargs : gmap string pyval) b ex r' :
  select algo fuel r p envelopes kwargs = Ok (b, ex, r') ->
  match algo with
  | RandomSelect => ex = None
  | LoopSelect => exists k, ex = Some [("loop_size"%string, k)] /\ 1 <= k
  end.
Proof.
  unfold select.
  destruct (bind_keywords kwargs) as [[] | |]; cbn [bind]; [| done | done].
  destruct (AttemptSchema envelopes kwargs) as [attempts | |];
    cbn [bind]; [| done | done].
  destruct algo.
  - destruct (RandomSelect_run _ _ _ _) as [[[s l] r1] | |];
      cbn [bind fst snd]; [| done | done]. by intros [= <- <- <-].
  - destruct (LoopSelect_run fuel p envelopes attempts)
      as [[s k] | |] eqn:Hrun; cbn [bind fst snd]; [| done | done].
    intros [= <- <- <-]. exists k. split; [done |].
    destruct (LoopSelect_loop_budget_free fuel p envelopes attempts attempts
                p 0 s k Hrun) as (_ & _ & Hk & _). lia.
Qed.

Lemma _run_algo_loop_shape (algo : algorithm) fuel envelopes
    (kwargs : gmap string pyval) (prisoners : list Z) :
  forall r acc out r',
    _run_algo_loop algo fuel r prisoners envelopes kwargs acc = Ok (out, r') ->
    length (data out) = (length (data acc) + length prisoners)%nat /\
    match algo with
    | RandomSelect => extra out = extra acc
    | LoopSelect =>
        exists sizes,
          length sizes = length prisoners /\ Forall (fun k => 1 <= k) sizes /\
          extra out
          = match sizes with
            | [] => extra acc
            | _ => <["loop_size" :=
                       default [] (extra acc !! "loop_size") ++ sizes]>
                     (extra acc)
            end
    end.
Proof.
  induction prisoners as [| p prisoners IH]; intros r acc out r';
    cbn [_run_algo_loop].
  - intros [= <- <-]. split; [cbn; lia |].
    destruct algo; [done |]. by exists [].
  - destruct (select algo fuel r p envelopes kwargs)
      as [[[b ex] r1] | |] eqn:Hsel; cbn [bind fst snd]; [| done | done].
    intros Hrun. apply IH in Hrun as [Hlen Hex]. cbn [data extra] in *.
    rewrite length_app in Hlen. cbn [length] in *. split; [lia |].
    apply select_extras in Hsel. destruct algo.
    + subst ex. by rewrite Hex.
    + destruct Hsel as (k & -> & Hk). destruct Hex as (sizes & Hl & Hall & ->).
      exists (k :: sizes). cbn [length]. split; [lia |].
      split; [by constructor |].
      cbn [add_extras fold_left fst snd].
      destruct sizes as [| k' sizes]; [done |].
      rewrite lookup_insert_eq, insert_insert_eq. cbn [default]. unfold id.
      by rewrite <- app_assoc.
Qed.

(** X15.  What [_run_algo] returns holds one flag per searcher.  For
    [RandomSelect] it holds no metric; for [LoopSelect] and at least one
    searcher it holds the single metric ['loop_size'], with one value per
    searcher, each at least 1. *)
Theorem run_algo_result_shape (algo : algorithm) fuel r envelopes
    (kwargs : gmap string pyval) (prisoners : list Z) out r' :
  _run_algo algo fuel r prisoners envelopes kwargs = Ok (out, r') ->
  length (data out) = length prisoners /\
  match algo with
  | RandomSelect => extra out = ∅
  | LoopSelect =>
      (prisoners = [] /\ extra out = ∅) \/
      exists sizes,
        extra out = {[ "loop_size"%string := sizes ]} /\
        length sizes = length prisoners /\ Forall (fun k => 1 <= k) sizes
  end.
Proof.
  unfold _run_algo.
  destruct (bind_call _ kwargs) as [[] | |]; cbn [bind]; [| done | done].
  intros Hrun.
  apply _run_algo_loop_shape in Hrun as [Hlen Hex].
  cbn [data extra length] in *. split; [done |].
  destruct algo; [done |].
  destruct Hex as (sizes & Hl & Hall & ->).
  destruct sizes as [| k sizes].
  - left. split; [| done]. by destruct prisoners.
  - right. exists (k :: sizes). rewrite lookup_empty, insert_empty. by cbn.
Qed.

Lemma run_algo_result_shape_witness :
  exists out r',
    _run_algo LoopSelect 4 (fun k => k) [0; 1; 2] [1; 0; 3; 2]
      {[ "lower" := PBool true ]} = Ok (out, r') /\
    length (data out) = 3%nat /\
    ((([0; 1; 2] : list Z) = [] /\ extra out = ∅) \/
     exists sizes,
       extra out = {[ "loop_size"%string := sizes ]} /\
       length sizes = 3%nat /\ Forall (fun k => 1 <= k) sizes).
Proof.
  do 2 eexists. split; [by vm_compute |].
  eapply (run_algo_result_shape LoopSelect 4 (fun k => k) [1; 0; 3; 2]
            {[ "lower" := PBool true ]} [0; 1; 2]).
  by vm_compute.
Defined.

(** ** The simulation loop at its edges *)

(** X16.  With at least one trial and fewer than 2^53, a cadence larger
    in absolute value than the number of trials makes [simulate] raise
    [ZeroDivisionError] at the first trial: the progress test takes [i]
    modulo [int(nTrials/chunks)], which is 0. *)
Theorem cadence_beyond_trials_raises (fuel : nat) (st : run_state) (ch : Z) :
  _opts (_config (sim st)) !! "chunks" = Some (PInt ch) ->
  1 <= nTrials (_config (sim st)) < 2 ^ 53 ->
  nTrials (_config (sim st)) < Z.abs ch ->
  simulate fuel st = Raise ZeroDivisionError.
Proof.
  intros Hch HT Hlt. unfold simulate.
  rewrite seqZ_cons by lia. cbn [simulate_loop].
  unfold simulate_step.
  rewrite (progress_due_bounded _ ch 0 Hch) by lia.
  assert (Z.quot (nTrials (_config (sim st))) ch = 0) as ->; [| done].
  apply Z.quot_small_iff; lia.
Qed.

Lemma cadence_beyond_trials_raises_witness :
  simulate 4
    (MkRun (Simulation_init
              (MkConfig 4 2 [LoopSelect]
                 {[ "lower" := PBool true; "chunks" := PInt 3;
                    "nEnvelopes" := PInt 4; "schema" := PStr "default" ]}))
       (fun k => k) (fun k => k) [])
  = Raise ZeroDivisionError.
Proof.
  apply (cadence_beyond_trials_raises 4 _ 3); [reflexivity | cbn; lia | cbn; lia].
Defined.

(** X17.  With no trial to run ([nTrials] 0 or less) [simulate] builds no
    trial; it returns with nothing changed when there is no cadence, and
    raises [NameError] when there is one, because the closing line names
    the loop variable. *)
Theorem simulate_without_trials (fuel : nat) (st : run_state) :
  nTrials (_config (sim st)) <= 0 ->
  (_opts (_config (sim st)) !! "chunks" = Some PNone ->
   simulate fuel st = Ok st) /\
  (forall z, _opts (_config (sim st)) !! "chunks" = Some (PInt z) ->
             simulate fuel st = Raise NameError).
Proof.
  intros HT. unfold simulate.
  assert (seqZ 0 (nTrials (_config (sim st))) = []) as ->.
  { unfold seqZ. by replace (Z.to_nat (nTrials (_config (sim st)))) with O
      by lia. }
  cbn [simulate_loop bind]. unfold getitem. split.
  - by intros ->.
  - intros z ->. cbn [bind py_eq as_number negb].
    by destruct (Z.ltb_spec 0 (nTrials (_config (sim st)))); [lia |].
Qed.

Lemma simulate_without_trials_witness :
  simulate 4
    (MkRun (Simulation_init
              (MkConfig 4 0 [LoopSelect]
                 {[ "lower" := PBool true; "chunks" := PInt 1;
                    "nEnvelopes" := PInt 4; "schema" := PStr "default" ]}))
       (fun k => k) (fun k => k) [])
  = Raise NameError.
Proof.
  eapply (simulate_without_trials 4 _); [cbn; lia | reflexivity].
Defined.

(** ** What [simulate] prints *)

Lemma simulate_step_printed (fuel : nat) (st st' : run_state) (i : Z) :
  simulate_step fuel st i = Ok st' ->
  _config (sim st') = _config (sim st) /\
  exists due, progress_due (_config (sim st)) i = Ok due /\
    printed st' = printed st ++ (if due : bool then [Progress i] else []).
Proof.
  unfold simulate_step.
  destruct (progress_due (_config (sim st)) i) as [due | |];
    cbn [bind]; [| done | done].
  destruct (getitem _ _) as [c | |]; cbn [bind]; [| done | done].
  destruct (bind_call _ _) as [[] | |]; cbn [bind]; [| done | done].
  destruct (Trial_init _ _ _ _) as [[t nr'] | |]; cbn [bind fst snd];
    [| done | done].
  destruct (run_all _ _ _) as [[tr r'] | |]; cbn [bind fst snd];
    [| done | done].
  destruct (store_trials _ _ _ _) as [res | |]; cbn [bind]; [| done | done].
  intros [= <-]. cbn [sim _config printed]. split; [done |].
  exists due. split; [done |]. destruct due; [done | by rewrite app_nil_r].
Qed.

Lemma progress_due_value (c : Config) (ch i : Z) (due : bool) :
  _opts c !! "chunks" = Some (PInt ch) ->
  0 <= nTrials c < 2 ^ 53 ->
  progress_due c i = Ok due ->
  due = (i `mod` Z.quot (nTrials c) ch =? 0).
Proof.
  intros Hch HT. destruct (Z.eq_dec ch 0) as [-> | Hne].
  { unfold progress_due, getitem. rewrite Hch. by cbn [bind as_number]. }
  rewrite (progress_due_bounded c ch i Hch HT Hne).
  destruct (Z.quot (nTrials c) ch =? 0); [done |]. by intros [= <-].
Qed.

Lemma simulate_loop_printed (fuel : nat) (ch : Z) (trials : list Z) :
  forall st st',
    _opts (_config (sim st)) !! "chunks" = Some (PInt ch) ->
    0 <= nTrials (_config (sim st)) < 2 ^ 53 ->
    simulate_loop fuel trials st = Ok st' ->
    _config (sim st') = _config (sim st) /\
    printed st'
    = printed st ++
      (Progress <$>
         filter (fun i => i `mod` Z.quot (nTrials (_config (sim st))) ch = 0)
           trials).
Proof.
  induction trials as [| i trials IH]; intros st st' Hch HT;
    cbn [simulate_loop].
  - intros [= <-]. by rewrite app_nil_r.
  - destruct (simulate_step fuel st i) as [st1 | |] eqn:Hstep;
      cbn [bind]; [| done | done].
    apply simulate_step_printed in Hstep as (Hc & due & Hdue & Hp).
    intros Hloop.
    apply IH in Hloop as [Hc' Hp']; [| by rewrite Hc | by rewrite Hc].
    split; [congruence |]. rewrite Hp', Hp, Hc, <- app_assoc. f_equal.
    apply (progress_due_value _ ch) in Hdue as ->; [| done | done].
    rewrite filter_cons.
    destruct (Z.eqb_spec (i `mod` Z.quot (nTrials (_config (sim st))) ch) 0);
      by destruct (decide _).
Qed.

(** A run under the conditions of the table-shape property, with what it
    prints. *)
Lemma simulate_completes
    (c : Config) (ch n : Z) (fuel : nat) (r nr : rng) (log : list event) :
  1 <= nTrials c < 2 ^ 53 ->
  0 <= nPrisoners c ->
  NoDup (cfg_algorithms c) ->
  _opts c !! "chunks" = Some (PInt ch) ->
  Z.quot (nTrials c) ch <> 0 ->
  _opts c !! "nEnvelopes" = Some (PInt n) ->
  nPrisoners c <= n ->
  constructible (delete "nEnvelopes" (delete "chunks" (_opts c))) n ->
  (Z.to_nat n <= fuel)%nat ->
  exists st',
    simulate fuel (MkRun (Simulation_init c) r nr log) = Ok st' /\
    shaped (cfg_algorithms c) (_results (sim st'))
      (Z.to_nat (nTrials c)) (Z.to_nat (nPrisoners c)) /\
    printed st'
    = log ++
      (Progress <$>
         filter (fun i => i `mod` Z.quot (nTrials c) ch = 0)
           (seqZ 0 (nTrials c))) ++
      [Concluded (nTrials c - 1)].
Proof.
  intros HT HS Hnd Hch Hstep Hn HSn Hk Hfuel. unfold simulate.
  change (_config (sim (MkRun (Simulation_init c) r nr log))) with c.
  destruct (simulate_loop_shape c ch n fuel ltac:(lia) HS Hnd Hch Hstep Hn
              HSn Hk Hfuel (seqZ 0 (nTrials c))
              (MkRun (Simulation_init c) r nr log) 0%nat 0%nat)
    as (st' & Hloop & Hc & Hshape); [done | apply init_results_shaped | lia |].
  rewrite Hloop. cbn [bind].
  apply simulate_loop_printed with (ch := ch) in Hloop as [_ Hp];
    [| done | cbn [sim _config Simulation_init]; lia].
  unfold getitem. rewrite Hch. cbn [bind py_eq as_number negb].
  destruct (Z.ltb_spec 0 (nTrials c)); [| lia].
  eexists. split; [reflexivity |]. cbn [sim printed]. split.
  - rewrite length_seqZ in Hshape. cbn [Nat.add] in Hshape.
    rewrite seqZ_cons in Hshape by lia. exact Hshape.
  - rewrite Hp. cbn [printed sim _config Simulation_init].
    by rewrite <- app_assoc.
Qed.

(** X18.  Under the conditions under which [simulate] completes (at
    least one trial and fewer than 2^53, distinct strategies, an integer
    cadence with [int(nTrials/chunks)] other than 0, enough slots, and
    options of which none names a parameter of a call they are passed to
    and from which the budget is defined), it prints one progress line
    for each trial index that is a multiple of [int(nTrials/chunks)], in
    order, and then the closing line with the last trial index. *)
Theorem simulate_prints_at_multiples_of_the_step
    (c : Config) (ch n : Z) (fuel : nat) (r nr : rng) (log : list event) :
  1 <= nTrials c < 2 ^ 53 ->
  0 <= nPrisoners c ->
  NoDup (cfg_algorithms c) ->
  _opts c !! "chunks" = Some (PInt ch) ->
  Z.quot (nTrials c) ch <> 0 ->
  _opts c !! "nEnvelopes" = Some (PInt n) ->
  nPrisoners c <= n ->
  constructible (delete "nEnvelopes" (delete "chunks" (_opts c))) n ->
  (Z.to_nat n <= fuel)%nat ->
  exists st',
    simulate fuel (MkRun (Simulation_init c) r nr log) = Ok st' /\
    printed st'
    = log ++
      (Progress <$>
         filter (fun i => i `mod` Z.quot (nTrials c) ch = 0)
           (seqZ 0 (nTrials c))) ++
      [Concluded (nTrials c - 1)].
Proof.
  intros HT HS Hnd Hch Hstep Hn HSn Hk Hfuel.
  destruct (simulate_completes c ch n fuel r nr log)
    as (st' & Hrun & _ & Hp); try done.
  by exists st'.
Qed.

Lemma simulate_prints_at_multiples_of_the_step_witness :
  exists st',
    simulate 4
      (MkRun (Simulation_init
                (MkConfig 3 10 [RandomSelect; LoopSelect]
                   {[ "lower" := PBool true; "chunks" := PInt 3;
                      "nEnvelopes" := PInt 4;
                      "schema" := PStr "default" ]}))
         (fun k => k) (fun k => k) []) = Ok st' /\
    printed st'
    = [Progress 0; Progress 3; Progress 6; Progress 9; Concluded 9].
Proof.
  apply (simulate_prints_at_multiples_of_the_step
           (MkConfig 3 10 [RandomSelect; LoopSelect]
              {[ "lower" := PBool true; "chunks" := PInt 3;
                 "nEnvelopes" := PInt 4; "schema" := PStr "default" ]})
           3 4 4 (fun k => k) (fun k => k) []).
  - cbn. lia.
  - cbn. lia.
  - cbn. apply NoDup_cons_2; [| apply NoDup_singleton].
    by intros ?%list_elem_of_singleton.
  - reflexivity.
  - by vm_compute.
  - reflexivity.
  - cbn. lia.
  - split; [reflexivity |]. exists 2. reflexivity.
  - lia.
Defined.

(** ** The default simulation *)

Import frontend.

(** X19.  [Simulation()] without a configuration is built on 100
    searchers, 100 trials, both strategies, 100 slots and a cadence of
    10, with the warning about the default and none from the verifier;
    [simulate] on it completes, each strategy's table gets 100 columns
    and 100 rows, and the progress lines are those of the trials 0, 10,
    ..., 90. *)
Theorem default_simulation_runs (fuel : nat) (r nr : rng) :
  (100 <= fuel)%nat ->
  exists s st',
    Simulation_new NoConfig = Ok (s, true, []) /\
    nPrisoners (_config s) = 100 /\ nTrials (_config s) = 100 /\
    cfg_algorithms (_config s) = [RandomSelect; LoopSelect] /\
    simulate fuel (MkRun s r nr []) = Ok st' /\
    shaped [RandomSelect; LoopSelect] (_results (sim st')) 100 100 /\
    printed st'
    = (Progress <$> [0; 10; 20; 30; 40; 50; 60; 70; 80; 90])
      ++ [Concluded 99].
Proof.
  intros Hfuel.
  set (c := MkConfig 100 100 [RandomSelect; LoopSelect]
              {[ "schema" := PStr "default"; "lower" := PBool true;
                 "chunks" := PInt 10; "nEnvelopes" := PInt 100 ]}).
  assert (Simulation_new NoConfig = Ok (Simulation_init c, true, [])) as Hnew.
  { by vm_compute. }
  destruct (simulate_completes c 10 100 fuel r nr [])
    as (st' & Hrun & Hshape & Hp).
  - cbn. lia.
  - cbn. lia.
  - cbn. apply NoDup_cons_2; [| apply NoDup_singleton].
    by intros ?%list_elem_of_singleton.
  - reflexivity.
  - by vm_compute.
  - reflexivity.
  - cbn. lia.
  - split; [reflexivity |]. exists 50. reflexivity.
  - lia.
  - exists (Simulation_init c), st'.
    split_and!; first [done | rewrite Hp; by vm_compute].
Qed.

Lemma default_simulation_runs_witness :
  (100 <= 100)%nat /\
  exists s st',
    Simulation_new NoConfig = Ok (s, true, []) /\
    nPrisoners (_config s) = 100 /\ nTrials (_config s) = 100 /\
    cfg_algorithms (_config s) = [RandomSelect; LoopSelect] /\
    simulate 100 (MkRun s (fun k => k) (fun k => k) []) = Ok st' /\
    shaped [RandomSelect; LoopSelect] (_results (sim st')) 100 100 /\
    printed st'
    = (Progress <$> [0; 10; 20; 30; 40; 50; 60; 70; 80; 90])
      ++ [Concluded 99].
Proof.
  split; [lia |].
  apply (default_simulation_runs 100 (fun k => k) (fun k => k)). lia.
Defined.

(** ** Summary statistics *)

Lemma count_of_bump (x v : Z) (vc : list (Z * nat)) :
  count_of v (bump x vc)
  = if x =? v then Some (S (default O (count_of v vc))) else count_of v vc.
Proof.
  induction vc as [| [y c] vc IH]; cbn [bump count_of].
  - by destruct (x =? v).
  - destruct (Z.eqb_spec y x) as [-> | Hyx]; cbn [count_of].
    + by destruct (Z.eqb_spec x v).
    + rewrite IH. destruct (Z.eqb_spec y v) as [-> | Hyv]; [| done].
      by destruct (Z.eqb_spec x v); [congruence |].
Qed.

Lemma count_of_fold (l : list Z) :
  forall (vc : list (Z * nat)) (v : Z),
    count_of v (fold_left (fun vc x => bump x vc) l vc)
    = match count_of v vc, length (filter (fun x => x = v) l) with
      | None, O => None
      | o, n => Some (default O o + n)%nat
      end.
Proof.
  induction l as [| x l IH]; intros vc v; cbn [fold_left].
  - cbn. destruct (count_of v vc); [by rewrite Nat.add_0_r | done].
  - rewrite IH, count_of_bump, filter_cons.
    destruct (Z.eqb_spec x v) as [-> | Hne].
    + rewrite decide_True by done. cbn [length default].
      destruct (count_of v vc); cbn [default];
        destruct (length (filter _ l)); cbn [default]; unfold id;
        f_equal; lia.
    + by rewrite decide_False.
Qed.

Lemma count_of_value_counts (l : list Z) (v : Z) :
  count_of v (value_counts l)
  = match length (filter (fun x => x = v) l) with
    | O => None
    | n => Some n
    end.
Proof. unfold value_counts. rewrite count_of_fold. cbn. by destruct (length _). Qed.

Lemma count_of_elem (vc : list (Z * nat)) (v : Z) (c : nat) :
  count_of v vc = Some c -> (v, c) ∈ vc.
Proof.
  induction vc as [| [y d] vc IH]; cbn [count_of]; [done |].
  destruct (Z.eqb_spec y v) as [-> | Hne].
  - intros [= ->]. apply list_elem_of_here.
  - intros H. apply list_elem_of_further. by apply IH.
Qed.

Lemma bump_keys (x : Z) (vc : list (Z * nat)) :
  NoDup (fst <$> vc) -> NoDup (fst <$> bump x vc) /\
  forall y, y ∈ (fst <$> bump x vc) <-> y = x \/ y ∈ (fst <$> vc).
Proof.
  induction vc as [| [y c] vc IH]; cbn [bump fmap list_fmap fst].
  - intros _. split; [apply NoDup_singleton |].
    intros y. rewrite list_elem_of_singleton, elem_of_nil. tauto.
  - intros [Hy Hnd]%NoDup_cons. destruct (IH Hnd) as [IHnd IHin].
    destruct (Z.eqb_spec y x) as [-> | Hne]; cbn [fmap list_fmap fst].
    + split; [by apply NoDup_cons |].
      intros z. rewrite elem_of_cons. tauto.
    + split.
      * apply NoDup_cons. split; [| done].
        rewrite IHin. intros [-> | ?]; done.
      * intros z. rewrite !elem_of_cons, IHin. tauto.
Qed.

Lemma value_counts_NoDup (l : list Z) : NoDup (fst <$> value_counts l).
Proof.
  unfold value_counts.
  assert (forall vc : list (Z * nat), NoDup (fst <$> vc) ->
            NoDup (fst <$> fold_left (fun vc x => bump x vc) l vc)) as H.
  { induction l as [| x l IH]; intros vc Hvc; cbn [fold_left]; [done |].
    apply IH. by apply bump_keys. }
  apply H. constructor.
Qed.

Lemma elem_count_of (vc : list (Z * nat)) (v : Z) (c : nat) :
  NoDup (fst <$> vc) -> (v, c) ∈ vc -> count_of v vc = Some c.
Proof.
  induction vc as [| [y d] vc IH]; cbn [count_of fmap list_fmap fst];
    [by intros _ ?%elem_of_nil |].
  intros [Hy Hnd]%NoDup_cons [[= <- <-] | Hin]%elem_of_cons.
  - by rewrite Z.eqb_refl.
  - destruct (Z.eqb_spec y v) as [-> | Hne]; [| by apply IH].
    exfalso. apply Hy. apply list_elem_of_fmap. by exists (v, c).
Qed.

Lemma pick_largest (l : list (Z * nat)) :
  forall b : Z * nat,
    fold_left (fun best q => if (snd best <? snd q)%nat then q else best) l b
      ∈ b :: l /\
    forall q, q ∈ b :: l ->
      (snd q <=
       snd (fold_left
              (fun best q => if (snd best <? snd q)%nat then q else best)
              l b))%nat.
Proof.
  induction l as [| q l IH]; intros b; cbn [fold_left].
  - split; [apply list_elem_of_here |].
    by intros q [-> | ?%elem_of_nil]%elem_of_cons.
  - destruct (IH (if (snd b <? snd q)%nat then q else b)) as [Hin Hmax].
    split.
    + apply elem_of_cons in Hin as [-> | Hin].
      * destruct (snd b <? snd q)%nat;
          [apply list_elem_of_further, list_elem_of_here
          | apply list_elem_of_here].
      * by do 2 apply list_elem_of_further.
    + intros q' Hq'.
      assert (snd (if (snd b <? snd q)%nat then q else b) <=
              snd (fold_left
                     (fun best q => if (snd best <? snd q)%nat then q else best)
                     l (if (snd b <? snd q)%nat then q else b)))%nat as Hb.
      { apply Hmax, list_elem_of_here. }
      apply elem_of_cons in Hq' as [-> | [-> | Hq']%elem_of_cons].
      * revert Hb. destruct (Nat.ltb_spec (snd b) (snd q)); lia.
      * revert Hb. destruct (Nat.ltb_spec (snd b) (snd q)); lia.
      * by apply Hmax, list_elem_of_further.
Qed.

(** The label [idxmax] gives for the counts of a series that is not empty
    is a most frequent value of the series. *)
Lemma idxmax_value_counts (l : list Z) :
  l <> [] ->
  exists m, idxmax (value_counts l) = Ok m /\ m ∈ l /\
    forall x, (length (filter (fun y => y = x) l)
               <= length (filter (fun y => y = m) l))%nat.
Proof.
  intros Hl.
  destruct (value_counts l) as [| b vc] eqn:Hvc.
  { destruct l as [| x l]; [done |].
    pose proof (count_of_value_counts (x :: l) x) as H.
    rewrite Hvc, filter_cons, decide_True in H by done. done. }
  unfold idxmax. eexists. split; [reflexivity |].
  destruct (pick_largest vc b) as [Hin Hmax].
  set (best := fold_left _ vc b) in *.
  assert (count_of (fst best) (value_counts l) = Some (snd best)) as Hbest.
  { apply elem_count_of; [apply value_counts_NoDup |].
    rewrite Hvc. by destruct best. }
  rewrite count_of_value_counts in Hbest.
  split.
  - destruct (length (filter (fun y => y = fst best) l)) eqn:Hn; [done |].
    destruct (filter (fun y => y = fst best) l) as [| y f] eqn:Hf; [done |].
    assert (y ∈ filter (fun y => y = fst best) l) as Hy
      by (rewrite Hf; apply list_elem_of_here).
    apply list_elem_of_filter in Hy as [-> Hy]. done.
  - intros x.
    pose proof (count_of_value_counts l x) as Hx.
    destruct (length (filter (fun y => y = x) l)) as [| n] eqn:Hn; [lia |].
    apply count_of_elem in Hx. rewrite Hvc in Hx.
    apply Hmax in Hx. cbn [snd] in Hx.
    destruct (length (filter (fun y => y = fst best) l)); [done |].
    injection Hbest as Hbest. lia.
Qed.

Lemma occ_fmap {A : Type} (f : A -> Z) (v : Z) (l : list A) :
  length (filter (fun x => x = v) (f <$> l))
  = length (filter (fun y => f y = v) l).
Proof.
  induction l as [| y l IH]; [done |].
  rewrite fmap_cons, !filter_cons.
  destruct (decide (f y = v)); cbn [length]; by rewrite IH.
Qed.

(** A column counts as many [True] cells as it has cells exactly when all
    its cells are [True]. *)
Lemma col_sum_full (col : list (option bool)) :
  col_sum col = Z.of_nat (length col) <-> Forall (fun c => c = Some true) col.
Proof.
  unfold col_sum. split.
  - intros H. apply Nat2Z.inj in H.
    induction col as [| c col IH]; [done |].
    rewrite filter_cons in H. destruct (decide (c = Some true)) as [-> | Hc].
    + cbn [length] in H. constructor; [done |]. apply IH. lia.
    + pose proof (length_filter (fun c => c = Some true) col).
      cbn [length] in H. lia.
  - intros H. f_equal. induction H as [| c col -> _ IH]; [done |].
    rewrite filter_cons, decide_True by done. cbn [length]. by rewrite IH.
Qed.

Section stats_of_tables.
Variable s0 : Simulation.

Let nP := nPrisoners (_config s0).
Let res := _results s0.

Let good (acc : SummaryStats) : Prop :=
  forall k,
    (forall v, success acc !! k = Some v ->
       exists t, res !! k = Some t /\
         v = Z.of_nat (length (filter (fun x => x = nP) (sum (tbl_data t))))) /\
    (forall m, peak acc !! k = Some m ->
       exists t, res !! k = Some t /\
         idxmax (value_counts (sum (tbl_data t))) = Ok m).

Lemma stats_loop_good (algos : list algorithm) :
  (forall a, a ∈ algos ->
     exists t, res !! __name__ a = Some t /\ columns (tbl_data t) <> []) ->
  forall acc, good acc ->
    exists s, stats_loop algos s0 acc = Ok s /\ good s /\
      (forall k, is_Some (success acc !! k) -> is_Some (success s !! k)) /\
      (forall k, is_Some (peak acc !! k) -> is_Some (peak s !! k)) /\
      forall a, a ∈ algos ->
        is_Some (success s !! __name__ a) /\ is_Some (peak s !! __name__ a).
Proof.
  induction algos as [| a algos IH]; intros Htab acc Hacc; cbn [stats_loop].
  - exists acc. split_and!; try done. intros a Ha. by inversion Ha.
  - destruct (Htab a) as (t & Ht & Hcols); [apply list_elem_of_here |].
    fold res. rewrite Ht.
    destruct (idxmax_value_counts (sum (tbl_data t))) as (m & Hm & _).
    { unfold sum. by destruct (columns (tbl_data t)). }
    rewrite Hm. cbn [bind].
    destruct (IH (fun b Hb => Htab b (list_elem_of_further _ _ _ Hb))
                (MkStats
                   (<[__name__ a :=
                        match count_of (nPrisoners (_config s0))
                                (value_counts (sum (tbl_data t))) with
                        | Some c => Z.of_nat c
                        | None => 0
                        end]> (success acc))
                   (<[__name__ a := m]> (peak acc))))
      as (s & -> & Hgood & Hs & Hp & Hall).
    { intros k. cbn [success peak]. split.
      - intros v. rewrite lookup_insert. case_decide as Hk.
        + subst k. intros [= <-]. exists t. split; [done |].
          rewrite count_of_value_counts. fold nP. by destruct (length _).
        + apply Hacc.
      - intros m'. rewrite lookup_insert. case_decide as Hk.
        + subst k. intros [= <-]. by exists t.
        + apply Hacc. }
    exists s. split_and!; [done | done | | |].
    + intros k Hk. apply Hs. cbn [success]. rewrite lookup_insert.
      by case_decide.
    + intros k Hk. apply Hp. cbn [peak]. rewrite lookup_insert.
      by case_decide.
    + intros b [-> | Hb]%elem_of_cons; [| by apply Hall].
      split; [apply Hs | apply Hp]; cbn [success peak];
        by rewrite lookup_insert_eq.
Qed.

Lemma stats_of_filled_tables :
  (forall a, a ∈ cfg_algorithms (_config s0) ->
     exists t, res !! __name__ a = Some t /\ columns (tbl_data t) <> []) ->
  exists s, stats s0 = Ok s /\
    forall a, a ∈ cfg_algorithms (_config s0) ->
      exists t m,
        res !! __name__ a = Some t /\
        success s !! __name__ a
        = Some (Z.of_nat
                  (length (filter (fun col => col_sum (snd col) = nP)
                             (columns (tbl_data t))))) /\
        peak s !! __name__ a = Some m /\
        m ∈ sum (tbl_data t) /\
        forall x,
          (length (filter (fun y => y = x) (sum (tbl_data t)))
           <= length (filter (fun y => y = m) (sum (tbl_data t))))%nat.
Proof.
  intros Htab. unfold stats.
  destruct (stats_loop_good _ Htab (MkStats ∅ ∅))
    as (s & -> & Hgood & _ & _ & Hall).
  { intros k. cbn. split; intros ?; by rewrite lookup_empty. }
  exists s. split; [done |]. intros a Ha.
  destruct (Hall a Ha) as [[v Hv] [m Hm]].
  destruct (Hgood (__name__ a)) as [Hsucc Hpeak].
  destruct (Hsucc v Hv) as (t & Ht & ->).
  destruct (Hpeak m Hm) as (t' & Ht' & Hidx).
  assert (t' = t) as -> by congruence.
  exists t, m. split_and!; [done | | done | |].
  - rewrite Hv. unfold sum. by rewrite occ_fmap.
  - destruct (Htab a Ha) as (t2 & Ht2 & Hcols).
    assert (t2 = t) as -> by (fold res in Ht; congruence).
    destruct (idxmax_value_counts (sum (tbl_data t))) as (m' & Hm' & Hin & _).
    { unfold sum. by destruct (columns (tbl_data t)). }
    congruence.
  - destruct (Htab a Ha) as (t2 & Ht2 & Hcols).
    assert (t2 = t) as -> by (fold res in Ht; congruence).
    destruct (idxmax_value_counts (sum (tbl_data t))) as (m' & Hm' & _ & Hmax).
    { unfold sum. by destruct (columns (tbl_data t)). }
    assert (m' = m) as -> by congruence. done.
Qed.
End stats_of_tables.

Lemma filter_agree {A : Type} (P Q : A -> Prop)
    `{!forall x, Decision (P x)} `{!forall x, Decision (Q x)} (l : list A) :
  Forall (fun x => P x <-> Q x) l -> filter P l = filter Q l.
Proof.
  induction 1 as [| x l Hx _ IH]; [done |].
  rewrite !filter_cons, IH.
  destruct (decide (P x)), (decide (Q x)); tauto.
Qed.

(** X20.  On a simulation in which every configured strategy has a table
    with at least one trial column, each column holding one cell a
    searcher, [stats] returns, and the success count of a strategy is the
    number of trials in which every searcher succeeded. *)
Theorem stats_counts_the_trials_all_succeed (s0 : Simulation) :
  (forall a, a ∈ cfg_algorithms (_config s0) ->
     exists t, _results s0 !! __name__ a = Some t /\
       columns (tbl_data t) <> [] /\
       Forall (fun col =>
                 Z.of_nat (length (snd col)) = nPrisoners (_config s0))
         (columns (tbl_data t))) ->
  exists s, stats s0 = Ok s /\
    forall a, a ∈ cfg_algorithms (_config s0) ->
      exists t,
        _results s0 !! __name__ a = Some t /\
        success s !! __name__ a
        = Some (Z.of_nat
                  (length
                     (filter
                        (fun col => Forall (fun c => c = Some true) (snd col))
                        (columns (tbl_data t))))).
Proof.
  intros Htab.
  destruct (stats_of_filled_tables s0) as (s & Hs & Hall).
  { intros a Ha. destruct (Htab a Ha) as (t & Ht & Hcols & _). by exists t. }
  exists s. split; [done |]. intros a Ha.
  destruct (Hall a Ha) as (t & m & Ht & Hsucc & _).
  destruct (Htab a Ha) as (t' & Ht' & _ & Hrows).
  assert (t' = t) as -> by congruence.
  exists t. split; [done |]. rewrite Hsucc. do 3 f_equal.
  apply filter_agree. eapply Forall_impl; [exact Hrows |].
  intros col Hcol. cbn beta. rewrite <- Hcol. apply col_sum_full.
Qed.

Lemma stats_counts_the_trials_all_succeed_witness :
  exists s,
    stats (MkSimulation
             (MkConfig 2 3 [LoopSelect] ∅)
             {[ "LoopSelect" :=
                  MkTables
                    (MkFrame 2 [ (0, [Some true; Some true]);
                                 (1, [Some true; Some false]);
                                 (2, [Some true; Some true]) ]) ∅ ]}) = Ok s /\
    forall a, a ∈ [LoopSelect] ->
      exists t,
        ({[ "LoopSelect" :=
              MkTables
                (MkFrame 2 [ (0, [Some true; Some true]);
                             (1, [Some true; Some false]);
                             (2, [Some true; Some true]) ]) ∅ ]}
           : gmap string tables) !! __name__ a = Some t /\
        success s !! __name__ a
        = Some (Z.of_nat
                  (length
                     (filter
                        (fun col => Forall (fun c => c = Some true) (snd col))
                        (columns (tbl_data t))))).
Proof.
  refine (stats_counts_the_trials_all_succeed
           (MkSimulation
              (MkConfig 2 3 [LoopSelect] ∅)
              {[ "LoopSelect" :=
                   MkTables
                     (MkFrame 2 [ (0, [Some true; Some true]);
                                  (1, [Some true; Some false]);
                                  (2, [Some true; Some true]) ]) ∅ ]}) _).
  intros a Ha. apply list_elem_of_singleton in Ha. subst a.
  eexists. split; [reflexivity |]. split; [done |].
  repeat constructor.
Defined.

(** X21.  Under the same condition on the tables, the peak [stats]
    reports for a strategy is a most frequent number of successful
    searchers a trial: the number of some trial, and no number occurs in
    more trials. *)
Theorem stats_peak_is_a_most_frequent_count (s0 : Simulation) :
  (forall a, a ∈ cfg_algorithms (_config s0) ->
     exists t, _results s0 !! __name__ a = Some t /\
       columns (tbl_data t) <> []) ->
  exists s, stats s0 = Ok s /\
    forall a, a ∈ cfg_algorithms (_config s0) ->
      exists t m,
        _results s0 !! __name__ a = Some t /\
        peak s !! __name__ a = Some m /\
        m ∈ sum (tbl_data t) /\
        forall x,
          (length (filter (fun y => y = x) (sum (tbl_data t)))
           <= length (filter (fun y => y = m) (sum (tbl_data t))))%nat.
Proof.
  intros Htab.
  destruct (stats_of_filled_tables s0 Htab) as (s & Hs & Hall).
  exists s. split; [done |]. intros a Ha.
  destruct (Hall a Ha) as (t & m & Ht & _ & Hpeak & Hin & Hmax).
  by exists t, m.
Qed.

Lemma stats_peak_is_a_most_frequent_count_witness :
  exists s,
    stats (MkSimulation
             (MkConfig 2 3 [LoopSelect] ∅)
             {[ "LoopSelect" :=
                  MkTables
                    (MkFrame 2 [ (0, [Some true; Some false]);
                                 (1, [Some true; Some true]);
                                 (2, [Some false; Some true]) ]) ∅ ]}) = Ok s /\
    forall a, a ∈ [LoopSelect] ->
      exists t m,
        ({[ "LoopSelect" :=
              MkTables
                (MkFrame 2 [ (0, [Some true; Some false]);
                             (1, [Some true; Some true]);
                             (2, [Some false; Some true]) ]) ∅ ]}
           : gmap string tables) !! __name__ a = Some t /\
        peak s !! __name__ a = Some m /\
        m ∈ sum (tbl_data t) /\
        forall x,
          (length (filter (fun y => y = x) (sum (tbl_data t)))
           <= length (filter (fun y => y = m) (sum (tbl_data t))))%nat.
Proof.
  refine (stats_peak_is_a_most_frequent_count
           (MkSimulation
              (MkConfig 2 3 [LoopSelect] ∅)
              {[ "LoopSelect" :=
                   MkTables
                     (MkFrame 2 [ (0, [Some true; Some false]);
                                  (1, [Some true; Some true]);
                                  (2, [Some false; Some true]) ]) ∅ ]}) _).
  intros a Ha. apply list_elem_of_singleton in Ha. subst a.
  eexists. split; [reflexivity | done].
Defined.

(** ** [simulate], then [stats] *)

Lemma simulate_step_config (fuel : nat) (st st' : run_state) (i : Z) :
  simulate_step fuel st i = Ok st' -> _config (sim st') = _config (sim st).
Proof.
  unfold simulate_step.
  destruct (progress_due _ i); cbn [bind]; try done.
  destruct (getitem _ "chunks"); cbn [bind]; try done.
  destruct (bind_call _ _); cbn [bind]; try done.
  destruct (Trial_init _ _ _ _); cbn [bind]; try done.
  destruct (run_all _ _ _); cbn [bind]; try done.
  destruct (store_trials _ _ _ _); cbn [bind]; try done.
  by intros [= <-].
Qed.

Lemma simulate_loop_config (fuel : nat) (trials : list Z) :
  forall st st' : run_state,
    simulate_loop fuel trials st = Ok st' ->
    _config (sim st') = _config (sim st).
Proof.
  induction trials as [| i trials IH]; intros st st'; cbn [simulate_loop].
  - by intros [= <-].
  - destruct (simulate_step fuel st i) as [st1 | |] eqn:H1; cbn [bind];
      try done.
    intros ->%IH. by apply simulate_step_config in H1.
Qed.

Lemma simulate_config (fuel : nat) (st st' : run_state) :
  simulate fuel st = Ok st' -> _config (sim st') = _config (sim st).
Proof.
  unfold simulate.
  destruct (simulate_loop fuel _ st) as [st1 | |] eqn:H1; cbn [bind];
    try done.
  apply simulate_loop_config in H1.
  destruct (getitem _ "chunks"); cbn [bind]; try done.
  destruct (negb _); [| by intros [= <-]].
  destruct (0 <? _); [| done]. by intros [= <-].
Qed.

(** X22.  [simulate] followed by [stats]: under the conditions under
    which [simulate] completes (at least one trial and fewer than 2^53,
    distinct strategies, an integer cadence with [int(nTrials/chunks)]
    other than 0, enough slots, and options of which none names a
    parameter of a call they are passed to and from which the budget is
    defined), [stats] on the simulation it leaves returns, and gives
    every configured strategy a success count between 0 and the number
    of trials and a peak that is the number of successful searchers of
    one of the trials. *)
Theorem simulate_then_stats_returns
    (c : Config) (ch n : Z) (fuel : nat) (r nr : rng) (log : list event) :
  1 <= nTrials c < 2 ^ 53 ->
  0 <= nPrisoners c ->
  NoDup (cfg_algorithms c) ->
  _opts c !! "chunks" = Some (PInt ch) ->
  Z.quot (nTrials c) ch <> 0 ->
  _opts c !! "nEnvelopes" = Some (PInt n) ->
  nPrisoners c <= n ->
  constructible (delete "nEnvelopes" (delete "chunks" (_opts c))) n ->
  (Z.to_nat n <= fuel)%nat ->
  exists st' s,
    simulate fuel (MkRun (Simulation_init c) r nr log) = Ok st' /\
    stats (sim st') = Ok s /\
    forall a, a ∈ cfg_algorithms c ->
      exists v m t,
        success s !! __name__ a = Some v /\ 0 <= v <= nTrials c /\
        peak s !! __name__ a = Some m /\
        _results (sim st') !! __name__ a = Some t /\
        m ∈ sum (tbl_data t).
Proof.
  intros HT HS Hnd Hch Hstep Hn HSn Hk Hfuel.
  destruct (simulate_completes c ch n fuel r nr log)
    as (st' & Hrun & Hshape & _); try done.
  pose proof (simulate_config _ _ _ Hrun) as Hc. cbn [sim _config] in Hc.
  change (_config (Simulation_init c)) with c in Hc.
  destruct (stats_of_filled_tables (sim st')) as (s & Hs & Hall).
  { rewrite Hc. intros a Ha. destruct (Hshape a Ha) as (t & Ht & Hcols & _).
    exists t. split; [done |]. intros Hnil. rewrite Hnil in Hcols.
    cbn [length] in Hcols. lia. }
  exists st', s. split_and!; [done | done |].
  intros a Ha. rewrite Hc in Hall.
  destruct (Hall a Ha) as (t & m & Ht & Hsucc & Hpeak & Hin & _).
  destruct (Hshape a Ha) as (t' & Ht' & Hcols & _).
  assert (t' = t) as -> by congruence.
  eexists _, m, t. split_and!; [exact Hsucc | lia | | done | done | done].
  pose proof (length_filter
                (fun col => col_sum (snd col) = nPrisoners c)
                (columns (tbl_data t))) as Hle.
  lia.
Qed.

Lemma simulate_then_stats_returns_witness :
  exists st' s,
    simulate 4
      (MkRun (Simulation_init
                (MkConfig 3 10 [RandomSelect; LoopSelect]
                   {[ "lower" := PBool true; "chunks" := PInt 3;
                      "nEnvelopes" := PInt 4;
                      "schema" := PStr "default" ]}))
         (fun k => k) (fun k => k) []) = Ok st' /\
    stats (sim st') = Ok s /\
    forall a, a ∈ [RandomSelect; LoopSelect] ->
      exists v m t,
        success s !! __name__ a = Some v /\ 0 <= v <= 10 /\
        peak s !! __name__ a = Some m /\
        _results (sim st') !! __name__ a = Some t /\
        m ∈ sum (tbl_data t).
Proof.
  apply (simulate_then_stats_returns
           (MkConfig 3 10 [RandomSelect; LoopSelect]
              {[ "lower" := PBool true; "chunks" := PInt 3;
                 "nEnvelopes" := PInt 4; "schema" := PStr "default" ]})
           3 4 4 (fun k => k) (fun k => k) []).
  - cbn. lia.
  - cbn. lia.
  - cbn. apply NoDup_cons_2; [| apply NoDup_singleton].
    by intros ?%list_elem_of_singleton.
  - reflexivity.
  - by vm_compute.
  - reflexivity.
  - cbn. lia.
  - split; [reflexivity |]. exists 2. reflexivity.
  - lia.
Defined.
